(** * Bill import: extraction parser, expiry dates and batch reconciliation

    A shallow embedding of
      - [src/services/openRouterExtraction.service.ts]
        ([extractTextFromImage], [parseBillText],
        [extractMedicinesFromImage]), and
      - [src/controllers/billImport.controller.ts]
        ([importBill], [confirmImport], [generateSku], [parseExpiryDate]),
    with the properties the specification states about them.

    The controller file holds two generations of [confirmImport]: the
    earlier one (quantity-only update) and the later one (fill-only price
    update, [parseExpiryDate]).  Both are embedded; the later one keeps the
    source name, the earlier one is [confirmImport_legacy]. *)

From Stdlib Require Import ZArith QArith Qreduction Qround List String Ascii Bool Lia.
From Stdlib Require DecimalString.
Import ListNotations.

Set Warnings "-register-all".
Set Warnings "-automation".

Open Scope string_scope.
Open Scope Z_scope.
Open Scope list_scope.

(* ================================================================== *)
(** ** JavaScript values                                                *)
(* ================================================================== *)

(** The handlers read untyped JSON, so the embedding carries JavaScript
    values and the coercions the source applies to them ([Number(x)],
    [x || y], [!x], [===], [String(x)]).

    Conventions of the model:
    - a string is a Rocq [string]: a sequence of code units below 256;
    - a number is a double: [NaN], an infinity, or a finite double held
      as the rational it is, in lowest terms.  Whatever computes a number
      rounds it to the nearest double ([round_double]); [-0] is
      identified with [0], which the handlers never tell apart. *)
Module JS.

Inductive number : Type :=
| NaN
| Infinity (negative : bool)
| Fin (q : Q).

Definition zero : number := Fin 0%Q.

(** *** Rounding to a double *)

(** [a / (d * 2^p)] as a fraction of integers. *)
Definition scaled (a d p : Z) : Z * Z :=
  if 0 <=? p then (a, d * 2 ^ p) else (a * 2 ^ (- p), d).

(** The integer nearest to [n / d], the even one of two equally near. *)
Definition nearest_even (n d : Z) : Z :=
  let fl := n / d in
  let r2 := 2 * (n mod d) in
  if r2 <? d then fl
  else if d <? r2 then fl + 1
  else if Z.even fl then fl else fl + 1.

(** The binade of [a / d], both positive: the [e] with
    [2^e <= a / d < 2^(e+1)]. *)
Definition binade (a d : Z) : Z :=
  let e0 := Z.log2 a - Z.log2 d in
  let (n, m) := scaled a d e0 in
  if n <? m then e0 - 1 else e0.

(** The double nearest to a rational, ties to the even significand: 53
    significant bits, no exponent below -1074 (below the normal range the
    spacing stays [2^-1074], and what is nearer to 0 than to that is 0),
    and an infinity from [2^1024] on.  An integer up to [2^53] in
    magnitude is a double as it is. *)
Definition round_double (q : Q) : number :=
  let q := Qred q in
  let n := Qnum q in
  let d := Zpos (Qden q) in
  if (d =? 1) && (Z.abs n <=? 2 ^ 53) then Fin q
  else
    let a := Z.abs n in
    let p := Z.max (binade a d - 52) (- 1074) in
    let (sn, sd) := scaled a d p in
    let m := nearest_even sn sd in
    if (0 <=? p) && (2 ^ 1024 <=? m * 2 ^ p) then Infinity (n <? 0)
    else
      let v := if 0 <=? p then (m * 2 ^ p) # 1
               else Qred (m # Z.to_pos (2 ^ (- p))) in
      Fin (if n <? 0 then Qred (- v)%Q else v).

Definition of_Z (z : Z) : number := round_double (z # 1).

(** Truthiness of a number: [NaN] and [0] are falsy. *)
Definition num_truthy (n : number) : bool :=
  match n with
  | NaN => false
  | Infinity _ => true
  | Fin q => negb (Qeq_bool q 0%Q)
  end.

(** [a + b] on numbers. *)
Definition num_add (a b : number) : number :=
  match a, b with
  | NaN, _ | _, NaN => NaN
  | Infinity s, Infinity t => if Bool.eqb s t then Infinity s else NaN
  | Infinity s, Fin _ | Fin _, Infinity s => Infinity s
  | Fin p, Fin q => round_double (p + q)%Q
  end.

(** [a * b] on numbers. *)
Definition num_mul (a b : number) : number :=
  match a, b with
  | NaN, _ | _, NaN => NaN
  | Infinity s, Infinity t => Infinity (xorb s t)
  | Infinity s, Fin q | Fin q, Infinity s =>
      if Qeq_bool q 0%Q then NaN
      else Infinity (xorb s (negb (Qle_bool 0%Q q)))
  | Fin p, Fin q => round_double (p * q)%Q
  end.

(** [Math.floor(a)] *)
Definition num_floor (a : number) : number :=
  match a with
  | Fin q => Fin (Qfloor q # 1)
  | _ => a
  end.

(** [a > 0] and [a < 0]. *)
Definition num_gt0 (a : number) : bool :=
  match a with
  | NaN => false
  | Infinity neg => negb neg
  | Fin q => negb (Qle_bool q 0%Q)
  end.

Definition num_lt0 (a : number) : bool :=
  match a with
  | NaN => false
  | Infinity neg => neg
  | Fin q => negb (Qle_bool 0%Q q)
  end.

Inductive jsval : Type :=
| JUndefined
| JNull
| JBool (b : bool)
| JNum (n : number)
| JStr (s : string)
| JArr (elems : list jsval)
| JObj (props : list (string * jsval)).

(** ToBoolean. *)
Definition truthy (v : jsval) : bool :=
  match v with
  | JUndefined | JNull => false
  | JBool b => b
  | JNum n => num_truthy n
  | JStr s => negb (String.eqb s "")
  | JArr _ | JObj _ => true
  end.

(** [a || b]. *)
Definition or (a b : jsval) : jsval := if truthy a then a else b.

(** *** Characters *)

Definition code (c : ascii) : nat := nat_of_ascii c.

Definition in_range (lo hi : nat) (c : ascii) : bool :=
  (lo <=? code c)%nat && (code c <=? hi)%nat.

(** [\d] *)
Definition is_digit (c : ascii) : bool := in_range 48 57 c.

(** [[a-zA-Z0-9]] *)
Definition is_alnum (c : ascii) : bool :=
  is_digit c || in_range 65 90 c || in_range 97 122 c.

(** [\s] and the white space StringToNumber trims, among code units
    below 256: TAB, LF, VT, FF, CR, SP and NBSP. *)
Definition is_space (c : ascii) : bool :=
  in_range 9 13 c || (code c =? 32)%nat || (code c =? 160)%nat.

Definition digit_val (c : ascii) : Z := Z.of_nat (code c) - 48.

Definition hex_val (c : ascii) : option Z :=
  if is_digit c then Some (digit_val c)
  else if in_range 97 102 c then Some (Z.of_nat (code c) - 87)
  else if in_range 65 70 c then Some (Z.of_nat (code c) - 55)
  else None.

(** Folding the letters A-Z to lower case, every other code unit left
    as it is: the case-insensitive collation of the store, and all that
    a comparison of [s.toLowerCase()] with a text of lower-case ASCII
    letters and other ASCII characters depends on (no code unit below
    256 outside A-Z maps to an ASCII character). *)
Definition to_lower (c : ascii) : ascii :=
  if in_range 65 90 c then ascii_of_nat (code c + 32) else c.

Fixpoint map_string (f : ascii -> ascii) (s : string) : string :=
  match s with
  | EmptyString => EmptyString
  | String c r => String (f c) (map_string f r)
  end.

Definition toLowerCase : string -> string := map_string to_lower.

(** *** StringToNumber *)

Fixpoint drop_space (l : list ascii) : list ascii :=
  match l with
  | c :: r => if is_space c then drop_space r else l
  | [] => []
  end.

Definition trim (l : list ascii) : list ascii :=
  rev (drop_space (rev (drop_space l))).

(** Longest prefix of decimal digits, and what follows it. *)
Fixpoint span_digits (l : list ascii) : list ascii * list ascii :=
  match l with
  | c :: r =>
      if is_digit c
      then let (ds, rest) := span_digits r in (c :: ds, rest)
      else ([], l)
  | [] => ([], [])
  end.

Definition digits_value (ds : list ascii) : Z :=
  fold_left (fun acc c => 10 * acc + digit_val c) ds 0.

(** Value of an all-digit list in radix [b], [None] when a character is
    not a digit of that radix or the list is empty. *)
Definition radix_value (b : Z) (ds : list ascii) : option Z :=
  match ds with
  | [] => None
  | _ =>
      fold_left
        (fun acc c =>
           match acc, hex_val c with
           | Some a, Some d => if d <? b then Some (b * a + d) else None
           | _, _ => None
           end) ds (Some 0)
  end.

(** [m * 10^e], exactly, as a rational in lowest terms. *)
Definition scale10 (m e : Z) : Q :=
  if 0 <=? e then Qred ((m * 10 ^ e) # 1)
  else Qred (m # Z.to_pos (10 ^ (- e))).

(** ExponentPart after the mantissa: nothing, or [e]/[E], an optional
    sign and at least one digit, up to the end. *)
Definition exponent_part (l : list ascii) : option Z :=
  match l with
  | [] => Some 0
  | c :: r =>
      if (code c =? 101)%nat || (code c =? 69)%nat then
        let '(neg, r') :=
          match r with
          | s :: r' =>
              if (code s =? 45)%nat then (true, r')
              else if (code s =? 43)%nat then (false, r')
              else (false, r)
          | [] => (false, r)
          end in
        match span_digits r' with
        | ((_ :: _) as ds, []) =>
            Some (if neg then - digits_value ds else digits_value ds)
        | _ => None
        end
      else None
  end.

(** StrUnsignedDecimalLiteral other than [Infinity]. *)
Definition unsigned_decimal (l : list ascii) : option Q :=
  let (ip, r1) := span_digits l in
  let (fp, r2) :=
    match r1 with
    | c :: r => if (code c =? 46)%nat then span_digits r else ([], r1)
    | [] => ([], r1)
    end in
  match ip ++ fp with
  | [] => None
  | ds =>
      match exponent_part r2 with
      | Some e => Some (scale10 (digits_value ds) (e - Z.of_nat (List.length fp)))
      | None => None
      end
  end.

Definition chars (s : string) : list ascii := list_ascii_of_string s.

(** The mathematical value of the literal, rounded to a double. *)
Definition unsigned_literal (l : list ascii) : number :=
  if list_eq_dec ascii_dec l (chars "Infinity") then Infinity false
  else match unsigned_decimal l with
       | Some q => round_double q
       | None => NaN
       end.

Definition num_neg (n : number) : number :=
  match n with
  | NaN => NaN
  | Infinity s => Infinity (negb s)
  | Fin q => Fin (Qred (- q)%Q)
  end.

Definition nondecimal (l : list ascii) : option number :=
  match l with
  | z :: x :: ds =>
      if (code z =? 48)%nat then
        let radix :=
          if (code x =? 120)%nat || (code x =? 88)%nat then Some 16
          else if (code x =? 111)%nat || (code x =? 79)%nat then Some 8
          else if (code x =? 98)%nat || (code x =? 66)%nat then Some 2
          else None in
        match radix with
        | Some b =>
            Some match radix_value b ds with
                 | Some v => of_Z v
                 | None => NaN
                 end
        | None => None
        end
      else None
  | _ => None
  end.

Definition StringToNumber (s : string) : number :=
  match trim (chars s) with
  | [] => zero
  | (c :: r) as l =>
      match nondecimal l with
      | Some n => n
      | None =>
          if (code c =? 45)%nat then num_neg (unsigned_literal r)
          else if (code c =? 43)%nat then unsigned_literal r
          else unsigned_literal l
      end
  end.

(** *** Conversion to a primitive *)

(** Whether an object has the own property [k]. *)
Definition has_own (k : string) (props : list (string * jsval)) : bool :=
  existsb (fun kv => String.eqb k (fst kv)) props.

(** The values [Number(v)], [String(v)] and a template literal throw a
    [TypeError] on, among the values a decoded JSON text is made of.
    Converting an object to a primitive calls its [valueOf] and its
    [toString], whichever is callable: the inherited [valueOf] returns
    the object itself, the inherited [toString] returns a string, and an
    own property of either name, which holds no function, is passed
    over.  So the conversion finds no primitive exactly when the object
    has an own [toString].  An array converts by joining the strings of
    its elements, and throws when one of them does. *)
Fixpoint no_primitive (v : jsval) : bool :=
  match v with
  | JObj props => has_own "toString" props
  | JArr l => existsb no_primitive l
  | _ => false
  end.

(** What [Number(v)] returns when it returns.  An array goes through its
    string form: the empty array is the empty string, a one-element
    array is the string form of its element (nothing for
    [undefined]/[null]), and a longer one contains a comma, which no
    numeric literal does.  A number read back from its own string form
    is itself. *)
Fixpoint Number_value (v : jsval) : number :=
  match v with
  | JUndefined => NaN
  | JNull => zero
  | JBool b => if b then of_Z 1 else zero
  | JNum n => n
  | JStr s => StringToNumber s
  | JArr [] => zero
  | JArr [x] =>
      match x with
      | JUndefined | JNull => zero
      | JBool _ | JObj _ => NaN
      | _ => Number_value x
      end
  | JArr _ => NaN
  | JObj _ => NaN
  end.

(** [Number(v)]; [None] is a thrown [TypeError]. *)
Definition Number (v : jsval) : option number :=
  if no_primitive v then None else Some (Number_value v).

(** [Number(v) || 0]: when [Number(v)] returns, a number that is not
    [NaN]. *)
Definition Number_or_0 (v : jsval) : option number :=
  match Number v with
  | Some n => Some (if num_truthy n then n else zero)
  | None => None
  end.

(** [parseInt] on a string of decimal digits, the only use the source
    makes of it. *)
Definition parseInt_digits (ds : list ascii) : Z := digits_value ds.

(** Property read [o.k]: a [TypeError] ([None]) on [undefined] and
    [null]; on an object the own property or [undefined]; [undefined]
    on every other value, none of whose built-in properties carries a
    name the source reads. *)
Fixpoint assoc (k : string) (l : list (string * jsval)) : jsval :=
  match l with
  | [] => JUndefined
  | (k', v) :: r => if String.eqb k k' then v else assoc k r
  end.

Definition get (o : jsval) (k : string) : option jsval :=
  match o with
  | JUndefined | JNull => None
  | JObj props => Some (assoc k props)
  | _ => Some JUndefined
  end.

End JS.

Import JS.

(* ================================================================== *)
(** ** Exceptions                                                       *)
(* ================================================================== *)

(** What a [throw] carries, as far as the handlers tell errors apart:
    a [TypeError] or [SyntaxError] raised by the engine, a rejected
    persistence call, and an [Error] with its message. *)
Inductive exn : Type :=
| TypeError
| SyntaxError
| PrismaError
| Error (message : string).

Inductive result (A : Type) : Type :=
| Ok (a : A)
| Throw (e : exn).
Arguments Ok {A} a.
Arguments Throw {A} e.

(** A conversion of the engine, where [None] is a thrown [TypeError]. *)
Definition or_TypeError {A} (o : option A) : result A :=
  match o with
  | Some a => Ok a
  | None => Throw TypeError
  end.

(** A template literal [`... ${v} ...`], as far as it can throw: it
    converts [v] to a string. *)
Definition template (v : jsval) : result Datatypes.unit :=
  if no_primitive v then Throw TypeError else Ok tt.

(* ================================================================== *)
(** ** Dates                                                            *)
(* ================================================================== *)

(** A [Date] by its local calendar fields, as [getFullYear], [getMonth]
    (0-11) and [getDate] return them, and the milliseconds into that
    day.  An invalid date is not a [JsDate]; functions that may produce
    one return an option. *)
Record JsDate : Type := mkDate {
  getFullYear : Z;
  getMonth : Z;
  getDate : Z;
  msOfDay : Z
}.

(** [new Date(year, monthIndex, 1)]: a year from 0 to 99 stands for
    1900 + year, and a month index outside 0-11 carries into the year,
    twelve months to a year.  The date is the first instant of that
    local day: [start y m] milliseconds into it, which is 0 unless the
    clocks of the zone skip the midnight that opens the day. *)
Definition Date_first (start : Z -> Z -> Z) (year monthIndex : Z) : JsDate :=
  let y := if (0 <=? year) && (year <=? 99) then 1900 + year else year in
  let fullYear := y + monthIndex / 12 in
  let month := monthIndex mod 12 in
  mkDate fullYear month 1 (start fullYear month).

(** [dateStr.match(/^(\d{1,2})[\/\-](\d{2})$/)]: the two groups. *)
Definition is_slash_or_dash (c : ascii) : bool :=
  (code c =? 47)%nat || (code c =? 45)%nat.

Definition match_short (s : string) : option (list ascii * list ascii) :=
  match chars s with
  | [m1; sep; y1; y2] =>
      if is_digit m1 && is_slash_or_dash sep && is_digit y1 && is_digit y2
      then Some ([m1], [y1; y2]) else None
  | [m1; m2; sep; y1; y2] =>
      if is_digit m1 && is_digit m2 && is_slash_or_dash sep
         && is_digit y1 && is_digit y2
      then Some ([m1; m2], [y1; y2]) else None
  | _ => None
  end.

(** [dateStr.match(/^(\d{4})-(\d{1,2})$/)]: the two groups. *)
Definition match_iso (s : string) : option (list ascii * list ascii) :=
  match chars s with
  | [y1; y2; y3; y4; dash; m1] =>
      if is_digit y1 && is_digit y2 && is_digit y3 && is_digit y4
         && (code dash =? 45)%nat && is_digit m1
      then Some ([y1; y2; y3; y4], [m1]) else None
  | [y1; y2; y3; y4; dash; m1; m2] =>
      if is_digit y1 && is_digit y2 && is_digit y3 && is_digit y4
         && (code dash =? 45)%nat && is_digit m1 && is_digit m2
      then Some ([y1; y2; y3; y4], [m1; m2]) else None
  | _ => None
  end.

(* ================================================================== *)
(** ** The host: what the handlers call but the repository does not hold *)
(* ================================================================== *)

(** The persistence calls, the clock, the random source, the time zone
    and the engine's own date parser and case mapping are outside the
    repository.  [Host] gathers them; every definition below is a
    function of a host, and the theorems hold for every host.

    - [fault n]: the [n]-th persistence call of the process rejects;
    - [Date_new v]: [new Date(v)] for a primitive [v], [None] when the
      date is invalid ([getTime()] is [NaN]);
    - [Date_now n], [Math_random n]: [Date.now()] and [Math.random()]
      (a double from 0 up to, not including, 1) as observed after [n]
      persistence calls;
    - [toUpperCase s]: [s.toUpperCase()], which follows the Unicode case
      mapping: it maps letters outside a-z too and may change the
      length;
    - [day_start y m]: the time of day, in milliseconds, at which the
      first day of month [m] (0-11) of year [y] begins in the time zone
      of the process. *)
Record Host : Type := mkHost {
  fault : nat -> bool;
  Date_new : jsval -> option JsDate;
  Date_now : nat -> Z;
  Math_random : nat -> Q;
  toUpperCase : string -> string;
  day_start : Z -> Z -> Z
}.

(** [parseExpiryDate].  The parameter is declared a string; at run time
    it is whatever truthy value the item carries, and [.match] exists on
    strings only. *)
Definition parseExpiryDate (h : Host) (dateStr : jsval)
  : result (option JsDate) :=
  if negb (truthy dateStr) then Ok None
  else
    match dateStr with
    | JStr s =>
        match match_short s with
        | Some (g1, g2) =>
            let month := parseInt_digits g1 in
            let year := parseInt_digits g2 in
            let year := if year <? 50 then 2000 + year else 1900 + year in
            Ok (Some (Date_first (day_start h) year (month - 1)))
        | None =>
            match match_iso s with
            | Some (g1, g2) =>
                Ok (Some (Date_first (day_start h) (parseInt_digits g1)
                                     (parseInt_digits g2 - 1)))
            | None => Ok (Date_new h (JStr s))
            end
        end
    | _ => Throw TypeError
    end.

(* ================================================================== *)
(** ** The product table                                                *)
(* ================================================================== *)

(** Modelled from the spec: the schema of [prisma.product] is not among
    the sources.  A row is an InventoryBatch of the specification's data
    model, with its nullable [batchNumber], [expiryDate] and
    [manufacturer], together with the two columns the handlers also
    write, [sku] and [description].  Nullable columns are options ([None]
    is SQL NULL).  The price columns are read by the source under a null
    guard, so the model lets them be NULL.  A number column holds a
    [number]; that the client refuses a value its column cannot hold is
    part of what [fault] stands for. *)
Record Product : Type := mkProduct {
  id : nat;
  storeId : string;
  name : string;
  sku : string;
  quantity : number;
  batchNumber : option string;
  expiryDate : option JsDate;
  mrp : option number;
  costPrice : option number;
  sellingPrice : option number;
  manufacturer : option string;
  category : string;
  unit : string;
  reorderLevel : number;
  description : option string
}.

(** The table in the order [findMany] lists it, the next row id, and
    the number of persistence calls made so far. *)
Record Db : Type := mkDb {
  rows : list Product;
  nextId : nat;
  calls : nat
}.

(** A computation over a state [S] that may throw, and its sequencing
    ([await] and [;] alike). *)
Definition St (S A : Type) : Type := S -> result A * S.

Definition ret {S A} (a : A) : St S A := fun s => (Ok a, s).

Definition raise {S A} (e : exn) : St S A := fun s => (Throw e, s).

Definition bind {S A B} (c : St S A) (k : A -> St S B) : St S B :=
  fun s =>
    match c s with
    | (Ok a, s') => k a s'
    | (Throw e, s') => (Throw e, s')
    end.

Definition lift {S A} (r : result A) : St S A := fun s => (r, s).

Notation "x <- c ;; k" := (bind c (fun x => k))
  (at level 61, c at next level, right associativity).

(** A computation over the product table. *)
Definition M (A : Type) : Type := St Db A.

(** One persistence call: counted, and rejected when the host says so;
    a rejected call leaves the table as it was. *)
Definition call {A} (h : Host) (f : Db -> A * list Product * nat) : M A :=
  fun db =>
    let db1 := mkDb (rows db) (nextId db) (S (calls db)) in
    if fault h (calls db) then (Throw PrismaError, db1)
    else let '(a, rs, nid) := f db in (Ok a, mkDb rs nid (S (calls db))).

(** [name: { equals: name, mode: 'insensitive' }] *)
Definition equals_insensitive (a b : string) : bool :=
  String.eqb (toLowerCase a) (toLowerCase b).

(** The rows a [where: { storeId, name: { equals: name, mode:
    'insensitive' } }] selects: the name family. *)
Definition family (sid nm : string) (rs : list Product) : list Product :=
  filter (fun p => String.eqb (storeId p) sid
                   && equals_insensitive (name p) nm) rs.

(** [prisma.product.findMany({ where })] *)
Definition findMany (h : Host) (sid nm : string) : M (list Product) :=
  call h (fun db => (family sid nm (rows db), rows db, nextId db)).

(** The [data] of an update: [None] is an absent ([undefined]) field,
    which the call leaves as it is. *)
Record UpdateData : Type := mkUpdate {
  u_quantity : option number;
  u_mrp : option number;
  u_costPrice : option number;
  u_sellingPrice : option number;
  u_batchNumber : option string;
  u_expiryDate : option JsDate;
  u_manufacturer : option string
}.

Definition set_some {A} (new : option A) (old : A) : A :=
  match new with Some v => v | None => old end.

Definition set_opt {A} (new : option A) (old : option A) : option A :=
  match new with Some v => Some v | None => old end.

Definition apply_update (d : UpdateData) (p : Product) : Product :=
  mkProduct (id p) (storeId p) (name p) (sku p)
    (set_some (u_quantity d) (quantity p))
    (set_opt (u_batchNumber d) (batchNumber p))
    (set_opt (u_expiryDate d) (expiryDate p))
    (set_opt (u_mrp d) (mrp p))
    (set_opt (u_costPrice d) (costPrice p))
    (set_opt (u_sellingPrice d) (sellingPrice p))
    (set_opt (u_manufacturer d) (manufacturer p))
    (category p) (unit p) (reorderLevel p) (description p).

(** [prisma.product.update({ where: { id }, data })] *)
Definition update (h : Host) (i : nat) (d : UpdateData) : M Datatypes.unit :=
  call h (fun db =>
    (tt, map (fun p => if Nat.eqb (id p) i then apply_update d p else p)
             (rows db),
     nextId db)).

(** The [data] of a create; an absent nullable field is [None]. *)
Record CreateData : Type := mkCreate {
  c_storeId : string;
  c_name : string;
  c_sku : string;
  c_quantity : number;
  c_batchNumber : option string;
  c_expiryDate : option JsDate;
  c_mrp : number;
  c_costPrice : number;
  c_sellingPrice : number;
  c_manufacturer : option string;
  c_category : string;
  c_unit : string;
  c_reorderLevel : number;
  c_description : string
}.

Definition new_row (i : nat) (d : CreateData) : Product :=
  mkProduct i (c_storeId d) (c_name d) (c_sku d) (c_quantity d)
    (c_batchNumber d) (c_expiryDate d)
    (Some (c_mrp d)) (Some (c_costPrice d)) (Some (c_sellingPrice d))
    (c_manufacturer d) (c_category d) (c_unit d) (c_reorderLevel d)
    (Some (c_description d)).

(** [prisma.product.create({ data })]: the row gets a fresh id and is
    listed after the rows already there. *)
Definition create (h : Host) (d : CreateData) : M Datatypes.unit :=
  call h (fun db =>
    (tt, rows db ++ [new_row (nextId db) d], S (nextId db))).

(** A nullable string column as the JavaScript value read from it. *)
Definition of_column (c : option string) : jsval :=
  match c with Some s => JStr s | None => JNull end.

(** A JavaScript value handed to a nullable string column: a string is
    stored, [undefined] and [null] leave it NULL, and the client rejects
    anything else. *)
Definition to_column (v : jsval) : result (option string) :=
  match v with
  | JStr s => Ok (Some s)
  | JUndefined | JNull => Ok None
  | _ => Throw PrismaError
  end.

(** [p.batchNumber === batch] *)
Definition batch_equals (stored : option string) (batch : jsval) : bool :=
  match stored, batch with
  | None, JNull => true
  | Some s, JStr t => String.eqb s t
  | _, _ => false
  end.

(* ================================================================== *)
(** ** [confirmImport]                                                  *)
(* ================================================================== *)

(** One element of [req.body.items].  The handler reads these
    properties off untyped JSON.  The embedding fixes [medicine_name] to
    a string, which the string filter of [findMany] and
    [name.substring] both need, and keeps every other property as the
    JavaScript value it is ([JUndefined] when absent). *)
Module Item.
Record t : Type := make {
  medicine_name : string;
  batch_number : jsval;
  quantity : jsval;
  mrp : jsval;
  rate : jsval;
  expiry_date : jsval;
  supplier : jsval
}.
End Item.

(** [req.storeId] ([None] when the middleware set none) and
    [req.body.items] ([None] when it is not an array); [req.body] itself
    is an object. *)
Record Request : Type := mkRequest {
  req_storeId : option string;
  body_items : option (list Item.t)
}.

(** What the handler sends: status, [success] and [message]. *)
Record Response : Type := mkResponse {
  status : Z;
  success : bool;
  message : string
}.

Definition string_of_nat (n : nat) : string :=
  DecimalString.NilEmpty.string_of_uint (Nat.to_uint n).

Definition string_of_Z (z : Z) : string :=
  DecimalString.NilZero.string_of_int (Z.to_int z).

Definition filter_string (f : ascii -> bool) (s : string) : string :=
  string_of_list_ascii (filter f (chars s)).

(** [`${n}`] for a number that is an integer below [10^21] in
    magnitude, [NaN] or an infinity: such an integer prints in decimal
    digits. *)
Definition integer_toString (n : number) : string :=
  match n with
  | NaN => "NaN"
  | Infinity neg => if neg then "-Infinity" else "Infinity"
  | Fin q => string_of_Z (Qfloor q)
  end.

(** [generateSku]: [batch.replace] exists on strings only.  The product
    [Math.random() * 999] is a double: it is rounded before
    [Math.floor] sees it. *)
Definition generateSku (h : Host) (name : string) (batch : jsval)
  : M string :=
  fun db =>
    let cleanName := toUpperCase h (substring 0 3 name) in
    let cleanBatch :=
      if truthy batch then
        match batch with
        | JStr b => Ok (filter_string is_alnum b)
        | _ => Throw TypeError
        end
      else Ok (substring 0 6 (string_of_Z (Date_now h (calls db)))) in
    match cleanBatch with
    | Ok cb =>
        let random :=
          num_floor (num_mul (Fin (Math_random h (calls db))) (of_Z 999)) in
        (Ok (String.append cleanName
               (String.append "-"
                  (String.append cb
                     (String.append "-" (integer_toString random))))), db)
    | Throw e => (Throw e, db)
    end.

(** Which branch an item took. *)
Inductive branch : Type := Created | Updated.

(** [x ? Number(x) : 0] on a nullable decimal column: a decimal object
    is truthy whatever its value, NULL is not. *)
Definition decimal_or_0 (x : option number) : number :=
  match x with Some d => d | None => zero end.

(** [existingProducts.find(p => p.batchNumber === batch)] *)
Definition exactBatchMatch_of (batch : jsval) (existingProducts : list Product)
  : option Product :=
  find (fun p => batch_equals (batchNumber p) batch) existingProducts.

(** The [data] of the update path. *)
Definition update_fields (mrpValue costPriceValue quantityValue : number)
    (exactBatchMatch : Product)
    (expiryValue : option JsDate) (bn mf : option string) : UpdateData :=
  let existingMrp := decimal_or_0 (mrp exactBatchMatch) in
  let existingCostPrice := decimal_or_0 (costPrice exactBatchMatch) in
  let existingSellingPrice := decimal_or_0 (sellingPrice exactBatchMatch) in
  let existingQty :=
    if num_truthy (quantity exactBatchMatch)
    then quantity exactBatchMatch else zero in
  mkUpdate
    (Some (num_add existingQty quantityValue))
    (Some (if num_gt0 existingMrp then existingMrp else mrpValue))
    (Some (if num_gt0 existingCostPrice then existingCostPrice
           else costPriceValue))
    (Some (if num_gt0 existingSellingPrice then existingSellingPrice
           else mrpValue))
    bn
    (match expiryDate exactBatchMatch with
     | Some d => Some d
     | None => expiryValue
     end)
    mf.

(** The [data] of the create path. *)
Definition create_fields (sid : string) (item : Item.t)
    (mrpValue costPriceValue quantityValue : number)
    (blueprint : option Product) (skuValue : string)
    (expiryValue : option JsDate) (bn mf : option string) : CreateData :=
  mkCreate sid (Item.medicine_name item) skuValue quantityValue bn
    expiryValue mrpValue costPriceValue mrpValue mf
    (match blueprint with Some b => category b | None => "MEDICINE" end)
    (match blueprint with Some b => unit b | None => "pcs" end)
    (match blueprint with Some b => reorderLevel b | None => of_Z 10 end)
    "Imported from Supplier Bill".

(** [item.expiry_date ? parseExpiryDate(item.expiry_date) : undefined] *)
Definition expiry_of (h : Host) (item : Item.t) : result (option JsDate) :=
  if truthy (Item.expiry_date item)
  then parseExpiryDate h (Item.expiry_date item)
  else Ok None.

(** The body of the [for] loop of [confirmImport]: the values parsed
    upfront, the line logged (its template converts [batch] to a
    string), then the lookup and one of the two paths. *)
Definition reconcile_item (h : Host) (sid : string) (item : Item.t)
  : M branch :=
  let name := Item.medicine_name item in
  let batch := Item.batch_number item in
  mrpValue <- lift (or_TypeError (Number_or_0 (Item.mrp item))) ;;
  costPriceValue <- lift (or_TypeError (Number_or_0 (Item.rate item))) ;;
  quantityValue <- lift (or_TypeError (Number_or_0 (Item.quantity item))) ;;
  expiryValue <- lift (expiry_of h item) ;;
  _ <- lift (template batch) ;;
  existingProducts <- findMany h sid name ;;
  match exactBatchMatch_of batch existingProducts with
  | Some exactBatchMatch =>
      bn <- lift (to_column
                    (or (or (of_column (batchNumber exactBatchMatch)) batch)
                        JUndefined)) ;;
      mf <- lift (to_column
                    (or (or (of_column (manufacturer exactBatchMatch))
                            (Item.supplier item))
                        JUndefined)) ;;
      _ <- update h (id exactBatchMatch)
             (update_fields mrpValue costPriceValue quantityValue
                exactBatchMatch expiryValue bn mf) ;;
      ret Updated
  | None =>
      let blueprint := hd_error existingProducts in
      skuValue <- generateSku h name batch ;;
      bn <- lift (to_column (or batch JUndefined)) ;;
      mf <- lift (to_column (or (Item.supplier item) JUndefined)) ;;
      _ <- create h
             (create_fields sid item mrpValue costPriceValue quantityValue
                blueprint skuValue expiryValue bn mf) ;;
      ret Created
  end.

(** [item.expiry_date ? new Date(item.expiry_date) : undefined]: the
    constructor converts its argument to a primitive first; [Ok None]
    is [undefined], [Ok (Some None)] an invalid date. *)
Definition legacy_expiry_of (h : Host) (item : Item.t)
  : result (option (option JsDate)) :=
  let v := Item.expiry_date item in
  if truthy v then
    if no_primitive v then Throw TypeError else Ok (Some (Date_new h v))
  else Ok None.

(** The body of the [for] loop of the earlier [confirmImport]: the
    update adds to the quantity and writes nothing else, the create
    stores [batch] and [new Date(item.expiry_date)] as they are.  The
    [data] of a call is built, in the order it is written, before the
    call is made; the client refuses a batch number that is no string
    and a date that is invalid. *)
Definition reconcile_item_legacy (h : Host) (sid : string) (item : Item.t)
  : M branch :=
  let name := Item.medicine_name item in
  let batch := Item.batch_number item in
  existingProducts <- findMany h sid name ;;
  match exactBatchMatch_of batch existingProducts with
  | Some exactBatchMatch =>
      quantityValue <- lift (or_TypeError (Number (Item.quantity item))) ;;
      _ <- update h (id exactBatchMatch)
             (mkUpdate
                (Some (num_add (quantity exactBatchMatch) quantityValue))
                None None None None None None) ;;
      ret Updated
  | None =>
      let blueprint := hd_error existingProducts in
      skuValue <- generateSku h name batch ;;
      quantityValue <- lift (or_TypeError (Number (Item.quantity item))) ;;
      expiryValue <- lift (legacy_expiry_of h item) ;;
      mrpValue <- lift (or_TypeError (Number (Item.mrp item))) ;;
      costPriceValue <- lift (or_TypeError (Number (Item.rate item))) ;;
      bn <- lift (to_column batch) ;;
      expiry <-
        lift (match expiryValue with
              | Some (Some d) => Ok (Some d)
              | Some None => Throw PrismaError
              | None => Ok None
              end) ;;
      _ <- create h
             (mkCreate sid name skuValue quantityValue
                bn expiry
                mrpValue costPriceValue
                mrpValue None
                (match blueprint with
                 | Some b => category b | None => "MEDICINE" end)
                (match blueprint with
                 | Some b => unit b | None => "pcs" end)
                (match blueprint with
                 | Some b => reorderLevel b | None => of_Z 10 end)
                "Imported from Bill") ;;
      ret Created
  end.

(** The [for] loop over [items], with the two tallies as they stand. *)
Fixpoint for_items (body : Item.t -> M branch) (items : list Item.t)
    (created updated : nat) : M (nat * nat) :=
  match items with
  | [] => ret (created, updated)
  | item :: rest =>
      p <- body item ;;
      match p with
      | Created => for_items body rest (S created) updated
      | Updated => for_items body rest created (S updated)
      end
  end.

(** The three ways the handler ends. *)
Inductive Reply : Type :=
| Confirmed (created updated : nat)
| InvalidRequest
| SaveFailed.

Definition respond (r : Reply) : Response :=
  match r with
  | Confirmed created updated =>
      mkResponse 200 true
        (String.append "Import confirmed. "
           (String.append (string_of_nat created)
              (String.append " new batches, "
                 (String.append (string_of_nat updated)
                    " stock updates."))))
  | InvalidRequest => mkResponse 400 false "Invalid request"
  | SaveFailed => mkResponse 500 false "Failed to save inventory"
  end.

(** The handler around the loop: the request check, the [try], and the
    [catch] that answers every throw alike. *)
Definition handler (body : string -> Item.t -> M branch)
    (req : Request) (db : Db) : Reply * Db :=
  match req_storeId req, body_items req with
  | Some sid, Some items =>
      if String.eqb sid "" then (InvalidRequest, db)
      else
        match for_items (body sid) items 0 0 db with
        | (Ok (created, updated), db') => (Confirmed created updated, db')
        | (Throw _, db') => (SaveFailed, db')
        end
  | _, _ => (InvalidRequest, db)
  end.

Definition confirmImport (h : Host) : Request -> Db -> Reply * Db :=
  handler (reconcile_item h).

Definition confirmImport_legacy (h : Host) : Request -> Db -> Reply * Db :=
  handler (reconcile_item_legacy h).

(* ================================================================== *)
(** ** The extraction service                                           *)
(* ================================================================== *)

(** What a resolved [openai.chat.completions.create] carries, as far as
    the source reads it: for each choice, [message.content] ([None] when
    it is [null]).  A rejected call carries the error it rejects with. *)
Inductive completion : Type :=
| Resolved (choices : list (option string))
| Rejected (e : exn).

(** What the extraction side calls but the repository does not hold: the
    engine's [JSON.parse] ([None]: it throws) and number printing, the
    file system, the two remote models, the PDF converter and the name
    normalizer.  The remote calls and the file system calls are numbered
    by the count of such calls made before them, so that the same
    request may be answered differently each time. *)
Record Platform : Type := mkPlatform {
  JSON_parse : string -> option jsval;
  Number_toString : number -> string;
  readFileSync : nat -> string -> result string;
  vision : nat -> string -> string -> completion;
  chat : nat -> string -> completion;
  convertPdfToImages : nat -> string -> result (list string);
  normalizeMedicineName : string -> string;
  existsSync : nat -> string -> bool;
  unlinkSync : nat -> string -> result Datatypes.unit
}.

(** The state of the extraction side: the number of outside calls made. *)
Definition World : Type := nat.

Definition outside {A} (f : nat -> A) : St World A :=
  fun n => (Ok (f n), S n).

(** What [String(v)] returns when it returns. *)
Fixpoint String_value (pf : Platform) (v : jsval) : string :=
  match v with
  | JUndefined => "undefined"
  | JNull => "null"
  | JBool b => if b then "true" else "false"
  | JNum n => Number_toString pf n
  | JStr s => s
  | JArr l =>
      String.concat ","
        (map (fun x => match x with
                       | JUndefined | JNull => ""
                       | _ => String_value pf x
                       end) l)
  | JObj _ => "[object Object]"
  end.

(** [String(v)]; [None] is a thrown [TypeError]. *)
Definition ToString (pf : Platform) (v : jsval) : option string :=
  if no_primitive v then None else Some (String_value pf v).

Module Extracted.
(** [ExtractedMedicine] *)
Record t : Type := make {
  medicine_name : string;
  quantity : number;
  batch_number : string;
  expiry_date : string;
  mrp : number;
  rate : number
}.
End Extracted.

(** [ParsedBillData].  An optional field that is absent reads as
    [undefined]; the source copies the invoice fields from the decoded
    JSON as they are, whatever their type. *)
Record ParsedBillData : Type := mkParsed {
  invoiceNumber : jsval;
  invoiceDate : jsval;
  supplierName : jsval;
  totalAmount : jsval;
  items : list Extracted.t
}.

(** [{ items: [] }] *)
Definition no_items : ParsedBillData :=
  mkParsed JUndefined JUndefined JUndefined JUndefined [].

(** *** Finding the JSON in the response *)

Fixpoint starts_with (p l : list ascii) : bool :=
  match p, l with
  | [], _ => true
  | a :: p', b :: l' => Ascii.eqb a b && starts_with p' l'
  | _ :: _, [] => false
  end.

Definition backticks : list ascii := chars "```".

(** The lazy group [([\s\S]*?)] followed by [\s*```]: the shortest
    prefix after which only white space separates from a fence. *)
Fixpoint lazy_until_fence (l : list ascii) : option (list ascii) :=
  if starts_with backticks (drop_space l) then Some []
  else match l with
       | [] => None
       | c :: r => option_map (cons c) (lazy_until_fence r)
       end.

(** [s.match(/<opening>\s*([\s\S]*?)\s*```/)], group 1: the leftmost
    position where the opening matches and the rest can.  The greedy
    [\s*] after the opening takes the whole run of white space: if the
    rest can match after a shorter run, it can after the whole run. *)
Fixpoint match_fenced (opening l : list ascii) : option (list ascii) :=
  match
    (if starts_with opening l
     then lazy_until_fence (drop_space (skipn (List.length opening) l))
     else None)
  with
  | Some g => Some g
  | None => match l with
            | [] => None
            | _ :: r => match_fenced opening r
            end
  end.

(** [s.indexOf(c)] and [s.lastIndexOf(c)], [None] for -1. *)
Fixpoint indexOf (c : ascii) (l : list ascii) : option nat :=
  match l with
  | [] => None
  | a :: r => if Ascii.eqb a c then Some O else option_map S (indexOf c r)
  end.

Definition lastIndexOf (c : ascii) (l : list ascii) : option nat :=
  match indexOf c (rev l) with
  | Some i => Some (List.length l - 1 - i)%nat
  | None => None
  end.

(** [s.substring(a, b)]: the arguments are swapped when [a > b]. *)
Definition js_substring (a b : nat) (l : list ascii) : list ascii :=
  firstn (Nat.max a b - Nat.min a b) (skipn (Nat.min a b) l).

(** The text handed to [JSON.parse]. *)
Definition json_candidate (content : option string) : string :=
  let jsonStr :=
    match content with
    | Some c => if String.eqb c "" then "{}" else c
    | None => "{}"
    end in
  let l := chars jsonStr in
  let jsonMatch :=
    match match_fenced (chars "```json") l with
    | Some g => Some g
    | None => match_fenced backticks l
    end in
  match jsonMatch with
  | Some g => string_of_list_ascii g
  | None =>
      match indexOf "{"%char l, lastIndexOf "}"%char l with
      | Some firstBrace, Some lastBrace =>
          string_of_list_ascii (js_substring firstBrace (lastBrace + 1) l)
      | _, _ => jsonStr
      end
  end.

(** *** Normalizing the decoded items *)

(** The callback of [.map]: reading a property of [undefined] or [null]
    throws, and so does a conversion that finds no primitive; every
    throw of the callback is a [TypeError]. *)
Definition normalize_item (pf : Platform) (item : jsval)
  : result Extracted.t :=
  match item with
  | JUndefined | JNull => Throw TypeError
  | _ =>
      let prop k :=
        match item with JObj props => assoc k props | _ => JUndefined end in
      match
        ToString pf (or (or (prop "medicine_name") (prop "productName"))
                        (JStr "")),
        Number_or_0 (prop "quantity"),
        ToString pf (or (or (prop "batch_number") (prop "batchNumber"))
                        (JStr "")),
        ToString pf (or (or (prop "expiry_date") (prop "expiryDate"))
                        (JStr "")),
        Number_or_0 (prop "mrp"),
        Number_or_0 (prop "rate")
      with
      | Some medicine_name, Some quantity, Some batch_number,
        Some expiry_date, Some mrp, Some rate =>
          Ok (Extracted.make medicine_name quantity batch_number
                expiry_date mrp rate)
      | _, _, _, _, _, _ => Throw TypeError
      end
  end.

(** [array.map(f)] where [f] may throw. *)
Fixpoint map_result {A B} (f : A -> result B) (l : list A)
  : result (list B) :=
  match l with
  | [] => Ok []
  | a :: r =>
      match f a with
      | Ok b => match map_result f r with
                | Ok bs => Ok (b :: bs)
                | Throw e => Throw e
                end
      | Throw e => Throw e
      end
  end.

(** What follows [JSON.parse] inside the [try]: [.map] exists on arrays
    only. *)
Definition normalize_bill (pf : Platform) (parsed : jsval)
  : result ParsedBillData :=
  match get parsed "items" with
  | None => Throw TypeError
  | Some its =>
      match or its (JArr []) with
      | JArr l =>
          match map_result (normalize_item pf) l with
          | Ok normalized =>
              let prop k :=
                match parsed with
                | JObj props => assoc k props
                | _ => JUndefined
                end in
              match Number_or_0 (prop "totalAmount") with
              | Some total =>
                  Ok (mkParsed (prop "invoiceNumber") (prop "invoiceDate")
                        (prop "supplierName") (JNum total) normalized)
              | None => Throw TypeError
              end
          | Throw e => Throw e
          end
      | _ => Throw TypeError
      end
  end.

(** The [try] block after the remote call has settled. *)
Definition decode (pf : Platform) (c : completion) : result ParsedBillData :=
  match c with
  | Rejected e => Throw e
  | Resolved [] => Throw TypeError
  | Resolved (content :: _) =>
      match JSON_parse pf (json_candidate content) with
      | None => Throw SyntaxError
      | Some parsed => normalize_bill pf parsed
      end
  end.

(** [parseBillText]: the [catch] answers every throw of the [try] with
    [{ items: [] }]. *)
Definition parseBillText (pf : Platform) (text : string)
  : St World ParsedBillData :=
  c <- outside (fun n => chat pf n text) ;;
  match decode pf c with
  | Ok bill => ret bill
  | Throw _ => ret no_items
  end.

(** [path.extname(p).toLowerCase()] for a path without trailing
    separators: from the last dot of the last segment, unless that dot
    opens the segment. *)
Fixpoint last_segment (acc l : list ascii) : list ascii :=
  match l with
  | [] => acc
  | c :: r => if (code c =? 47)%nat then last_segment r r
              else last_segment acc r
  end.

Definition extname (p : string) : string :=
  let base := last_segment (chars p) (chars p) in
  match lastIndexOf "."%char base with
  | Some (S i) =>
      if list_eq_dec ascii_dec base (chars "..") then ""
      else string_of_list_ascii (skipn (S i) base)
  | _ => ""
  end.

(** [extractTextFromImage]: a failed read throws as it is, a rejected
    model call throws the service's own error.  The model is handed the
    MIME type and the bytes; the source packs the two into one data
    URI. *)
Definition extractTextFromImage (pf : Platform) (imagePath : string)
  : St World string :=
  imageBuffer <- (fun n => (readFileSync pf n imagePath, S n)) ;;
  let ext := toLowerCase (extname imagePath) in
  let mimeType :=
    if String.eqb ext ".png" then "image/png"
    else if String.eqb ext ".webp" then "image/webp"
    else if String.eqb ext ".gif" then "image/gif"
    else "image/jpeg" in
  response <- outside (fun n => vision pf n mimeType imageBuffer) ;;
  match response with
  | Resolved choices =>
      ret match choices with
          | Some text :: _ => text
          | _ => ""
          end
  | Rejected _ =>
      raise (Error "Failed to extract text from image using OpenRouter")
  end.

(** [extractMedicinesFromImage]: the text of the image, then the bill in
    the text. *)
Definition extractMedicinesFromImage (pf : Platform) (imagePath : string)
  : St World ParsedBillData :=
  text <- extractTextFromImage pf imagePath ;;
  data <- parseBillText pf text ;;
  ret data.

(* ================================================================== *)
(** ** [importBill]                                                     *)
(* ================================================================== *)

(** [req.file] *)
Record UploadedFile : Type := mkFile {
  path : string;
  mimetype : string
}.

(** The [invoiceData] object; [{}] has every field [undefined]. *)
Record InvoiceData : Type := mkInvoice {
  inv_invoiceNumber : jsval;
  inv_invoiceDate : jsval;
  inv_supplierName : jsval;
  inv_totalAmount : jsval
}.

Definition empty_invoice : InvoiceData :=
  mkInvoice JUndefined JUndefined JUndefined JUndefined.

(** [{ ...item, original_name, medicine_name }] *)
Record NormalizedItem : Type := mkNormalized {
  extracted : Extracted.t;
  original_name : string;
  normalized_name : string
}.

(** One turn of the loop over the page images, after the page has been
    read and parsed. *)
Definition accumulate (acc : list Extracted.t * InvoiceData)
    (parsed : ParsedBillData) : list Extracted.t * InvoiceData :=
  let (allItems, invoiceData) := acc in
  (allItems ++ items parsed,
   if negb (truthy (inv_invoiceNumber invoiceData))
      && truthy (invoiceNumber parsed)
   then mkInvoice (invoiceNumber parsed) (invoiceDate parsed)
          (supplierName parsed) (totalAmount parsed)
   else invoiceData).

(** The loop over [tempImages].  The deletion of a page image at the
    end of a turn sits in a [try] with an empty [catch]: it changes
    nothing the answer is computed from, and is left out. *)
Fixpoint for_images (pf : Platform) (tempImages : list string)
    (acc : list Extracted.t * InvoiceData)
  : St World (list Extracted.t * InvoiceData) :=
  match tempImages with
  | [] => ret acc
  | imgPath :: rest =>
      text <- extractTextFromImage pf imgPath ;;
      parsed <- parseBillText pf text ;;
      for_images pf rest (accumulate acc parsed)
  end.

Inductive ImportReply : Type :=
| Imported (data : list NormalizedItem) (invoice : InvoiceData)
| NoFile
| ImportFailed (e : exn).

(** The [finally] block on the way to the [catch]: the upload is
    deleted when it exists, and a throw of the deletion takes the place
    of the error on its way. *)
Definition cleanup (pf : Platform) (f : UploadedFile) (e : exn)
  : World -> exn * World :=
  fun w =>
    if existsSync pf w (path f) then
      match unlinkSync pf (S w) (path f) with
      | Ok _ => (e, S (S w))
      | Throw e' => (e', S (S w))
      end
    else (e, S w).

(** [importBill], with the answer it sends and the count of outside
    calls made when it sends it.  The answer with the data is sent at
    the end of the inner [try], before the [finally] block runs; the
    answer to a throw is sent by the [catch], after it. *)
Definition importBill (pf : Platform) (file : option UploadedFile)
  : World -> ImportReply * World :=
  fun w =>
    match file with
    | None => (NoFile, w)
    | Some f =>
        let run : St World (list Extracted.t * InvoiceData) :=
          tempImages <-
            (if String.eqb (mimetype f) "application/pdf"
             then (fun n => (convertPdfToImages pf n (path f), S n))
             else if String.prefix "image/" (mimetype f)
                  then ret [path f]
                  else raise (Error "Unsupported file type")) ;;
          for_images pf tempImages ([], empty_invoice) in
        match run w with
        | (Ok (allItems, invoiceData), w') =>
            (Imported
               (map (fun item =>
                       mkNormalized item (Extracted.medicine_name item)
                         (normalizeMedicineName pf
                            (Extracted.medicine_name item)))
                    allItems)
               invoiceData, w')
        | (Throw e, w') =>
            let (e', w'') := cleanup pf f e w' in (ImportFailed e', w'')
        end
    end.

(* ================================================================== *)
(** ** The vocabulary of the properties                                 *)
(* ================================================================== *)

(** The exact batch match of an item in a table. *)
Definition exact_match (sid : string) (item : Item.t) (rs : list Product)
  : option Product :=
  exactBatchMatch_of (Item.batch_number item)
    (family sid (Item.medicine_name item) rs).

(** The first row with a given id. *)
Definition row_by_id (i : nat) (rs : list Product) : option Product :=
  find (fun r => Nat.eqb (id r) i) rs.

(** The string a value contributes to a nullable string column through
    [v || undefined]: itself when it is a non-empty string. *)
Definition text_of (v : jsval) : option string :=
  match v with
  | JStr s => if String.eqb s "" then None else Some s
  | _ => None
  end.

(** A value a string-taking use accepts: a string, or anything falsy
    (the source guards each such use by truthiness). *)
Definition string_or_falsy (v : jsval) : bool :=
  match v with
  | JStr _ => true
  | _ => negb (truthy v)
  end.

(** An item whose [batch_number], [expiry_date] and [supplier] are
    strings when they are present at all, and whose [mrp], [rate] and
    [quantity] convert to a primitive. *)
Definition well_typed (item : Item.t) : bool :=
  string_or_falsy (Item.batch_number item)
  && string_or_falsy (Item.expiry_date item)
  && string_or_falsy (Item.supplier item)
  && negb (no_primitive (Item.mrp item))
  && negb (no_primitive (Item.rate item))
  && negb (no_primitive (Item.quantity item)).

(** The year a two-digit year stands for. *)
Definition century (yy : Z) : Z := if yy <? 50 then 2000 + yy else 1900 + yy.

(** The year a four-digit year stands for in the [Date] constructor. *)
Definition full_year (y : Z) : Z := if y <=? 99 then 1900 + y else y.

(** The first day of calendar month [m] (1-12) of year [y], from the
    instant it begins on the host. *)
Definition first_day_of (h : Host) (y m : Z) : JsDate :=
  mkDate y (m - 1) 1 (day_start h y (m - 1)).

(** The first day of the month that lies [m - 1] months after January of
    year [y], for any [m]: month [m] of [y] when [m] is 1 to 12,
    December of the year before for [m = 0], January of the year after
    for [m = 13], and so on, twelve months to a year. *)
Definition first_day_from (h : Host) (y m : Z) : JsDate :=
  first_day_of h (y + (m - 1) / 12) ((m - 1) mod 12 + 1).

(** A string of one or two digits, [/] or [-], and two digits. *)
Definition short_form (month : list ascii) (sep y1 y2 : ascii) : Prop :=
  (List.length month = 1 \/ List.length month = 2)%nat /\
  forallb is_digit month = true /\
  is_slash_or_dash sep = true /\
  is_digit y1 = true /\ is_digit y2 = true.

(** A string of four digits, [-], and one or two digits. *)
Definition iso_form (year month : list ascii) : Prop :=
  List.length year = 4%nat /\
  forallb is_digit year = true /\
  (List.length month = 1 \/ List.length month = 2)%nat /\
  forallb is_digit month = true.

(** The value a text field of an item is converted from,
    [canonical || alternate || '']. *)
Definition chosen (canonical alternate : jsval) : jsval :=
  or (or canonical alternate) (JStr "").

(** The six values the callback converts for the item [props]. *)
Definition converted (props : list (string * jsval)) : list jsval :=
  [chosen (assoc "medicine_name" props) (assoc "productName" props);
   assoc "quantity" props;
   chosen (assoc "batch_number" props) (assoc "batchNumber" props);
   chosen (assoc "expiry_date" props) (assoc "expiryDate" props);
   assoc "mrp" props;
   assoc "rate" props].

(** How a text field of an item comes out of its two spellings. *)
Definition text_from (pf : Platform) (canonical alternate : jsval)
    (out : string) : Prop :=
  (truthy canonical = true -> ToString pf canonical = Some out) /\
  (truthy canonical = false -> truthy alternate = true ->
   ToString pf alternate = Some out) /\
  (truthy canonical = false -> truthy alternate = false -> out = "").

(** How a numeric field of an item comes out of the decoded value: never
    [NaN]; the value as a number when that is not [NaN] or zero, negative
    or not; else 0. *)
Definition number_from (v : jsval) (out : number) : Prop :=
  out <> NaN /\
  exists n,
    Number v = Some n /\
    (num_truthy n = true -> out = n) /\
    (num_truthy n = false -> out = zero).

(** What the update path makes of a stored quantity [acc] and an item's
    quantity [q]. *)
Definition restock (acc q : number) : number :=
  num_add (if num_truthy acc then acc else zero) q.

(** An item of the batch [(nm, b)]: that name up to case, that batch
    number. *)
Definition of_batch (nm b : string) (it : Item.t) : Prop :=
  toLowerCase (Item.medicine_name it) = toLowerCase nm /\
  Item.batch_number it = JStr b.

(** What the pages of a document parse to, page by page: the run of
    [extractTextFromImage] then [parseBillText] over the images. *)
Fixpoint page_results (pf : Platform) (imgs : list string)
  : St World (list ParsedBillData) :=
  match imgs with
  | [] => ret []
  | imgPath :: rest =>
      text <- extractTextFromImage pf imgPath ;;
      parsed <- parseBillText pf text ;;
      more <- page_results pf rest ;;
      ret (parsed :: more)
  end.

(** The invoice fields of one page. *)
Definition invoice_of (p : ParsedBillData) : InvoiceData :=
  mkInvoice (invoiceNumber p) (invoiceDate p) (supplierName p)
    (totalAmount p).

(** A page that supplies no invoice number. *)
Definition supplies_none (p : ParsedBillData) : bool :=
  negb (truthy (invoiceNumber p)).

(** What of a row says which batch it is and how it is shelved: the
    columns no import writes after the row exists. *)
Definition identity (r : Product)
  : nat * string * string * string * string * string * number
    * option string :=
  (id r, storeId r, name r, sku r, category r, unit r, reorderLevel r,
   description r).

Definition is_string (v : jsval) : bool :=
  match v with JStr _ => true | _ => false end.

(** A request the handler refuses: no store id, an empty one, or an
    [items] that is not an array. *)
Definition invalid (req : Request) : Prop :=
  req_storeId req = None \/ req_storeId req = Some "" \/
  body_items req = None.

(** What the earlier handler writes on its update path. *)
Definition legacy_update_fields (quantityValue : number) (p : Product)
  : UpdateData :=
  mkUpdate (Some (num_add (quantity p) quantityValue))
    None None None None None None.

Definition backtick : ascii := "`"%char.

(** A text without a backtick. *)
Definition no_backtick (l : list ascii) : bool :=
  forallb (fun c => negb (Ascii.eqb c backtick)) l.

(** A text that neither starts nor ends with white space. *)
Definition trimmed (l : list ascii) : bool :=
  match l with
  | [] => true
  | c :: _ => negb (is_space c) && negb (is_space (last l c))
  end.

(** A text without the character [c]. *)
Definition without (c : ascii) (l : list ascii) : bool :=
  forallb (fun a => negb (Ascii.eqb a c)) l.

(** A value [.map] cannot be called on though [||] lets it through. *)
Definition truthy_non_array (v : jsval) : bool :=
  truthy v && match v with JArr _ => false | _ => true end.

(** The error [extractTextFromImage] throws for a rejected model call. *)
Definition extraction_failed : exn :=
  Error "Failed to extract text from image using OpenRouter".

(** The first step of [importBill]: the images of an upload and the
    state they are read in. *)
Definition images_of (pf : Platform) (f : UploadedFile) (w : World)
  : result (list string) * World :=
  if String.eqb (mimetype f) "application/pdf"
  then (convertPdfToImages pf w (path f), S w)
  else if String.prefix "image/" (mimetype f) then (Ok [path f], w)
       else (Throw (Error "Unsupported file type"), w).

(* ================================================================== *)
(** ** Sample hosts and data                                            *)
(* ================================================================== *)

(** A reader of JSON texts for the sample platform: the grammar of
    RFC 8259 over code units below 256 (a [\u] escape of a larger code
    unit is refused).  A repeated key reads as its last value. *)
Module Json.

Definition is_ws (c : ascii) : bool :=
  (code c =? 32)%nat || (code c =? 9)%nat || (code c =? 10)%nat
  || (code c =? 13)%nat.

(** The double quote. *)
Definition quote : ascii := ascii_of_nat 34.

Fixpoint skip_ws (l : list ascii) : list ascii :=
  match l with
  | c :: r => if is_ws c then skip_ws r else l
  | [] => []
  end.

Definition escape (c : ascii) : option ascii :=
  if Ascii.eqb c quote then Some quote
  else if Ascii.eqb c "\"%char then Some "\"%char
  else if Ascii.eqb c "/"%char then Some "/"%char
  else if Ascii.eqb c "b"%char then Some (ascii_of_nat 8)
  else if Ascii.eqb c "f"%char then Some (ascii_of_nat 12)
  else if Ascii.eqb c "n"%char then Some (ascii_of_nat 10)
  else if Ascii.eqb c "r"%char then Some (ascii_of_nat 13)
  else if Ascii.eqb c "t"%char then Some (ascii_of_nat 9)
  else None.

(** After the opening quote: the string and what follows its closing
    quote. *)
Fixpoint read_string (l acc : list ascii) : option (string * list ascii) :=
  match l with
  | [] => None
  | c :: r =>
      if Ascii.eqb c quote
      then Some (string_of_list_ascii (rev acc), r)
      else if Ascii.eqb c "\"%char then
        match r with
        | e :: r' =>
            match escape e with
            | Some ch => read_string r' (ch :: acc)
            | None =>
                if Ascii.eqb e "u"%char then
                  match r' with
                  | h1 :: h2 :: h3 :: h4 :: r'' =>
                      match radix_value 16 [h1; h2; h3; h4] with
                      | Some v =>
                          if v <? 256
                          then read_string r''
                                 (ascii_of_nat (Z.to_nat v) :: acc)
                          else None
                      | None => None
                      end
                  | _ => None
                  end
                else None
            end
        | [] => None
        end
      else if (code c <? 32)%nat then None
      else read_string r (c :: acc)
  end.

(** [-? int frac? exp?] and what follows it. *)
Definition read_number (l : list ascii) : option (number * list ascii) :=
  let '(neg, l1) :=
    match l with
    | c :: r => if Ascii.eqb c "-"%char then (true, r) else (false, l)
    | [] => (false, l)
    end in
  let (ip, r1) := span_digits l1 in
  let int_ok :=
    match ip with
    | [] => false
    | [_] => true
    | d :: _ => negb (Ascii.eqb d "0"%char)
    end in
  let '(fp, frac_ok, r2) :=
    match r1 with
    | c :: r =>
        if Ascii.eqb c "."%char
        then let (fp, r2) := span_digits r in
             (fp, negb (Nat.eqb (List.length fp) 0), r2)
        else ([], true, r1)
    | [] => ([], true, r1)
    end in
  let '(ex, exp_ok, r3) :=
    match r2 with
    | c :: r =>
        if Ascii.eqb c "e"%char || Ascii.eqb c "E"%char then
          let '(eneg, r') :=
            match r with
            | s :: r' =>
                if Ascii.eqb s "-"%char then (true, r')
                else if Ascii.eqb s "+"%char then (false, r')
                else (false, r)
            | [] => (false, r)
            end in
          let (ds, r3) := span_digits r' in
          ((if eneg then - digits_value ds else digits_value ds),
           negb (Nat.eqb (List.length ds) 0), r3)
        else (0, true, r2)
    | [] => (0, true, r2)
    end in
  if int_ok && frac_ok && exp_ok then
    let q := scale10 (digits_value (ip ++ fp))
                     (ex - Z.of_nat (List.length fp)) in
    Some (if neg then num_neg (round_double q) else round_double q, r3)
  else None.

Fixpoint read_value (fuel : nat) (l : list ascii)
  : option (jsval * list ascii) :=
  match fuel with
  | O => None
  | S fuel' =>
      match skip_ws l with
      | [] => None
      | c :: r =>
          if Ascii.eqb c "{"%char then
            match skip_ws r with
            | d :: r' =>
                if Ascii.eqb d "}"%char then Some (JObj [], r')
                else read_members fuel' r []
            | [] => None
            end
          else if Ascii.eqb c "["%char then
            match skip_ws r with
            | d :: r' =>
                if Ascii.eqb d "]"%char then Some (JArr [], r')
                else read_elements fuel' r []
            | [] => None
            end
          else if Ascii.eqb c quote then
            match read_string r [] with
            | Some (s, r') => Some (JStr s, r')
            | None => None
            end
          else if starts_with (chars "true") (c :: r)
          then Some (JBool true, skipn 4 (c :: r))
          else if starts_with (chars "false") (c :: r)
          then Some (JBool false, skipn 5 (c :: r))
          else if starts_with (chars "null") (c :: r)
          then Some (JNull, skipn 4 (c :: r))
          else
            match read_number (c :: r) with
            | Some (n, r') => Some (JNum n, r')
            | None => None
            end
      end
  end
with read_elements (fuel : nat) (l : list ascii) (acc : list jsval)
  : option (jsval * list ascii) :=
  match fuel with
  | O => None
  | S fuel' =>
      match read_value fuel' l with
      | Some (v, r) =>
          match skip_ws r with
          | c :: r' =>
              if Ascii.eqb c ","%char then read_elements fuel' r' (v :: acc)
              else if Ascii.eqb c "]"%char
              then Some (JArr (rev (v :: acc)), r')
              else None
          | [] => None
          end
      | None => None
      end
  end
with read_members (fuel : nat) (l : list ascii) (acc : list (string * jsval))
  : option (jsval * list ascii) :=
  match fuel with
  | O => None
  | S fuel' =>
      match skip_ws l with
      | q :: r =>
          if Ascii.eqb q quote then
            match read_string r [] with
            | Some (k, r1) =>
                match skip_ws r1 with
                | colon :: r2 =>
                    if Ascii.eqb colon ":"%char then
                      match read_value fuel' r2 with
                      | Some (v, r3) =>
                          match skip_ws r3 with
                          | c :: r4 =>
                              if Ascii.eqb c ","%char
                              then read_members fuel' r4 ((k, v) :: acc)
                              else if Ascii.eqb c "}"%char
                              then Some (JObj ((k, v) :: acc), r4)
                              else None
                          | [] => None
                          end
                      | None => None
                      end
                    else None
                | [] => None
                end
            | None => None
            end
          else None
      | [] => None
      end
  end.

Definition parse (s : string) : option jsval :=
  let l := chars s in
  match read_value (2 * List.length l + 2) l with
  | Some (v, r) => match skip_ws r with [] => Some v | _ => None end
  | None => None
  end.

End Json.

(** Upper case for the sample host: the letters a-z, which are all the
    letters the sample names hold. *)
Definition ascii_upper (s : string) : string :=
  map_string
    (fun c => if in_range 97 122 c then ascii_of_nat (code c - 32) else c) s.

(** A host whose persistence never rejects; its engine reads ["05/26"]
    as 26 May 2001 and no other free-form date, and its days begin at
    midnight. *)
Definition steady_host : Host :=
  mkHost (fun _ => false)
    (fun v => match v with
              | JStr s => if String.eqb s "05/26"
                          then Some (mkDate 2001 4 26 0) else None
              | _ => None
              end)
    (fun _ => 1700000000000)
    (fun _ => (1 # 2)%Q)
    ascii_upper
    (fun _ _ => 0).

(** The same host, except that its [k]-th persistence call rejects. *)
Definition host_failing_at (k : nat) : Host :=
  mkHost (fun n => Nat.eqb n k) (Date_new steady_host)
    (Date_now steady_host) (Math_random steady_host)
    (toUpperCase steady_host) (day_start steady_host).

Definition empty_db : Db := mkDb [] 0 0.

Definition request (its : list Item.t) : Request :=
  mkRequest (Some "store-1") (Some its).

(** A line of a bill: [qty] strips of Dolo 650 at MRP [price]. *)
Definition dolo (batch : jsval) (qty price : Z) : Item.t :=
  Item.make "Dolo 650" batch (JNum (of_Z qty)) (JNum (of_Z price))
    (JNum (of_Z 20)) (JStr "05/26") (JStr "ACME").

(** Number printing for the sample platform: integers as the engine
    prints them; the samples print no other number. *)
Definition print_integer (n : number) : string :=
  match n with
  | NaN => "NaN"
  | Infinity neg => if neg then "-Infinity" else "Infinity"
  | Fin q => if Pos.eqb (Qden q) 1 then string_of_Z (Qnum q) else ""
  end.

(** A platform that converts a PDF to [pages], reads every file, gets
    the text ["page text"] from the vision model, whose text model
    answers the call numbered [n] with [answers n], and which finds and
    deletes every file. *)
Definition scripted_platform (pages : list string)
    (answers : nat -> completion) : Platform :=
  mkPlatform Json.parse print_integer
    (fun _ _ => Ok "bytes")
    (fun _ _ _ => Resolved [Some "page text"])
    (fun n _ => answers n)
    (fun _ _ => Ok pages)
    (fun nm => nm)
    (fun _ _ => true)
    (fun _ _ => Ok tt).

(** A JSON text written with ['] for the double quote. *)
Definition json_text (s : string) : string :=
  map_string (fun c => if Ascii.eqb c "'"%char then Json.quote else c) s.

(** A two-page PDF: the first page parses to one item and no invoice
    number, the second to one item and an invoice. *)
Definition two_pages : Platform :=
  scripted_platform ["p1.png"; "p2.png"]
    (fun n =>
       if Nat.eqb n 3 then
         Resolved [Some (json_text
           "{'supplierName':'Early','items':[{'medicine_name':'A','quantity':1}]}")]
       else
         Resolved [Some (json_text
           "{'invoiceNumber':'INV-7','supplierName':'Late','items':[{'medicine_name':'B','quantity':2}]}")]).

(** The store after one import of 5 strips of batch B-1 at MRP 30. *)
Definition stocked_db : Db :=
  Eval vm_compute in
    snd (confirmImport steady_host (request [dolo (JStr "B-1") 5 30])
           empty_db).

(** A line of a bill whose expiry date came as the number 526. *)
Definition dolo_numeric_expiry : Item.t :=
  Item.make "Dolo 650" (JStr "B-1") (JNum (of_Z 5)) (JNum (of_Z 30))
    (JNum (of_Z 20)) (JNum (of_Z 526)) (JStr "ACME").

(** A platform that converts a PDF to two pages and whose vision model
    rejects the outside call numbered 5, the reading of the second
    page; the upload is there, and deleting it answers [unlink]. *)
Definition second_page_unreadable (unlink : result Datatypes.unit)
  : Platform :=
  mkPlatform Json.parse print_integer
    (fun _ _ => Ok "bytes")
    (fun n _ _ => if Nat.eqb n 5 then Rejected (Error "timeout")
                  else Resolved [Some "page text"])
    (fun _ _ =>
       Resolved [Some (json_text
         "{'items':[{'medicine_name':'A','quantity':1}]}")])
    (fun _ _ => Ok ["p1.png"; "p2.png"])
    (fun nm => nm)
    (fun _ _ => true)
    (fun _ _ => unlink).

(** A response whose second item has a quantity that no conversion
    accepts. *)
Definition unconvertible_response : string :=
  json_text
    "{'invoiceNumber':'INV-7','items':[{'medicine_name':'A'},{'quantity':{'toString':1}}]}".

(** A response whose second item is [null]. *)
Definition null_item_response : string :=
  json_text
    "{'invoiceNumber':'INV-7','items':[{'medicine_name':'A'},null]}".

(* ================================================================== *)
(** * Properties                                                        *)
(* ================================================================== *)

(** ** The reconciler, one item at a time *)

Ltac split_match H :=
  match type of H with
  | context [match ?x with _ => _ end] =>
      let E := fresh "E" in destruct x eqn:E; try discriminate H
  | context [if ?x then _ else _] =>
      let E := fresh "E" in destruct x eqn:E; try discriminate H
  end.

Lemma generateSku_state h nm batch db r db' :
  generateSku h nm batch db = (r, db') -> db' = db.
Proof.
  unfold generateSku. intros H.
  repeat split_match H; inversion H; reflexivity.
Qed.

Section OneItem.

Variable h : Host.
Variable sid : string.
Variable item : Item.t.

(** The steps of the loop body before the lookup: the three numbers,
    the expiry date and the logged line. *)
Ltac upfront H :=
  unfold reconcile_item, bind, lift, findMany, update, create, call, ret,
    or_TypeError, template in H;
  destruct (Number_or_0 (Item.mrp item)) as [mv|] eqn:Emv;
    [|try discriminate H];
  [destruct (Number_or_0 (Item.rate item)) as [cv|] eqn:Ecv;
     [|try discriminate H];
   [destruct (Number_or_0 (Item.quantity item)) as [qv|] eqn:Eqv;
      [|try discriminate H];
    [destruct (expiry_of h item) as [ev|] eqn:Eev; [|try discriminate H];
     [destruct (no_primitive (Item.batch_number item)) eqn:Enp;
        [try discriminate H|]
     |..]
    |..]
   |..]
  |..].

(** What a run of the loop body that ends in [Updated] did. *)
Lemma reconcile_item_updated db db' :
  reconcile_item h sid item db = (Ok Updated, db') ->
  exists p ev bn mf mv cv qv,
    Number_or_0 (Item.mrp item) = Some mv /\
    Number_or_0 (Item.rate item) = Some cv /\
    Number_or_0 (Item.quantity item) = Some qv /\
    expiry_of h item = Ok ev /\
    exact_match sid item (rows db) = Some p /\
    rows db' =
      map (fun r => if Nat.eqb (id r) (id p)
                    then apply_update (update_fields mv cv qv p ev bn mf) r
                    else r) (rows db) /\
    nextId db' = nextId db /\
    calls db' = S (S (calls db)) /\
    to_column (or (or (of_column (batchNumber p)) (Item.batch_number item))
                  JUndefined) = Ok bn /\
    to_column (or (or (of_column (manufacturer p)) (Item.supplier item))
                  JUndefined) = Ok mf.
Proof.
  unfold exact_match. intros H. upfront H.
  destruct (fault h (calls db)) eqn:F1; [discriminate H|].
  cbn [rows nextId calls] in H.
  destruct (exactBatchMatch_of _ _) as [p|] eqn:Em.
  - destruct (to_column (or (or (of_column (batchNumber p)) _) _))
      as [bn|] eqn:Ebn; [|discriminate H].
    destruct (to_column (or (or (of_column (manufacturer p)) _) _))
      as [mf|] eqn:Emf; [|discriminate H].
    cbn [rows nextId calls] in H.
    destruct (fault h (S (calls db))) eqn:F2; [discriminate H|].
    inversion H; subst. exists p, ev, bn, mf, mv, cv, qv. cbn. auto 12.
  - destruct (generateSku _ _ _ _) as [[sk|] db1] eqn:Esk; [|discriminate H].
    apply generateSku_state in Esk; subst db1.
    repeat split_match H.
Qed.

(** What a run of the loop body that ends in [Created] did. *)
Lemma reconcile_item_created db db' :
  reconcile_item h sid item db = (Ok Created, db') ->
  exists ev sk bn mf mv cv qv,
    Number_or_0 (Item.mrp item) = Some mv /\
    Number_or_0 (Item.rate item) = Some cv /\
    Number_or_0 (Item.quantity item) = Some qv /\
    expiry_of h item = Ok ev /\
    exact_match sid item (rows db) = None /\
    to_column (or (Item.batch_number item) JUndefined) = Ok bn /\
    to_column (or (Item.supplier item) JUndefined) = Ok mf /\
    rows db' =
      rows db ++
      [new_row (nextId db)
         (create_fields sid item mv cv qv
            (hd_error (family sid (Item.medicine_name item) (rows db)))
            sk ev bn mf)] /\
    nextId db' = S (nextId db) /\
    calls db' = S (S (calls db)).
Proof.
  unfold exact_match. intros H. upfront H.
  destruct (fault h (calls db)) eqn:F1; [discriminate H|].
  cbn [rows nextId calls] in H.
  destruct (exactBatchMatch_of _ _) as [p|] eqn:Em.
  - repeat split_match H.
  - destruct (generateSku _ _ _ _) as [[sk|] db1] eqn:Esk; [|discriminate H].
    apply generateSku_state in Esk; subst db1.
    destruct (to_column (or (Item.batch_number item) _)) as [bn|] eqn:Ebn;
      [|discriminate H].
    destruct (to_column (or (Item.supplier item) _)) as [mf|] eqn:Emf;
      [|discriminate H].
    cbn [rows nextId calls] in H.
    destruct (fault h (S (calls db))) eqn:F2; [discriminate H|].
    inversion H; subst. exists ev, sk, bn, mf, mv, cv, qv. cbn. auto 12.
Qed.

(** A run of the loop body that throws has written nothing. *)
Lemma reconcile_item_throw db db' e :
  reconcile_item h sid item db = (Throw e, db') ->
  rows db' = rows db /\ nextId db' = nextId db.
Proof.
  intros H.
  unfold reconcile_item, bind, lift, findMany, update, create, call, ret,
    or_TypeError, template in H.
  destruct (Number_or_0 (Item.mrp item)) as [mv|];
    [|inversion H; subst; auto].
  destruct (Number_or_0 (Item.rate item)) as [cv|];
    [|inversion H; subst; auto].
  destruct (Number_or_0 (Item.quantity item)) as [qv|];
    [|inversion H; subst; auto].
  destruct (expiry_of h item) as [ev|] eqn:Eev;
    [|inversion H; subst; auto].
  destruct (no_primitive (Item.batch_number item));
    [inversion H; subst; auto|].
  destruct (fault h (calls db)) eqn:F1; [inversion H; subst; auto|].
  cbn [rows nextId calls] in H.
  destruct (exactBatchMatch_of _ _) as [p|] eqn:Em.
  - destruct (to_column (or (or (of_column (batchNumber p)) _) _))
      as [bn|] eqn:Ebn; [|inversion H; subst; auto].
    destruct (to_column (or (or (of_column (manufacturer p)) _) _))
      as [mf|] eqn:Emf; [|inversion H; subst; auto].
    cbn [rows nextId calls] in H.
    destruct (fault h (S (calls db))) eqn:F2; inversion H; subst; auto.
  - destruct (generateSku _ _ _ _) as [[sk|] db1] eqn:Esk;
      apply generateSku_state in Esk; subst db1;
      [|inversion H; subst; auto].
    destruct (to_column (or (Item.batch_number item) _)) as [bn|] eqn:Ebn;
      [|inversion H; subst; auto].
    destruct (to_column (or (Item.supplier item) _)) as [mf|] eqn:Emf;
      [|inversion H; subst; auto].
    cbn [rows nextId calls] in H.
    destruct (fault h (S (calls db))) eqn:F2; inversion H; subst; auto.
Qed.

End OneItem.

(** *** Numbers *)

Lemma nonzero_nonnegative_is_positive m :
  num_truthy m = true -> num_lt0 m = false -> num_gt0 m = true.
Proof.
  destruct m as [|neg|q]; cbn; try discriminate.
  - intros _ ->. reflexivity.
  - intros Hnz Hnn.
    apply negb_true_iff in Hnz. apply negb_false_iff in Hnn.
    apply negb_true_iff.
    apply Qle_bool_iff in Hnn.
    destruct (Qle_bool q 0) eqn:Hle; [|reflexivity].
    apply Qle_bool_iff in Hle.
    assert (Heq : (q == 0)%Q) by (apply Qle_antisym; assumption).
    apply Qeq_bool_iff in Heq. congruence.
Qed.

(** [Number(v) || 0] is never [NaN], and is [0] when [Number(v)] is. *)
Lemma Number_or_0_not_NaN v n : Number_or_0 v = Some n -> n <> NaN.
Proof.
  unfold Number_or_0. destruct (Number v) as [[|neg|q]|]; cbn;
    intros H; inversion H; try discriminate.
  destruct (negb (Qeq_bool q 0)); discriminate.
Qed.

Lemma Number_or_0_default v :
  Number v = Some NaN -> Number_or_0 v = Some zero.
Proof. unfold Number_or_0. intros ->. reflexivity. Qed.

Lemma Number_or_0_keeps v n :
  Number v = Some n -> num_truthy n = true -> Number_or_0 v = Some n.
Proof. unfold Number_or_0. intros -> ->. reflexivity. Qed.

(** The two conversions return on every value that has a primitive, and
    on no other. *)
Lemma Number_returns v :
  no_primitive v = false -> Number v = Some (Number_value v).
Proof. unfold Number. intros ->. reflexivity. Qed.

Lemma Number_or_0_returns v :
  no_primitive v = false -> exists n, Number_or_0 v = Some n.
Proof. unfold Number_or_0, Number. intros ->. eauto. Qed.

Lemma Number_or_0_throws v : no_primitive v = true -> Number_or_0 v = None.
Proof. unfold Number_or_0, Number. intros ->. reflexivity. Qed.

Lemma Number_or_0_some v n :
  Number_or_0 v = Some n -> no_primitive v = false.
Proof.
  unfold Number_or_0, Number. destruct (no_primitive v); [discriminate|].
  reflexivity.
Qed.

Lemma Qred_integer z : Qred (z # 1) = z # 1.
Proof.
  unfold Qred.
  pose proof (Z.ggcd_gcd z 1) as Hg.
  pose proof (Z.ggcd_correct_divisors z 1) as Hd.
  destruct (Z.ggcd z 1) as [g [aa bb]]. cbn [fst snd] in *.
  rewrite Z.gcd_1_r in Hg. subst g. destruct Hd as [Ha Hb].
  rewrite Z.mul_1_l in Ha, Hb. subst aa bb. reflexivity.
Qed.

(** A rational equal to an integer up to [2^53] in magnitude is a double
    as it is. *)
Lemma round_double_integer q z :
  (q == z # 1)%Q -> Z.abs z <= 2 ^ 53 -> round_double q = Fin (z # 1).
Proof.
  intros Hq Hz. unfold round_double.
  rewrite (Qred_complete _ _ Hq), Qred_integer.
  cbn [Qnum Qden]. rewrite Z.eqb_refl.
  replace (Z.abs z <=? 2 ^ 53) with true
    by (symmetry; apply Z.leb_le; exact Hz).
  reflexivity.
Qed.

Lemma of_Z_integer z : Z.abs z <= 2 ^ 53 -> of_Z z = Fin (z # 1).
Proof. intros Hz. apply round_double_integer; [reflexivity|exact Hz]. Qed.

Lemma num_add_integers a b :
  Z.abs a <= 2 ^ 53 -> Z.abs b <= 2 ^ 53 -> Z.abs (a + b) <= 2 ^ 53 ->
  num_add (of_Z a) (of_Z b) = of_Z (a + b).
Proof.
  intros Ha Hb Hab.
  rewrite (of_Z_integer a Ha), (of_Z_integer b Hb), (of_Z_integer _ Hab).
  cbn [num_add]. apply round_double_integer; [|exact Hab].
  unfold Qeq, Qplus. cbn [Qnum Qden]. lia.
Qed.

Lemma num_truthy_of_Z z :
  Z.abs z <= 2 ^ 53 -> num_truthy (of_Z z) = negb (z =? 0).
Proof.
  intros Hz. rewrite (of_Z_integer z Hz). cbn [num_truthy]. f_equal.
  unfold Qeq_bool. cbn [Qnum Qden]. rewrite Z.mul_1_r. reflexivity.
Qed.

(** *** Rows *)

Lemma row_by_id_map i f rs :
  (forall r, id (f r) = id r) ->
  row_by_id i (map f rs) = option_map f (row_by_id i rs).
Proof.
  intros Hid. unfold row_by_id.
  induction rs as [|r rs IH]; cbn; [reflexivity|].
  rewrite Hid. destruct (Nat.eqb (id r) i); [reflexivity|exact IH].
Qed.

Lemma row_by_id_In p rs :
  In p rs -> exists r, row_by_id (id p) rs = Some r /\ id r = id p.
Proof.
  intros Hin. unfold row_by_id.
  destruct (find (fun r => Nat.eqb (id r) (id p)) rs) as [r|] eqn:E.
  - exists r. split; [reflexivity|].
    apply find_some in E. apply Nat.eqb_eq. tauto.
  - exfalso. apply (find_none _ _ E) in Hin.
    rewrite Nat.eqb_refl in Hin. discriminate.
Qed.

Lemma exact_match_family sid item rs p :
  exact_match sid item rs = Some p ->
  In p rs /\ storeId p = sid /\
  equals_insensitive (name p) (Item.medicine_name item) = true /\
  batch_equals (batchNumber p) (Item.batch_number item) = true.
Proof.
  unfold exact_match, exactBatchMatch_of, family. intros H.
  apply find_some in H. destruct H as [Hin Hb].
  apply filter_In in Hin. destruct Hin as [Hin Hf].
  apply andb_true_iff in Hf. destruct Hf as [Hs Hn].
  apply String.eqb_eq in Hs. auto.
Qed.

(** No exact match: no row of the store has the name, up to case, and
    a batch number strictly equal to the item's. *)
Lemma exact_match_none sid item rs :
  exact_match sid item rs = None <->
  (forall p, In p rs -> storeId p = sid ->
             equals_insensitive (name p) (Item.medicine_name item) = true ->
             batch_equals (batchNumber p) (Item.batch_number item) = false).
Proof.
  unfold exact_match, exactBatchMatch_of, family. split.
  - intros H p Hin Hs Hn. apply (find_none _ _ H).
    apply filter_In. split; [exact Hin|].
    rewrite Hn, (proj2 (String.eqb_eq _ _) Hs). reflexivity.
  - intros H.
    destruct (find _ (filter _ rs)) as [p|] eqn:E; [|reflexivity].
    apply find_some in E. destruct E as [Hin Hb].
    apply filter_In in Hin. destruct Hin as [Hin Hf].
    apply andb_true_iff in Hf. destruct Hf as [Hs Hn].
    apply String.eqb_eq in Hs. rewrite (H p Hin Hs Hn) in Hb. discriminate.
Qed.

Lemma hd_error_family sid nm rs b :
  hd_error (family sid nm rs) = Some b ->
  In b rs /\ storeId b = sid /\ equals_insensitive (name b) nm = true.
Proof.
  intros H.
  assert (Hin : In b (family sid nm rs)).
  { destruct (family sid nm rs); inversion H; subst; left; reflexivity. }
  unfold family in Hin. apply filter_In in Hin. destruct Hin as [Hin Hf].
  apply andb_true_iff in Hf. destruct Hf as [Hs Hn].
  apply String.eqb_eq in Hs. auto.
Qed.

Lemma to_column_or_undefined v c :
  to_column (or v JUndefined) = Ok c -> c = text_of v.
Proof.
  unfold or. destruct v as [| |b|n|s|l|l]; cbn.
  - intros H; inversion H; reflexivity.
  - intros H; inversion H; reflexivity.
  - destruct b; cbn; intros H; inversion H; reflexivity.
  - destruct (num_truthy n); cbn; intros H; inversion H; reflexivity.
  - destruct (String.eqb s ""); cbn; intros H; inversion H; reflexivity.
  - intros H; inversion H.
  - intros H; inversion H.
Qed.

(** *** The update path *)

(** The update path adds the item's quantity to the stored one. *)
Lemma update_path_quantity h sid item db db' :
  reconcile_item h sid item db = (Ok Updated, db') ->
  exists p q qv,
    exact_match sid item (rows db) = Some p /\
    row_by_id (id p) (rows db') = Some q /\
    Number_or_0 (Item.quantity item) = Some qv /\
    quantity q =
      num_add (if num_truthy (quantity p) then quantity p else zero) qv.
Proof.
  intros H. apply reconcile_item_updated in H.
  destruct H as (p & ev & bn & mf & mv & cv & qv & _ & _ & Hqv & _ & Hm
                 & Hrows & _).
  destruct (exact_match_family _ _ _ _ Hm) as (Hin & _).
  destruct (row_by_id_In _ _ Hin) as (r & Hr & Hid).
  exists p, (apply_update (update_fields mv cv qv p ev bn mf) r), qv.
  split; [exact Hm|]. split.
  - rewrite Hrows, row_by_id_map.
    + rewrite Hr. cbn. rewrite (proj2 (Nat.eqb_eq _ _) Hid). reflexivity.
    + intros r0. destruct (Nat.eqb (id r0) (id p)); reflexivity.
  - split; [exact Hqv|reflexivity].
Qed.

(** C3. On the update path the matched batch keeps its stored [mrp] and
    [costPrice] when they are greater than zero and otherwise takes the
    item's [mrp] and [rate]; [sellingPrice] keeps its stored value when
    greater than zero and otherwise takes the item's [mrp].  In
    particular a stored [mrp] that is nonzero (and, as the data model
    has it, not negative) survives an item with any other [mrp]. *)
Theorem update_path_fill_only h sid item db db' :
  reconcile_item h sid item db = (Ok Updated, db') ->
  exists p q,
    exact_match sid item (rows db) = Some p /\
    row_by_id (id p) (rows db') = Some q /\
    (forall m, mrp p = Some m -> num_gt0 m = true -> mrp q = Some m) /\
    (num_gt0 (decimal_or_0 (mrp p)) = false ->
     mrp q = Number_or_0 (Item.mrp item)) /\
    (forall c, costPrice p = Some c -> num_gt0 c = true ->
               costPrice q = Some c) /\
    (num_gt0 (decimal_or_0 (costPrice p)) = false ->
     costPrice q = Number_or_0 (Item.rate item)) /\
    (forall s, sellingPrice p = Some s -> num_gt0 s = true ->
               sellingPrice q = Some s) /\
    (num_gt0 (decimal_or_0 (sellingPrice p)) = false ->
     sellingPrice q = Number_or_0 (Item.mrp item)) /\
    (forall m, mrp p = Some m -> num_truthy m = true ->
               num_lt0 m = false -> mrp q = Some m) /\
    exists mv cv,
      Number_or_0 (Item.mrp item) = Some mv /\
      Number_or_0 (Item.rate item) = Some cv.
Proof.
  intros H. apply reconcile_item_updated in H.
  destruct H as (p & ev & bn & mf & mv & cv & qv & Hmv & Hcv & _ & _ & Hm
                 & Hrows & _).
  destruct (exact_match_family _ _ _ _ Hm) as (Hin & _).
  destruct (row_by_id_In _ _ Hin) as (r & Hr & Hid).
  exists p, (apply_update (update_fields mv cv qv p ev bn mf) r).
  split; [exact Hm|]. split.
  { rewrite Hrows, row_by_id_map.
    - rewrite Hr. cbn. rewrite (proj2 (Nat.eqb_eq _ _) Hid). reflexivity.
    - intros r0. destruct (Nat.eqb (id r0) (id p)); reflexivity. }
  cbn. rewrite Hmv, Hcv.
  repeat split; [| | | | | | |exists mv, cv; split; reflexivity].
  - intros m Hp Hgt. rewrite Hp. cbn. rewrite Hgt. reflexivity.
  - intros Hgt. rewrite Hgt. reflexivity.
  - intros c Hp Hgt. rewrite Hp. cbn. rewrite Hgt. reflexivity.
  - intros Hgt. rewrite Hgt. reflexivity.
  - intros s Hp Hgt. rewrite Hp. cbn. rewrite Hgt. reflexivity.
  - intros Hgt. rewrite Hgt. reflexivity.
  - intros m Hp Hnz Hnn. rewrite Hp. cbn.
    rewrite (nonzero_nonnegative_is_positive _ Hnz Hnn). reflexivity.
Qed.

(** *** The create path *)

(** C4. On the create path the new batch is listed after the existing
    ones and carries the item's quantity, batch number, parsed expiry
    and [mrp], [costPrice] from the item's [rate], [sellingPrice] from
    the item's [mrp], [manufacturer] from the item's [supplier], and
    [category], [unit], [reorderLevel] from a batch of the name family
    when there is one, else ["MEDICINE"], ["pcs"], 10. *)
Theorem create_path_fields h sid item db db' :
  reconcile_item h sid item db = (Ok Created, db') ->
  exists row,
    rows db' = rows db ++ [row] /\
    exact_match sid item (rows db) = None /\
    storeId row = sid /\
    name row = Item.medicine_name item /\
    Number_or_0 (Item.quantity item) = Some (quantity row) /\
    batchNumber row = text_of (Item.batch_number item) /\
    expiry_of h item = Ok (expiryDate row) /\
    mrp row = Number_or_0 (Item.mrp item) /\
    costPrice row = Number_or_0 (Item.rate item) /\
    sellingPrice row = Number_or_0 (Item.mrp item) /\
    manufacturer row = text_of (Item.supplier item) /\
    (family sid (Item.medicine_name item) (rows db) = [] ->
     category row = "MEDICINE" /\ unit row = "pcs" /\
     reorderLevel row = of_Z 10) /\
    (family sid (Item.medicine_name item) (rows db) <> [] ->
     exists b,
       In b (rows db) /\ storeId b = sid /\
       equals_insensitive (name b) (Item.medicine_name item) = true /\
       category row = category b /\ unit row = unit b /\
       reorderLevel row = reorderLevel b) /\
    exists mv cv,
      Number_or_0 (Item.mrp item) = Some mv /\
      Number_or_0 (Item.rate item) = Some cv.
Proof.
  intros H. apply reconcile_item_created in H.
  destruct H as (ev & sk & bn & mf & mv & cv & qv & Hmv & Hcv & Hqv & Hev
                 & Hm & Hbn & Hmf & Hrows & _).
  apply to_column_or_undefined in Hbn.
  apply to_column_or_undefined in Hmf.
  eexists. split; [exact Hrows|]. cbn.
  repeat (split; [solve [auto]|]).
  split; [|split; [|eauto]].
  - intros ->. cbn. auto.
  - intros Hne.
    destruct (hd_error (family sid (Item.medicine_name item) (rows db)))
      as [b|] eqn:Hb.
    + exists b. destruct (hd_error_family _ _ _ _ Hb) as (? & ? & ?). auto 10.
    + destruct (family sid (Item.medicine_name item) (rows db));
        [contradiction|discriminate].
Qed.

(** ** The loop and the handler *)

Lemma for_items_app body l1 l2 c u db :
  for_items body (l1 ++ l2) c u db =
  match for_items body l1 c u db with
  | (Ok (c1, u1), db1) => for_items body l2 c1 u1 db1
  | (Throw e, db1) => (Throw e, db1)
  end.
Proof.
  revert c u db. induction l1 as [|a l1 IH]; intros c u db; cbn.
  - reflexivity.
  - unfold bind. destruct (body a db) as [[[]|e] db1]; auto.
Qed.

(** Every item moves exactly one tally by one. *)
Lemma for_items_tally body items c u db c' u' db' :
  for_items body items c u db = (Ok (c', u'), db') ->
  (c' + u' = c + u + List.length items)%nat.
Proof.
  revert c u db. induction items as [|a items IH]; intros c u db; cbn.
  - intros H. inversion H. lia.
  - unfold bind. destruct (body a db) as [[[]|e] db1]; try discriminate;
      intros H; apply IH in H; lia.
Qed.

Lemma string_or_falsy_parse h v :
  string_or_falsy v = true ->
  exists d, (if truthy v then parseExpiryDate h v else Ok None) = Ok d.
Proof.
  intros Hv. destruct (truthy v) eqn:Ht; [|eauto].
  unfold parseExpiryDate. rewrite Ht. cbn.
  destruct v as [| | | |s| |]; cbn [string_or_falsy] in Hv;
    try (rewrite Ht in Hv; discriminate Hv).
  destruct (match_short s) as [[g1 g2]|]; [eauto|].
  destruct (match_iso s) as [[g1 g2]|]; eauto.
Qed.

Lemma string_or_falsy_column0 v :
  string_or_falsy v = true ->
  exists c, to_column (or v JUndefined) = Ok c.
Proof.
  intros Hv. unfold or.
  destruct (truthy v) eqn:Ht; [|cbn; eauto].
  destruct v; cbn [string_or_falsy] in Hv;
    try (rewrite Ht in Hv; discriminate Hv); cbn; eauto.
Qed.

Lemma string_or_falsy_column v w :
  string_or_falsy v = true ->
  exists c, to_column (or (or (of_column w) v) JUndefined) = Ok c.
Proof.
  intros Hv.
  destruct (truthy (of_column w)) eqn:Hw.
  - unfold or at 2. rewrite Hw. unfold or. rewrite Hw.
    destruct w; cbn; eauto.
  - unfold or at 2. rewrite Hw. apply string_or_falsy_column0, Hv.
Qed.

Lemma generateSku_total h nm batch db :
  string_or_falsy batch = true ->
  exists sk, generateSku h nm batch db = (Ok sk, db).
Proof.
  intros Hb. unfold generateSku.
  destruct (truthy batch) eqn:Ht; [|eauto].
  destruct batch; cbn [string_or_falsy] in Hb;
    try (rewrite Ht in Hb; discriminate Hb); eauto.
Qed.

Lemma string_or_falsy_primitive v :
  string_or_falsy v = true -> no_primitive v = false.
Proof. destruct v; cbn; try reflexivity; discriminate. Qed.

Lemma well_typed_fields item :
  well_typed item = true ->
  string_or_falsy (Item.batch_number item) = true /\
  string_or_falsy (Item.expiry_date item) = true /\
  string_or_falsy (Item.supplier item) = true /\
  no_primitive (Item.mrp item) = false /\
  no_primitive (Item.rate item) = false /\
  no_primitive (Item.quantity item) = false.
Proof.
  unfold well_typed. intros Hw.
  repeat (apply andb_true_iff in Hw;
          let H := fresh "H" in destruct Hw as [Hw H];
          try apply negb_true_iff in H).
  auto 10.
Qed.

(** With no rejected call, a well-typed item goes down one of the two
    paths. *)
Lemma reconcile_item_total h sid item db :
  (forall n, fault h n = false) ->
  well_typed item = true ->
  exists b db', reconcile_item h sid item db = (Ok b, db').
Proof.
  intros Hf Hw.
  destruct (well_typed_fields item Hw)
    as (Hbat & Hexp & Hsup & Hmrp & Hrate & Hqty).
  unfold reconcile_item, bind, lift, findMany, update, create, call, ret,
    expiry_of, or_TypeError, template.
  destruct (Number_or_0_returns _ Hmrp) as [mv ->].
  destruct (Number_or_0_returns _ Hrate) as [cv ->].
  destruct (Number_or_0_returns _ Hqty) as [qv ->].
  destruct (string_or_falsy_parse h _ Hexp) as [d ->].
  rewrite (string_or_falsy_primitive _ Hbat).
  rewrite Hf. cbn [rows nextId calls].
  destruct (exactBatchMatch_of _ _) as [p|] eqn:Em.
  - destruct (string_or_falsy_column _ (batchNumber p) Hbat) as [bn ->].
    destruct (string_or_falsy_column _ (manufacturer p) Hsup) as [mf ->].
    cbn [rows nextId calls]. rewrite Hf. eauto.
  - destruct (generateSku_total h (Item.medicine_name item) _
                {| rows := rows db; nextId := nextId db;
                   calls := S (calls db) |} Hbat) as [sk ->].
    destruct (string_or_falsy_column0 _ Hbat) as [bn ->].
    destruct (string_or_falsy_column0 _ Hsup) as [mf ->].
    cbn [rows nextId calls]. rewrite Hf. eauto.
Qed.



(** C8, as the handler has it.  When the loop body throws on an item,
    the items after it are not looked at, what the items before it
    wrote stays written, the failing item itself has written nothing,
    and the answer is the fixed status 500 with the message
    ["Failed to save inventory"], which tells neither how many items
    were processed nor which. *)
Theorem failure_aborts_without_rollback h sid done item rest db c u db1 e db2 :
  sid <> "" ->
  for_items (reconcile_item h sid) done 0 0 db = (Ok (c, u), db1) ->
  reconcile_item h sid item db1 = (Throw e, db2) ->
  confirmImport h (mkRequest (Some sid) (Some (done ++ item :: rest))) db
    = (SaveFailed, db2) /\
  rows db2 = rows db1 /\
  (c + u = List.length done)%nat /\
  respond SaveFailed = mkResponse 500 false "Failed to save inventory".
Proof.
  intros Hsid Hdone Hitem.
  unfold confirmImport, handler. cbn [req_storeId body_items].
  destruct (String.eqb sid "") eqn:Es;
    [apply String.eqb_eq in Es; contradiction|].
  rewrite for_items_app, Hdone. cbn [for_items]. unfold bind at 1.
  rewrite Hitem.
  split; [reflexivity|]. split.
  - apply (reconcile_item_throw _ _ _ _ _ _ Hitem).
  - split; [|reflexivity]. apply for_items_tally in Hdone. lia.
Qed.

(** ** [parseExpiryDate] *)

Lemma digit_val_range c : is_digit c = true -> 0 <= digit_val c <= 9.
Proof.
  unfold is_digit, in_range, digit_val. intros H.
  apply andb_true_iff in H. destruct H as [H1 H2].
  apply Nat.leb_le in H1. apply Nat.leb_le in H2. lia.
Qed.

Lemma digits_value_1 a : digits_value [a] = digit_val a.
Proof. unfold digits_value. cbn. lia. Qed.

Lemma digits_value_2 a b : digits_value [a; b] = 10 * digit_val a + digit_val b.
Proof. unfold digits_value. cbn. lia. Qed.

Lemma chars_of_list l : chars (string_of_list_ascii l) = l.
Proof. apply list_ascii_of_string_of_list_ascii. Qed.

(** [new Date(y, m - 1, 1)] for a year that is not negative: the first
    day of the month [m - 1] months after January of the year [y]
    stands for. *)
Lemma Date_first_from h y m :
  0 <= y ->
  Date_first (day_start h) y (m - 1) = first_day_from h (full_year y) m.
Proof.
  intros Hy. unfold Date_first, first_day_from, first_day_of, full_year.
  replace (0 <=? y) with true by (symmetry; apply Z.leb_le; exact Hy).
  cbn [andb]. rewrite Z.add_simpl_r. reflexivity.
Qed.

(** A calendar month is a month of the year itself. *)
Lemma first_day_from_calendar h y m :
  1 <= m <= 12 -> first_day_from h y m = first_day_of h y m.
Proof.
  intros Hm. unfold first_day_from.
  rewrite Z.div_small, Z.mod_small by lia.
  f_equal; lia.
Qed.

Lemma full_year_century yy : 0 <= yy -> full_year (century yy) = century yy.
Proof.
  intros H. unfold full_year, century.
  destruct (yy <? 50);
    (replace (_ <=? 99) with false
       by (symmetry; apply Z.leb_gt; lia)); reflexivity.
Qed.

Lemma match_short_complete month sep y1 y2 :
  short_form month sep y1 y2 ->
  match_short (string_of_list_ascii (month ++ [sep; y1; y2]))
  = Some (month, [y1; y2]).
Proof.
  intros ([Hl|Hl] & Hd & Hs & H1 & H2); unfold match_short;
    rewrite chars_of_list.
  - destruct month as [|a [|]]; try discriminate Hl. cbn in Hd |- *.
    rewrite andb_true_r in Hd. rewrite Hd, Hs, H1, H2. reflexivity.
  - destruct month as [|a [|b [|]]]; try discriminate Hl. cbn in Hd |- *.
    rewrite andb_true_r in Hd. apply andb_true_iff in Hd.
    destruct Hd as [Ha Hb]. rewrite Ha, Hb, Hs, H1, H2. reflexivity.
Qed.

Lemma match_short_sound s g1 g2 :
  match_short s = Some (g1, g2) ->
  exists sep y1 y2,
    g2 = [y1; y2] /\ chars s = g1 ++ [sep; y1; y2] /\
    short_form g1 sep y1 y2.
Proof.
  unfold match_short, short_form.
  destruct (chars s) as [|a [|b [|c [|d [|e [|]]]]]]; try discriminate.
  - destruct (is_digit a) eqn:Ha; try discriminate.
    destruct (is_slash_or_dash b) eqn:Hb; try discriminate.
    destruct (is_digit c) eqn:Hc; try discriminate.
    destruct (is_digit d) eqn:Hd; try discriminate.
    cbn. intros H; inversion H; subst.
    exists b, c, d. cbn. rewrite Ha. auto 10.
  - destruct (is_digit a) eqn:Ha; try discriminate.
    destruct (is_digit b) eqn:Hb; try discriminate.
    destruct (is_slash_or_dash c) eqn:Hc; try discriminate.
    destruct (is_digit d) eqn:Hd; try discriminate.
    destruct (is_digit e) eqn:He; try discriminate.
    cbn. intros H; inversion H; subst.
    exists c, d, e. cbn. rewrite Ha, Hb. auto 10.
Qed.

Lemma match_iso_complete year month :
  iso_form year month ->
  match_iso (string_of_list_ascii (year ++ "-"%char :: month))
  = Some (year, month) /\
  match_short (string_of_list_ascii (year ++ "-"%char :: month)) = None.
Proof.
  intros (Hy & Hyd & Hl & Hd). unfold match_iso, match_short.
  rewrite chars_of_list.
  destruct year as [|y1 [|y2 [|y3 [|y4 [|]]]]]; try discriminate Hy.
  cbn in Hyd.
  repeat (apply andb_true_iff in Hyd;
          let H := fresh "Hy" in destruct Hyd as [H Hyd]).
  destruct Hl as [Hl|Hl].
  - destruct month as [|a [|]]; try discriminate Hl. cbn in Hd |- *.
    rewrite andb_true_r in Hd. rewrite Hy0, Hy1, Hy2, Hy3, Hd. cbn.
    auto.
  - destruct month as [|a [|b [|]]]; try discriminate Hl. cbn in Hd |- *.
    rewrite andb_true_r in Hd. apply andb_true_iff in Hd.
    destruct Hd as [Ha Hb]. rewrite Hy0, Hy1, Hy2, Hy3, Ha, Hb. cbn.
    auto.
Qed.

Lemma match_iso_sound s g1 g2 :
  match_iso s = Some (g1, g2) ->
  chars s = g1 ++ "-"%char :: g2 /\ iso_form g1 g2.
Proof.
  unfold match_iso, iso_form.
  destruct (chars s) as [|a [|b [|c [|d [|e [|f [|g [|]]]]]]]];
    try discriminate.
  - destruct (is_digit a) eqn:Ha; try discriminate.
    destruct (is_digit b) eqn:Hb; try discriminate.
    destruct (is_digit c) eqn:Hc; try discriminate.
    destruct (is_digit d) eqn:Hd; try discriminate.
    destruct (code e =? 45)%nat eqn:He; try discriminate.
    destruct (is_digit f) eqn:Hf; try discriminate.
    cbn. intros H; inversion H; subst.
    apply Nat.eqb_eq in He.
    assert (e = "-"%char) as ->.
    { rewrite <- (ascii_nat_embedding e). unfold code in He. rewrite He.
      reflexivity. }
    cbn. rewrite Ha, Hb, Hc, Hd, Hf. auto 10.
  - destruct (is_digit a) eqn:Ha; try discriminate.
    destruct (is_digit b) eqn:Hb; try discriminate.
    destruct (is_digit c) eqn:Hc; try discriminate.
    destruct (is_digit d) eqn:Hd; try discriminate.
    destruct (code e =? 45)%nat eqn:He; try discriminate.
    destruct (is_digit f) eqn:Hf; try discriminate.
    destruct (is_digit g) eqn:Hg; try discriminate.
    cbn. intros H; inversion H; subst.
    apply Nat.eqb_eq in He.
    assert (e = "-"%char) as ->.
    { rewrite <- (ascii_nat_embedding e). unfold code in He. rewrite He.
      reflexivity. }
    cbn. rewrite Ha, Hb, Hc, Hd, Hf, Hg. auto 10.
Qed.

Lemma truthy_nonempty l : l <> [] -> truthy (JStr (string_of_list_ascii l)) = true.
Proof. destruct l; [contradiction|reflexivity]. Qed.

Lemma digits_value_nonneg ds : forallb is_digit ds = true -> 0 <= digits_value ds.
Proof.
  unfold digits_value.
  assert (G : forall acc, 0 <= acc -> forallb is_digit ds = true ->
              0 <= fold_left (fun a c => 10 * a + digit_val c) ds acc).
  { induction ds as [|c ds IH]; intros acc Hacc Hd;
      cbn [fold_left forallb] in *; [exact Hacc|].
    apply andb_true_iff in Hd. destruct Hd as [Hc Hd].
    apply IH; [|exact Hd]. pose proof (digit_val_range c Hc). lia. }
  apply G. lia.
Qed.

Lemma century_range yy : 0 <= yy -> 100 <= century yy.
Proof. unfold century. intros H. destruct (yy <? 50); lia. Qed.

(** The short form, whatever its month. *)
Lemma parseExpiryDate_short h month sep y1 y2 :
  short_form month sep y1 y2 ->
  parseExpiryDate h (JStr (string_of_list_ascii (month ++ [sep; y1; y2])))
  = Ok (Some (first_day_from h (century (digits_value [y1; y2]))
                             (digits_value month))).
Proof.
  intros Hs. unfold parseExpiryDate.
  rewrite truthy_nonempty by (destruct month; discriminate). cbn [negb].
  rewrite (match_short_complete _ _ _ _ Hs).
  unfold parseInt_digits. fold (century (digits_value [y1; y2])).
  assert (Hy : 0 <= digits_value [y1; y2]).
  { apply digits_value_nonneg.
    destruct Hs as (_ & _ & _ & H1 & H2). cbn. rewrite H1, H2. reflexivity. }
  rewrite Date_first_from by (pose proof (century_range _ Hy); lia).
  rewrite full_year_century by exact Hy. reflexivity.
Qed.

(** The [YYYY-MM] form, whatever its year and month. *)
Lemma parseExpiryDate_iso h year month :
  iso_form year month ->
  parseExpiryDate h (JStr (string_of_list_ascii (year ++ "-"%char :: month)))
  = Ok (Some (first_day_from h (full_year (digits_value year))
                             (digits_value month))).
Proof.
  intros Hi. unfold parseExpiryDate.
  rewrite truthy_nonempty by (destruct year; discriminate). cbn [negb].
  destruct (match_iso_complete _ _ Hi) as [-> ->].
  unfold parseInt_digits. rewrite Date_first_from; [reflexivity|].
  apply digits_value_nonneg. destruct Hi as (_ & Hd & _). exact Hd.
Qed.

(** Neither form: the engine's own parser decides. *)
Lemma parseExpiryDate_fallback h s :
  s <> "" ->
  (forall month sep y1 y2,
     short_form month sep y1 y2 -> chars s <> month ++ [sep; y1; y2]) ->
  (forall year month,
     iso_form year month -> chars s <> year ++ "-"%char :: month) ->
  parseExpiryDate h (JStr s) = Ok (Date_new h (JStr s)).
Proof.
  intros Hne Hns Hni. unfold parseExpiryDate. cbn [truthy].
  destruct (String.eqb s "") eqn:Es;
    [apply String.eqb_eq in Es; contradiction|]. cbn [negb].
  destruct (match_short s) as [[g1 g2]|] eqn:Em.
  { apply match_short_sound in Em.
    destruct Em as (sep & y1 & y2 & -> & Hc & Hf).
    exfalso. exact (Hns _ _ _ _ Hf Hc). }
  destruct (match_iso s) as [[g1 g2]|] eqn:Ei.
  { apply match_iso_sound in Ei. destruct Ei as (Hc & Hf).
    exfalso. exact (Hni _ _ Hf Hc). }
  reflexivity.
Qed.

(** C7, as the code has it.  The rules apply in order.  Nothing for the
    empty string.  For [MM/YY] and [MM-YY], with the year [yy] read as
    [2000 + yy] below 50 and as [1900 + yy] otherwise: the first day of
    the month that lies [MM - 1] months after January of that year,
    which is month [MM] of that year when [MM] is 1 to 12, and runs into
    the year before ([00]) or the years after (13 to 99) otherwise.  For
    [YYYY-MM] the same, from the year [YYYY] itself, read as
    [1900 + YYYY] when it is 0000 to 0099.  The day is taken from the
    instant it begins in the time zone of the process.  Otherwise what
    the engine's own date parser makes of the string, nothing when it
    fails.  No rule throws on a string. *)
Theorem parseExpiryDate_rules h :
  parseExpiryDate h (JStr "") = Ok None /\
  (forall month sep y1 y2,
     short_form month sep y1 y2 ->
     parseExpiryDate h (JStr (string_of_list_ascii (month ++ [sep; y1; y2])))
     = Ok (Some (first_day_from h (century (digits_value [y1; y2]))
                                (digits_value month))) /\
     (1 <= digits_value month <= 12 ->
      first_day_from h (century (digits_value [y1; y2]))
        (digits_value month)
      = first_day_of h (century (digits_value [y1; y2]))
          (digits_value month))) /\
  (forall year month,
     iso_form year month ->
     parseExpiryDate h
       (JStr (string_of_list_ascii (year ++ "-"%char :: month)))
     = Ok (Some (first_day_from h (full_year (digits_value year))
                                (digits_value month))) /\
     (100 <= digits_value year ->
      1 <= digits_value month <= 12 ->
      first_day_from h (full_year (digits_value year)) (digits_value month)
      = first_day_of h (digits_value year) (digits_value month))) /\
  (forall y m,
     getFullYear (first_day_from h y m) = y + (m - 1) / 12 /\
     getMonth (first_day_from h y m) = (m - 1) mod 12 /\
     getDate (first_day_from h y m) = 1 /\
     msOfDay (first_day_from h y m)
     = day_start h (y + (m - 1) / 12) ((m - 1) mod 12)) /\
  (forall s,
     s <> "" ->
     (forall month sep y1 y2,
        short_form month sep y1 y2 -> chars s <> month ++ [sep; y1; y2]) ->
     (forall year month,
        iso_form year month -> chars s <> year ++ "-"%char :: month) ->
     parseExpiryDate h (JStr s) = Ok (Date_new h (JStr s))) /\
  (forall s, exists d, parseExpiryDate h (JStr s) = Ok d).
Proof.
  split; [reflexivity|].
  split.
  { intros month sep y1 y2 Hs.
    split; [apply parseExpiryDate_short, Hs|].
    apply first_day_from_calendar. }
  split.
  { intros year month Hi.
    split; [apply parseExpiryDate_iso, Hi|].
    intros Hy Hm. rewrite first_day_from_calendar by exact Hm.
    unfold full_year.
    replace (digits_value year <=? 99) with false
      by (symmetry; apply Z.leb_gt; lia).
    reflexivity. }
  split.
  { intros y m. unfold first_day_from, first_day_of. cbn.
    rewrite Z.add_simpl_r. auto. }
  split; [apply parseExpiryDate_fallback|].
  intros s. unfold parseExpiryDate.
  destruct (negb (truthy (JStr s))); [eauto|].
  destruct (match_short s) as [[g1 g2]|]; [eauto|].
  destruct (match_iso s) as [[g1 g2]|]; eauto.
Qed.

(** ** [parseBillText] *)

Lemma ToString_returns pf v :
  no_primitive v = false -> ToString pf v = Some (String_value pf v).
Proof. unfold ToString. intros ->. reflexivity. Qed.

Lemma ToString_throws pf v : no_primitive v = true -> ToString pf v = None.
Proof. unfold ToString. intros ->. reflexivity. Qed.

Lemma text_from_chosen pf a b out :
  ToString pf (chosen a b) = Some out -> text_from pf a b out.
Proof.
  unfold text_from, chosen, or. intros H. repeat split.
  - intros Ha. rewrite Ha, Ha in H. exact H.
  - intros Ha Hb. rewrite Ha, Hb in H. exact H.
  - intros Ha Hb. rewrite Ha, Hb in H. inversion H. reflexivity.
Qed.

Lemma number_from_or_0 v out : Number_or_0 v = Some out -> number_from v out.
Proof.
  intros H. split; [exact (Number_or_0_not_NaN _ _ H)|].
  unfold Number_or_0 in H. destruct (Number v) as [n|]; [|discriminate].
  exists n. split; [reflexivity|].
  inversion H. split; intros ->; reflexivity.
Qed.

Lemma map_result_throws {A B} (f : A -> result B) before x after e :
  f x = Throw e -> exists e', map_result f (before ++ x :: after) = Throw e'.
Proof.
  intros Hx. induction before as [|a before [e' IH]]; cbn.
  - rewrite Hx. eauto.
  - destruct (f a); [|eauto]. rewrite IH. eauto.
Qed.

(** The callback on an object, by its six conversions. *)
Lemma normalize_item_object pf props :
  normalize_item pf (JObj props) =
  match
    ToString pf (chosen (assoc "medicine_name" props)
                        (assoc "productName" props)),
    Number_or_0 (assoc "quantity" props),
    ToString pf (chosen (assoc "batch_number" props)
                        (assoc "batchNumber" props)),
    ToString pf (chosen (assoc "expiry_date" props)
                        (assoc "expiryDate" props)),
    Number_or_0 (assoc "mrp" props),
    Number_or_0 (assoc "rate" props)
  with
  | Some medicine_name, Some quantity, Some batch_number,
    Some expiry_date, Some mrp, Some rate =>
      Ok (Extracted.make medicine_name quantity batch_number
            expiry_date mrp rate)
  | _, _, _, _, _, _ => Throw TypeError
  end.
Proof. reflexivity. Qed.

(** C6, as the code has it.  For every decoded item object the callback
    converts six values: [quantity], [mrp], [rate], and for each of the
    name, the batch and the expiry the canonical spelling when it is
    truthy, else the alternate one, else the empty string.  When each
    of the six has a primitive, the three numeric fields come out as
    numbers that are never [NaN] (the converted value, whatever its
    sign, and 0 when that is [NaN] or zero) and the three text fields
    as the strings of the values chosen.  When one of the six has none
    (an object with an own [toString], or an array that holds one), the
    callback throws and [parseBillText] returns no item at all.  The
    item [{"medicine_name":"X","quantity":"10","mrp":"50"}] comes out
    with quantity 10, mrp 50 and an empty batch number. *)
Theorem normalize_item_coerces pf props :
  (existsb no_primitive (converted props) = false ->
   exists e,
     normalize_item pf (JObj props) = Ok e /\
     text_from pf (assoc "medicine_name" props) (assoc "productName" props)
       (Extracted.medicine_name e) /\
     text_from pf (assoc "batch_number" props) (assoc "batchNumber" props)
       (Extracted.batch_number e) /\
     text_from pf (assoc "expiry_date" props) (assoc "expiryDate" props)
       (Extracted.expiry_date e) /\
     number_from (assoc "quantity" props) (Extracted.quantity e) /\
     number_from (assoc "mrp" props) (Extracted.mrp e) /\
     number_from (assoc "rate" props) (Extracted.rate e)) /\
  (existsb no_primitive (converted props) = true ->
   normalize_item pf (JObj props) = Throw TypeError /\
   forall text w content more bill before after,
     chat pf w text = Resolved (content :: more) ->
     JSON_parse pf (json_candidate content) = Some (JObj bill) ->
     assoc "items" bill = JArr (before ++ JObj props :: after) ->
     parseBillText pf text w = (Ok no_items, S w)) /\
  normalize_item pf
    (JObj [("medicine_name", JStr "X"); ("quantity", JStr "10");
           ("mrp", JStr "50")])
  = Ok (Extracted.make "X" (of_Z 10) "" "" (of_Z 50) zero).
Proof.
  split; [|split; [|vm_compute; reflexivity]].
  - unfold converted. cbn [existsb]. intros H.
    repeat (apply orb_false_iff in H;
            let E := fresh "E" in destruct H as [E H]).
    rewrite normalize_item_object.
    destruct (Number_or_0_returns _ E0) as [q Hq].
    destruct (Number_or_0_returns _ E3) as [m Hm].
    destruct (Number_or_0_returns _ E4) as [r Hr].
    pose proof (ToString_returns pf _ E) as Hn.
    pose proof (ToString_returns pf _ E1) as Hb.
    pose proof (ToString_returns pf _ E2) as He.
    rewrite Hn, Hq, Hb, He, Hm, Hr.
    eexists. split; [reflexivity|]. cbn.
    do 3 (split; [apply text_from_chosen; assumption|]).
    do 2 (split; [apply number_from_or_0; assumption|]).
    apply number_from_or_0; assumption.
  - intros H.
    assert (Hthrow : normalize_item pf (JObj props) = Throw TypeError).
    { rewrite normalize_item_object.
      unfold converted in H. cbn [existsb] in H.
      repeat (apply orb_true_iff in H; destruct H as [H|H]);
        try discriminate H;
        try rewrite (ToString_throws pf _ H);
        try rewrite (Number_or_0_throws _ H);
        repeat match goal with
               | |- context [match ?x with _ => _ end] => destruct x
               end; reflexivity. }
    split; [exact Hthrow|].
    intros text w content more bill before after Hc Hp Hi.
    unfold parseBillText, bind, outside, ret. rewrite Hc. cbn [decode].
    rewrite Hp. unfold normalize_bill. cbn [get]. rewrite Hi.
    cbn [or truthy].
    destruct (map_result_throws (normalize_item pf) before (JObj props)
                after TypeError Hthrow) as [e' ->].
    reflexivity.
Qed.

(** [{ items: [] }] has no item and no invoice field. *)
Lemma no_items_is_bare :
  items no_items = [] /\
  invoiceNumber no_items = JUndefined /\ invoiceDate no_items = JUndefined /\
  supplierName no_items = JUndefined /\ totalAmount no_items = JUndefined.
Proof. repeat split. Qed.

(** C5, as the code has it.  [parseBillText] returns on every response
    and never throws: when the model call is rejected, when the response
    has no choice, and when [JSON.parse] fails on the candidate, what it
    returns is [{ items: [] }], without invoice fields. *)
Theorem parseBillText_never_throws pf text w :
  exists bill,
    parseBillText pf text w = (Ok bill, S w) /\
    (forall content rest,
       chat pf w text = Resolved (content :: rest) ->
       JSON_parse pf (json_candidate content) = None ->
       bill = no_items) /\
    (chat pf w text = Resolved [] -> bill = no_items) /\
    (forall e, chat pf w text = Rejected e -> bill = no_items) /\
    (bill = no_items ->
     items bill = [] /\
     invoiceNumber bill = JUndefined /\ invoiceDate bill = JUndefined /\
     supplierName bill = JUndefined /\ totalAmount bill = JUndefined).
Proof.
  unfold parseBillText, bind, outside, ret.
  destruct (decode pf (chat pf w text)) as [bill|e] eqn:Hd.
  - exists bill. split; [reflexivity|].
    split; [|split; [|split]].
    + intros content rest Hc Hp. rewrite Hc in Hd. cbn in Hd.
      rewrite Hp in Hd. discriminate.
    + intros Hc. rewrite Hc in Hd. discriminate.
    + intros e Hc. rewrite Hc in Hd. discriminate.
    + intros ->. apply no_items_is_bare.
  - exists no_items. split; [reflexivity|].
    repeat split; reflexivity.
Qed.

(** ** [importBill] *)

(** Whatever the model call does, [parseBillText] returns a bill. *)
Lemma parseBillText_returns pf text w :
  exists bill, parseBillText pf text w = (Ok bill, S w).
Proof.
  unfold parseBillText, bind, outside, ret.
  destruct (decode pf (chat pf w text)) as [bill|e]; eauto.
Qed.

(** The loop is a left fold of [accumulate] over the page results. *)
Lemma for_images_fold pf imgs acc w :
  for_images pf imgs acc w =
  match page_results pf imgs w with
  | (Ok pages, w') => (Ok (fold_left accumulate pages acc), w')
  | (Throw e, w') => (Throw e, w')
  end.
Proof.
  revert acc w. induction imgs as [|img imgs IH]; intros acc w; cbn.
  - reflexivity.
  - unfold bind at 1 3.
    destruct (extractTextFromImage pf img w) as [[text|e] w1];
      [|reflexivity].
    unfold bind at 1 2.
    destruct (parseBillText_returns pf text w1) as [bill ->].
    rewrite IH. unfold bind, ret.
    destruct (page_results pf imgs (S w1)) as [[pages|e] w2]; reflexivity.
Qed.

Lemma accumulate_items pages acc :
  fst (fold_left accumulate pages acc)
  = fst acc ++ List.concat (map items pages).
Proof.
  revert acc. induction pages as [|p pages IH]; intros [its inv]; cbn.
  - rewrite app_nil_r. reflexivity.
  - rewrite IH. cbn. rewrite app_assoc. reflexivity.
Qed.

(** Once an invoice number is held, no later page changes the invoice. *)
Lemma accumulate_keeps pages its inv :
  truthy (inv_invoiceNumber inv) = true ->
  snd (fold_left accumulate pages (its, inv)) = inv.
Proof.
  revert its. induction pages as [|p pages IH]; intros its Hinv; cbn.
  - reflexivity.
  - rewrite Hinv. cbn. apply IH, Hinv.
Qed.

(** Pages without an invoice number leave the invoice as it is. *)
Lemma accumulate_skips pages its inv :
  forallb supplies_none pages = true ->
  snd (fold_left accumulate pages (its, inv)) = inv.
Proof.
  revert its. induction pages as [|p pages IH]; intros its Hp; cbn.
  - reflexivity.
  - cbn in Hp. apply andb_true_iff in Hp. destruct Hp as [Hp Hps].
    unfold supplies_none in Hp. apply negb_true_iff in Hp. rewrite Hp.
    rewrite andb_false_r. apply IH, Hps.
Qed.

(** The first page that supplies an invoice number supplies the whole
    invoice. *)
Lemma accumulate_first_wins before p after :
  forallb supplies_none before = true ->
  truthy (invoiceNumber p) = true ->
  snd (fold_left accumulate (before ++ p :: after) ([], empty_invoice))
  = invoice_of p.
Proof.
  intros Hb Hp. rewrite fold_left_app.
  destruct (fold_left accumulate before ([], empty_invoice))
    as [its inv] eqn:E.
  assert (Hinv : inv = empty_invoice).
  { pose proof (accumulate_skips before [] empty_invoice Hb) as H.
    rewrite E in H. exact H. }
  subst inv. cbn. rewrite Hp. cbn.
  apply accumulate_keeps. exact Hp.
Qed.

(** C9. When [importBill] answers with data, the items are those of all
    pages in page order, and the invoice is that of the first page that
    supplies an invoice number, whole and from that page alone: pages
    after it contribute no invoice field (first wins, no merge).  With no
    such page the invoice is empty. *)
Theorem importBill_first_page_wins pf f w data invoice w' :
  importBill pf (Some f) w = (Imported data invoice, w') ->
  exists imgs w0 pages,
    ((mimetype f = "application/pdf" /\
      convertPdfToImages pf w (path f) = Ok imgs /\ w0 = S w) \/
     (mimetype f <> "application/pdf" /\ imgs = [path f] /\ w0 = w)) /\
    page_results pf imgs w0 = (Ok pages, w') /\
    map extracted data = List.concat (map items pages) /\
    (forall before p after,
       pages = before ++ p :: after ->
       forallb supplies_none before = true ->
       truthy (invoiceNumber p) = true ->
       invoice = invoice_of p) /\
    (forallb supplies_none pages = true -> invoice = empty_invoice).
Proof.
  unfold importBill, bind. intros H.
  assert (G : forall imgs w0,
            (let (r, w1) := for_images pf imgs ([], empty_invoice) w0 in
             match r with
             | Ok (allItems, invoiceData) =>
                 (Imported
                    (map (fun item =>
                            mkNormalized item (Extracted.medicine_name item)
                              (normalizeMedicineName pf
                                 (Extracted.medicine_name item))) allItems)
                    invoiceData, w1)
             | Throw e =>
                 let (e', w'') := cleanup pf f e w1 in (ImportFailed e', w'')
             end) = (Imported data invoice, w') ->
            exists pages,
              page_results pf imgs w0 = (Ok pages, w') /\
              map extracted data = List.concat (map items pages) /\
              (forall before p after,
                 pages = before ++ p :: after ->
                 forallb supplies_none before = true ->
                 truthy (invoiceNumber p) = true ->
                 invoice = invoice_of p) /\
              (forallb supplies_none pages = true ->
               invoice = empty_invoice)).
  { intros imgs w0 Hrun. rewrite for_images_fold in Hrun.
    destruct (page_results pf imgs w0) as [[pages|e] w1];
      [|destruct (cleanup pf f e w1); discriminate Hrun].
    destruct (fold_left accumulate pages ([], empty_invoice))
      as [allItems invoiceData] eqn:E.
    inversion Hrun; subst. exists pages. split; [reflexivity|].
    split.
    - rewrite map_map. cbn. rewrite map_id.
      pose proof (accumulate_items pages ([], empty_invoice)) as Hi.
      rewrite E in Hi. exact Hi.
    - split.
      + intros before p after -> Hb Hp.
        pose proof (accumulate_first_wins before p after Hb Hp) as Hw.
        rewrite E in Hw. exact Hw.
      + intros Hn.
        pose proof (accumulate_skips pages [] empty_invoice Hn) as Hs.
        rewrite E in Hs. exact Hs. }
  destruct (String.eqb (mimetype f) "application/pdf") eqn:Epdf.
  - apply String.eqb_eq in Epdf.
    destruct (convertPdfToImages pf w (path f)) as [imgs|e] eqn:Ec;
      [|destruct (cleanup pf f e (S w)); discriminate H].
    destruct (G imgs (S w) H) as (pages & Hp).
    exists imgs, (S w), pages. split; [left; auto|exact Hp].
  - apply String.eqb_neq in Epdf.
    destruct (String.prefix "image/" (mimetype f));
      [|unfold raise in H; destruct (cleanup pf f _ w); discriminate H].
    unfold ret in H.
    destruct (G [path f] w H) as (pages & Hp).
    exists [path f], w, pages. split; [right; auto|exact Hp].
Qed.

(** ** Repeated imports of one batch *)

Lemma family_same_name sid a b rs :
  toLowerCase a = toLowerCase b -> family sid a rs = family sid b rs.
Proof.
  intros H. unfold family. apply filter_ext. intros p.
  unfold equals_insensitive. rewrite H. reflexivity.
Qed.

Lemma exact_match_of_batch sid nm b it rs :
  of_batch nm b it ->
  exact_match sid it rs = exactBatchMatch_of (JStr b) (family sid nm rs).
Proof.
  intros [Hn Hb]. unfold exact_match. rewrite Hb.
  rewrite (family_same_name sid _ nm rs Hn). reflexivity.
Qed.

Lemma map_unchanged (f : Product -> Product) i rs :
  Forall (fun r => id r <> i) rs ->
  map (fun r => if Nat.eqb (id r) i then f r else r) rs = rs.
Proof.
  induction 1 as [|r rs Hr _ IH]; cbn; [reflexivity|].
  rewrite IH. apply Nat.eqb_neq in Hr. rewrite Hr. reflexivity.
Qed.

Lemma exact_match_last sid nm b rs0 row :
  exactBatchMatch_of (JStr b) (family sid nm rs0) = None ->
  storeId row = sid ->
  toLowerCase (name row) = toLowerCase nm ->
  batchNumber row = Some b ->
  exactBatchMatch_of (JStr b) (family sid nm (rs0 ++ [row])) = Some row.
Proof.
  intros Hnone Hs Hn Hb. unfold exactBatchMatch_of, family in *.
  rewrite filter_app. cbn [filter].
  unfold equals_insensitive at 2. rewrite Hs, Hn, !String.eqb_refl. cbn.
  set (f := fun p : Product => batch_equals (batchNumber p) (JStr b)) in *.
  induction (filter _ rs0) as [|a l IH]; cbn in *.
  - subst f. cbn. rewrite Hb. cbn. rewrite String.eqb_refl. reflexivity.
  - destruct (f a); [discriminate|]. apply IH, Hnone.
Qed.

(** With no rejected call, an item of a batch that the table holds as
    its last row is added to that row. *)
Lemma restock_step h sid nm b it rs0 row nid k :
  (forall n, fault h n = false) ->
  b <> "" ->
  of_batch nm b it -> well_typed it = true ->
  exactBatchMatch_of (JStr b) (family sid nm rs0) = None ->
  Forall (fun r => id r <> id row) rs0 ->
  storeId row = sid ->
  toLowerCase (name row) = toLowerCase nm ->
  batchNumber row = Some b ->
  exists row' qv,
    reconcile_item h sid it (mkDb (rs0 ++ [row]) nid k)
      = (Ok Updated, mkDb (rs0 ++ [row']) nid (S (S k))) /\
    id row' = id row /\ storeId row' = sid /\ name row' = name row /\
    batchNumber row' = Some b /\
    Number_or_0 (Item.quantity it) = Some qv /\
    quantity row' = restock (quantity row) qv.
Proof.
  intros Hf Hne Hof Hw Hnone Hids Hs Hn Hb.
  destruct (reconcile_item_total h sid it (mkDb (rs0 ++ [row]) nid k) Hf Hw)
    as ([|] & db' & Hrun).
  - apply reconcile_item_created in Hrun.
    destruct Hrun as (ev & sk & bn & mf & mv & cv & qv & _ & _ & _ & _
                      & Hm & _).
    rewrite (exact_match_of_batch sid nm b it _ Hof) in Hm. cbn [rows] in Hm.
    rewrite (exact_match_last sid nm b rs0 row Hnone Hs Hn Hb) in Hm.
    discriminate.
  - pose proof Hrun as Hinv. apply reconcile_item_updated in Hinv.
    destruct Hinv as (p & ev & bn & mf & mv & cv & qv & _ & _ & Hqv & _
                      & Hm & Hrows & Hnid & Hk & Hbn & _).
    rewrite (exact_match_of_batch sid nm b it _ Hof) in Hm. cbn [rows] in Hm.
    rewrite (exact_match_last sid nm b rs0 row Hnone Hs Hn Hb) in Hm.
    inversion Hm; subst p. clear Hm.
    rewrite Hb in Hbn. cbn [of_column] in Hbn.
    assert (Hbn' : bn = Some b).
    { unfold or in Hbn. cbn [truthy] in Hbn.
      destruct (String.eqb b "") eqn:Eb;
        [apply String.eqb_eq in Eb; contradiction|].
      cbn in Hbn. rewrite Eb in Hbn. cbn in Hbn. inversion Hbn. reflexivity. }
    subst bn.
    exists (apply_update (update_fields mv cv qv row ev (Some b) mf) row), qv.
    split.
    + rewrite Hrun. f_equal. destruct db' as [rs' nid' k'].
      cbn [rows nextId calls] in *. subst nid' k'. f_equal.
      rewrite Hrows, map_app, map_unchanged by exact Hids.
      cbn. rewrite Nat.eqb_refl. reflexivity.
    + cbn. repeat split; assumption || reflexivity.
Qed.

Lemma restock_run h sid nm b :
  (forall n, fault h n = false) ->
  b <> "" ->
  forall its qs rs0 row c u nid k,
    Forall (fun it => of_batch nm b it /\ well_typed it = true) its ->
    Forall2 (fun it q => Number_or_0 (Item.quantity it) = Some q) its qs ->
    exactBatchMatch_of (JStr b) (family sid nm rs0) = None ->
    Forall (fun r => id r <> id row) rs0 ->
    storeId row = sid ->
    toLowerCase (name row) = toLowerCase nm ->
    batchNumber row = Some b ->
    exists row' k',
      for_items (reconcile_item h sid) its c u (mkDb (rs0 ++ [row]) nid k)
        = (Ok (c, (u + List.length its)%nat), mkDb (rs0 ++ [row']) nid k') /\
      batchNumber row' = Some b /\
      quantity row' = fold_left restock qs (quantity row).
Proof.
  intros Hf Hne its.
  induction its as [|it its IH];
    intros qs rs0 row c u nid k Hits Hqs Hnone Hids Hs Hn Hb.
  - destruct qs as [|q qs']; [|inversion Hqs].
    exists row, k. cbn. unfold ret. rewrite Nat.add_0_r. auto.
  - apply Forall_cons_iff in Hits. destruct Hits as [[Hof Hw] Hrest].
    destruct qs as [|q qs']; [inversion Hqs|].
    apply Forall2_cons_iff in Hqs. destruct Hqs as [Hq Hqs'].
    destruct (restock_step h sid nm b it rs0 row nid k Hf Hne Hof Hw
                Hnone Hids Hs Hn Hb)
      as (row1 & qv & Hstep & Hid1 & Hs1 & Hn1 & Hb1 & Hqv & Hq1).
    rewrite Hq in Hqv. inversion Hqv; subst qv. clear Hqv.
    assert (Hids1 : Forall (fun r => id r <> id row1) rs0)
      by (rewrite Hid1; exact Hids).
    assert (Hn1' : toLowerCase (name row1) = toLowerCase nm)
      by (rewrite Hn1; exact Hn).
    destruct (IH qs' rs0 row1 c (S u) nid (S (S k)) Hrest Hqs' Hnone Hids1
                Hs1 Hn1' Hb1)
      as (row' & k' & Hrun & Hb' & Hq').
    exists row', k'. cbn [for_items]. unfold bind at 1. rewrite Hstep.
    rewrite Hrun. split; [|split; [exact Hb'|]].
    + do 2 f_equal. cbn [List.length]. f_equal. lia.
    + cbn [fold_left]. rewrite <- Hq1. exact Hq'.
Qed.

(** The first import of a batch the store does not hold creates it, the
    later imports of the same batch add to it: the batch ends with the
    item quantities restocked one after the other onto the first. *)
Theorem repeated_import_restocks h sid nm b it0 its q0 qs db :
  (forall n, fault h n = false) ->
  b <> "" ->
  Forall (fun r => (id r < nextId db)%nat) (rows db) ->
  Forall (fun it => of_batch nm b it /\ well_typed it = true) (it0 :: its) ->
  exactBatchMatch_of (JStr b) (family sid nm (rows db)) = None ->
  Number_or_0 (Item.quantity it0) = Some q0 ->
  Forall2 (fun it q => Number_or_0 (Item.quantity it) = Some q) its qs ->
  exists row db',
    for_items (reconcile_item h sid) (it0 :: its) 0%nat 0%nat db
      = (Ok (1%nat, List.length its), db') /\
    rows db' = rows db ++ [row] /\
    batchNumber row = Some b /\
    quantity row = fold_left restock qs q0.
Proof.
  intros Hf Hne Hfresh Hits Hnone Hq0 Hqs.
  apply Forall_cons_iff in Hits. destruct Hits as [[Hof Hw] Hrest].
  destruct (reconcile_item_total h sid it0 db Hf Hw) as ([|] & db1 & Hrun).
  - pose proof Hrun as Hinv. apply reconcile_item_created in Hinv.
    destruct Hinv as (ev & sk & bn & mf & mv & cv & qv & _ & _ & Hqv & _ & _
                      & Hbn & _ & Hrows & Hnid & Hk).
    rewrite Hq0 in Hqv. inversion Hqv; subst qv. clear Hqv.
    apply to_column_or_undefined in Hbn.
    destruct Hof as [Hname Hbatch]. rewrite Hbatch in Hbn. cbn in Hbn.
    destruct (String.eqb b "") eqn:Eb;
      [apply String.eqb_eq in Eb; contradiction|]. subst bn.
    set (row := new_row (nextId db) _) in Hrows.
    destruct db1 as [rs1 nid1 k1]. cbn [rows nextId calls] in *. subst rs1.
    destruct (restock_run h sid nm b Hf Hne its qs (rows db) row 1%nat 0%nat
                nid1 k1 Hrest Hqs Hnone)
      as (row' & k' & Hrun' & Hb' & Hq').
    + eapply Forall_impl; [|exact Hfresh]. intros r Hr. subst row. cbn in Hr |- *. lia.
    + reflexivity.
    + exact Hname.
    + reflexivity.
    + exists row', (mkDb (rows db ++ [row']) nid1 k').
      cbn [for_items]. unfold bind at 1. rewrite Hrun.
      rewrite Hrun'. cbn [Nat.add]. repeat split; assumption.
  - apply reconcile_item_updated in Hrun.
    destruct Hrun as (p & ev & bn & mf & mv & cv & qv & _ & _ & _ & _ & Hm
                      & _).
    rewrite (exact_match_of_batch sid nm b it0 _ Hof) in Hm. congruence.
Qed.

(** Restocking whole quantities that stay within [2^53] adds them. *)
Lemma restock_integers a b :
  0 <= a -> 0 <= b -> a + b <= 2 ^ 53 ->
  restock (of_Z a) (of_Z b) = of_Z (a + b).
Proof.
  intros Ha Hb Hab. unfold restock.
  rewrite num_truthy_of_Z by lia.
  destruct (a =? 0) eqn:Ea; cbn [negb].
  - apply Z.eqb_eq in Ea. subst a.
    change zero with (of_Z 0). apply num_add_integers; lia.
  - apply num_add_integers; lia.
Qed.

Lemma restock_sums zs : forall z0,
  0 <= z0 -> Forall (fun z => 0 <= z) zs ->
  z0 + fold_right Z.add 0 zs <= 2 ^ 53 ->
  fold_left restock (map of_Z zs) (of_Z z0)
  = of_Z (z0 + fold_right Z.add 0 zs).
Proof.
  induction zs as [|z zs IH]; intros z0 H0 Hzs Hsum;
    cbn [map fold_left fold_right] in *.
  - rewrite Z.add_0_r. reflexivity.
  - apply Forall_cons_iff in Hzs. destruct Hzs as [Hz Hzs].
    assert (Hrest : 0 <= fold_right Z.add 0 zs).
    { clear - Hzs. induction Hzs; cbn; lia. }
    rewrite restock_integers by lia.
    rewrite IH by (try assumption; lia). f_equal. lia.
Qed.

(** X3. The quantities add up: a batch the store does not hold,
    imported [N] times under a non-empty batch number, with whole
    quantities that are not negative and whose total stays within
    [2^53] (where a double still holds every whole number), ends as one
    batch holding their sum, created once and restocked by every later
    item. *)
Corollary repeated_import_sums h sid nm b it0 its z0 zs db :
  (forall n, fault h n = false) ->
  b <> "" ->
  Forall (fun r => (id r < nextId db)%nat) (rows db) ->
  Forall (fun it => of_batch nm b it /\ well_typed it = true) (it0 :: its) ->
  exactBatchMatch_of (JStr b) (family sid nm (rows db)) = None ->
  Number_or_0 (Item.quantity it0) = Some (of_Z z0) ->
  Forall2 (fun it z => Number_or_0 (Item.quantity it) = Some (of_Z z))
    its zs ->
  Forall (fun z => 0 <= z) (z0 :: zs) ->
  z0 + fold_right Z.add 0 zs <= 2 ^ 53 ->
  exists row db',
    for_items (reconcile_item h sid) (it0 :: its) 0%nat 0%nat db
      = (Ok (1%nat, List.length its), db') /\
    rows db' = rows db ++ [row] /\
    quantity row = of_Z (z0 + fold_right Z.add 0 zs).
Proof.
  intros Hf Hne Hfresh Hits Hnone Hq0 Hqs Hpos Hsum.
  apply Forall_cons_iff in Hpos. destruct Hpos as [H0 Hzs].
  assert (Hqs' : Forall2 (fun it q => Number_or_0 (Item.quantity it) = Some q)
                   its (map of_Z zs)).
  { clear - Hqs. induction Hqs; cbn; constructor; assumption. }
  destruct (repeated_import_restocks h sid nm b it0 its (of_Z z0)
              (map of_Z zs) db Hf Hne Hfresh Hits Hnone Hq0 Hqs')
    as (row & db' & Hrun & Hrows & _ & Hq).
  exists row, db'. split; [exact Hrun|]. split; [exact Hrows|].
  rewrite Hq. apply restock_sums; assumption.
Qed.

(* ================================================================== *)
(** ** The empty batch number                                           *)
(* ================================================================== *)

(** A batch created from an item whose batch number is the empty string
    is stored without a batch number, and the empty string is not
    strictly equal to that: the item has no exact match afterwards
    either. *)
Lemma empty_batch_stays_unmatched h sid item db db' :
  Item.batch_number item = JStr "" ->
  reconcile_item h sid item db = (Ok Created, db') ->
  exact_match sid item (rows db') = None.
Proof.
  intros Hb H. apply reconcile_item_created in H.
  destruct H as (ev & sk & bn & mf & mv & cv & qv & _ & _ & _ & _ & Hm & Hbn & _ & Hrows & _).
  apply to_column_or_undefined in Hbn. rewrite Hb in Hbn. cbn in Hbn.
  subst bn. unfold exact_match, exactBatchMatch_of, family in *.
  rewrite Hrows, filter_app.
  set (f := fun p : Product => batch_equals (batchNumber p) _) in *.
  destruct (find f (filter _ (rows db) ++ filter _ [_])) as [p|] eqn:E;
    [|reflexivity].
  exfalso. apply find_some in E. destruct E as [Hin Hf].
  apply in_app_or in Hin. destruct Hin as [Hin|Hin].
  - apply (find_none _ _ Hm) in Hin. congruence.
  - apply filter_In in Hin. destruct Hin as [[<-|[]] _].
    subst f. cbn in Hf. rewrite Hb in Hf. discriminate.
Qed.

(** C1, at the input where the code leaves it.  An item with an empty
    batch number, confirmed twice against a store that starts empty, is
    created twice: the batch the first import created has no batch
    number and is not the exact match of the same item.  The earlier
    handler stores the empty string and updates on the second import. *)
Theorem empty_batch_number_is_never_matched :
  let item := dolo (JStr "") 5 30 in
  exists row db1 db2,
    confirmImport steady_host (request [item]) empty_db
      = (Confirmed 1 0, db1) /\
    rows db1 = [row] /\ batchNumber row = None /\
    equals_insensitive (name row) (Item.medicine_name item) = true /\
    exact_match "store-1" item (rows db1) = None /\
    confirmImport steady_host (request [item]) db1 = (Confirmed 1 0, db2) /\
    List.length (rows db2) = 2%nat /\
    exists db1' db2',
      confirmImport_legacy steady_host (request [item]) empty_db
        = (Confirmed 1 0, db1') /\
      confirmImport_legacy steady_host (request [item]) db1'
        = (Confirmed 0 1, db2') /\
      List.length (rows db2') = 1%nat.
Proof.
  cbv zeta. do 3 eexists.
  split; [vm_compute; reflexivity|].
  split; [reflexivity|].
  split; [reflexivity|].
  split; [vm_compute; reflexivity|].
  split; [vm_compute; reflexivity|].
  split; [vm_compute; reflexivity|].
  split; [reflexivity|].
  do 2 eexists.
  split; [vm_compute; reflexivity|].
  split; [vm_compute; reflexivity|reflexivity].
Qed.

(** C2, at the input where the code leaves it.  Two items of the same
    name and the same, empty, batch number with quantities 5 and 7 leave
    two batches of 5 and of 7, none of 12; with the batch number
    ["B-1"] they leave one batch of 12. *)
Theorem empty_batch_quantities_are_not_summed :
  (exists db',
     confirmImport steady_host
       (request [dolo (JStr "") 5 30; dolo (JStr "") 7 30]) empty_db
       = (Confirmed 2 0, db') /\
     map quantity (rows db') = [of_Z 5; of_Z 7]) /\
  (exists db',
     confirmImport steady_host
       (request [dolo (JStr "B-1") 5 30; dolo (JStr "B-1") 7 30]) empty_db
       = (Confirmed 1 1, db') /\
     map quantity (rows db') = [of_Z 12]).
Proof.
  split; eexists; (split; [vm_compute; reflexivity|reflexivity]).
Qed.

(* ================================================================== *)
(** ** Where the code departs from the specification                    *)
(* ================================================================== *)

(** C5: a rejected model call does not leave [parseBillText] as an
    error; the stage returns [{ items: [] }]. *)
Lemma rejected_call_is_swallowed :
  let pf := scripted_platform [] (fun _ => Rejected (Error "503")) in
  chat pf 0 "text" = Rejected (Error "503") /\
  parseBillText pf "text" 0%nat = (Ok no_items, 1%nat) /\
  fst (parseBillText pf "text" 0%nat) <> Throw (Error "503").
Proof.
  cbv zeta. split; [reflexivity|]. split; [reflexivity|].
  intros H. discriminate H.
Qed.

(** C6: a negative quantity is kept negative. *)
Lemma negative_quantity_is_kept :
  let pf := scripted_platform [] (fun _ => Resolved []) in
  exists e,
    normalize_item pf (JObj [("medicine_name", JStr "X");
                             ("quantity", JNum (of_Z (-5)))]) = Ok e /\
    Extracted.quantity e = of_Z (-5) /\
    num_lt0 (Extracted.quantity e) = true.
Proof. cbv zeta. eexists. repeat split. Qed.

(** C7: month 13 of the short form is January of the next year, and
    the year 0026 of the long form is 1926. *)
Lemma month_13_rolls_over :
  short_form (chars "13") "/"%char "2"%char "6"%char /\
  parseExpiryDate steady_host (JStr "13/26")
    = Ok (Some (mkDate 2027 0 1 0)) /\
  getFullYear (mkDate 2027 0 1 0) <> century 26 /\
  iso_form (chars "0026") (chars "05") /\
  parseExpiryDate steady_host (JStr "0026-05")
    = Ok (Some (mkDate 1926 4 1 0)) /\
  mkDate 1926 4 1 0 <> first_day_of steady_host 26 5.
Proof.
  split; [unfold short_form; cbn; auto 10|].
  split; [reflexivity|].
  split; [vm_compute; discriminate|].
  split; [unfold iso_form; cbn; auto 10|].
  split; [reflexivity|].
  vm_compute. discriminate.
Qed.


(** C8: the answer to a failure on the first item and the answer to a
    failure on the second item are the same, though no item was
    processed before the one and one item before the other. *)
Lemma failure_reply_carries_no_count :
  let req := request [dolo (JStr "B-1") 5 30; dolo (JStr "B-1") 7 30] in
  let early := confirmImport (host_failing_at 0) req empty_db in
  let late := confirmImport (host_failing_at 2) req empty_db in
  rows (snd early) = [] /\
  List.length (rows (snd late)) = 1%nat /\
  respond (fst early) = respond (fst late) /\
  respond (fst late) = mkResponse 500 false "Failed to save inventory".
Proof. cbv zeta. repeat split. Qed.

(** C9: a first page that carries a supplier name but no invoice number
    gives the invoice nothing; the invoice, supplier name included, is
    the second page's. *)
Lemma first_page_without_number_is_passed_over :
  exists p1 p2 data invoice,
    page_results two_pages ["p1.png"; "p2.png"] 1%nat
      = (Ok [p1; p2], 7%nat) /\
    supplierName p1 = JStr "Early" /\
    importBill two_pages (Some (mkFile "up/bill.pdf" "application/pdf"))
      0%nat = (Imported data invoice, 7%nat) /\
    inv_supplierName invoice = JStr "Late" /\
    invoice = invoice_of p2.
Proof.
  do 4 eexists.
  split; [vm_compute; reflexivity|].
  split; [reflexivity|].
  split; [vm_compute; reflexivity|].
  split; reflexivity.
Qed.

(* ================================================================== *)
(** ** The theorems at work                                             *)
(* ================================================================== *)

(** A second import of batch B-1 at MRP 99 leaves the stored MRP 30. *)
Lemma update_path_fill_only_witness :
  exists db',
    reconcile_item steady_host "store-1" (dolo (JStr "B-1") 7 99) stocked_db
      = (Ok Updated, db') /\
    exists q, row_by_id 0 (rows db') = Some q /\ mrp q = Some (of_Z 30).
Proof.
  eexists. split; [vm_compute; reflexivity|].
  match goal with
  | |- exists q, row_by_id _ (rows ?d) = _ /\ _ =>
      destruct (update_path_fill_only steady_host "store-1"
                  (dolo (JStr "B-1") 7 99) stocked_db d eq_refl)
        as (p & q & Hm & Hq & Hkeep & _)
  end.
  vm_compute in Hm. inversion Hm; subst p. clear Hm.
  exists q. split; [exact Hq|].
  apply Hkeep; reflexivity.
Defined.

(** The first import of batch B-1 creates it with the defaults. *)
Lemma create_path_fields_witness :
  exists db',
    reconcile_item steady_host "store-1" (dolo (JStr "B-1") 5 30) empty_db
      = (Ok Created, db') /\
    exists row,
      rows db' = [row] /\
      quantity row = of_Z 5 /\ batchNumber row = Some "B-1" /\
      sellingPrice row = Some (of_Z 30) /\ costPrice row = Some (of_Z 20) /\
      manufacturer row = Some "ACME" /\
      category row = "MEDICINE" /\ unit row = "pcs" /\
      reorderLevel row = of_Z 10.
Proof.
  eexists. split; [vm_compute; reflexivity|].
  match goal with
  | |- exists row, rows ?d = _ /\ _ =>
      destruct (create_path_fields steady_host "store-1"
                  (dolo (JStr "B-1") 5 30) empty_db d eq_refl)
        as (row & Hrows & _ & _ & _ & Hq & Hb & _ & _ & Hc & Hs & Hm
            & Hdef & _)
  end.
  exists row. split; [exact Hrows|].
  destruct (Hdef eq_refl) as (Hcat & Hunit & Hre).
  split; [vm_compute in Hq |- *; congruence|].
  split; [exact Hb|].
  split; [rewrite Hs; vm_compute; reflexivity|].
  split; [rewrite Hc; vm_compute; reflexivity|].
  repeat split; assumption.
Defined.

(** A quantity that is no number comes out as 0; a quantity that no
    conversion accepts throws, and empties the bill it is part of. *)
Lemma normalize_item_coerces_witness :
  let pf := scripted_platform []
              (fun _ => Resolved [Some unconvertible_response]) in
  (exists e,
     normalize_item pf
       (JObj [("medicine_name", JStr "X"); ("quantity", JStr "abc")])
     = Ok e /\
     Extracted.quantity e = zero) /\
  normalize_item pf (JObj [("quantity", JObj [("toString", JNum (of_Z 1))])])
  = Throw TypeError /\
  parseBillText pf "text" 0%nat = (Ok no_items, 1%nat).
Proof.
  cbv zeta. split; [|split].
  - destruct (proj1 (normalize_item_coerces
                       (scripted_platform []
                          (fun _ => Resolved [Some unconvertible_response]))
                       [("medicine_name", JStr "X"); ("quantity", JStr "abc")])
                eq_refl)
      as (e & He & _ & _ & _ & (_ & n & Hn & _ & Hzero) & _).
    exists e. split; [exact He|].
    vm_compute in Hn. inversion Hn; subst n. apply Hzero. reflexivity.
  - exact (proj1 (proj1 (proj2 (normalize_item_coerces
                                  (scripted_platform []
                                     (fun _ =>
                                        Resolved
                                          [Some unconvertible_response]))
                                  [("quantity",
                                    JObj [("toString", JNum (of_Z 1))])]))
                    eq_refl)).
  - apply (proj2 (proj1 (proj2 (normalize_item_coerces
                                  (scripted_platform []
                                     (fun _ =>
                                        Resolved
                                          [Some unconvertible_response]))
                                  [("quantity",
                                    JObj [("toString", JNum (of_Z 1))])]))
                    eq_refl)
             "text" 0%nat (Some unconvertible_response) []
             [("items",
               JArr [JObj [("medicine_name", JStr "A")];
                     JObj [("quantity",
                            JObj [("toString", JNum (of_Z 1))])]]);
              ("invoiceNumber", JStr "INV-7")]
             [JObj [("medicine_name", JStr "A")]] []).
    + reflexivity.
    + vm_compute. reflexivity.
    + reflexivity.
Defined.

(** Plain prose from the model parses to nothing and throws nothing. *)
Lemma parseBillText_never_throws_witness :
  let pf := scripted_platform []
              (fun _ => Resolved [Some "Sorry, I cannot read this bill."]) in
  JSON_parse pf (json_candidate (Some "Sorry, I cannot read this bill."))
    = None /\
  parseBillText pf "text" 0%nat = (Ok no_items, 1%nat).
Proof.
  cbv zeta. split; [vm_compute; reflexivity|].
  destruct (parseBillText_never_throws
              (scripted_platform []
                 (fun _ => Resolved [Some "Sorry, I cannot read this bill."]))
              "text" 0%nat) as (bill & Hrun & Hparse & _).
  rewrite Hrun. f_equal. f_equal.
  apply (Hparse (Some "Sorry, I cannot read this bill.") []).
  - reflexivity.
  - vm_compute; reflexivity.
Defined.

(** ["05/26"] is 1 May 2026, ["2025-11"] is 1 November 2025,
    ["99/49"] is 1 March 2057, ["00-26"] is 1 December 2025, and
    ["not-a-date"] is no date. *)
Lemma parseExpiryDate_rules_witness :
  (short_form (chars "05") "/"%char "2"%char "6"%char /\
   1 <= digits_value (chars "05") <= 12 /\
   parseExpiryDate steady_host (JStr "05/26")
     = Ok (Some (first_day_of steady_host 2026 5))) /\
  (iso_form (chars "2025") (chars "11") /\
   100 <= digits_value (chars "2025") /\
   1 <= digits_value (chars "11") <= 12 /\
   parseExpiryDate steady_host (JStr "2025-11")
     = Ok (Some (first_day_of steady_host 2025 11))) /\
  (short_form (chars "99") "/"%char "4"%char "9"%char /\
   parseExpiryDate steady_host (JStr "99/49")
     = Ok (Some (first_day_of steady_host 2057 3))) /\
  (short_form (chars "00") "-"%char "2"%char "6"%char /\
   parseExpiryDate steady_host (JStr "00-26")
     = Ok (Some (first_day_of steady_host 2025 12))) /\
  parseExpiryDate steady_host (JStr "not-a-date") = Ok None.
Proof.
  assert (Hs0 : short_form (chars "00") "-"%char "2"%char "6"%char)
    by (unfold short_form; cbn; auto 10).
  assert (Hs : short_form (chars "05") "/"%char "2"%char "6"%char)
    by (unfold short_form; cbn; auto 10).
  assert (Hs' : short_form (chars "99") "/"%char "4"%char "9"%char)
    by (unfold short_form; cbn; auto 10).
  assert (Hi : iso_form (chars "2025") (chars "11"))
    by (unfold iso_form; cbn; auto 10).
  assert (Hm5 : 1 <= digits_value (chars "05") <= 12) by (vm_compute; split; discriminate).
  assert (Hy : 100 <= digits_value (chars "2025")) by (vm_compute; discriminate).
  assert (Hm11 : 1 <= digits_value (chars "11") <= 12) by (vm_compute; split; discriminate).
  destruct (parseExpiryDate_rules steady_host)
    as (_ & Hshort & Hiso & _ & Hfall & _).
  split; [|split; [|split; [|split]]].
  - split; [exact Hs|]. split; [exact Hm5|].
    destruct (Hshort (chars "05") "/"%char "2"%char "6"%char Hs)
      as [Hrun Hcal].
    rewrite (Hcal Hm5) in Hrun. exact Hrun.
  - split; [exact Hi|]. split; [exact Hy|]. split; [exact Hm11|].
    destruct (Hiso (chars "2025") (chars "11") Hi) as [Hrun Hcal].
    rewrite (Hcal Hy Hm11) in Hrun. exact Hrun.
  - split; [exact Hs'|].
    exact (proj1 (Hshort (chars "99") "/"%char "4"%char "9"%char Hs')).
  - split; [exact Hs0|].
    exact (proj1 (Hshort (chars "00") "-"%char "2"%char "6"%char Hs0)).
  - apply (Hfall "not-a-date").
    + discriminate.
    + intros month sep y1 y2 ([Hl|Hl] & _) Heq;
        apply (f_equal (@List.length ascii)) in Heq;
        rewrite length_app, Hl in Heq; discriminate Heq.
    + intros year month (Hl & _ & [Hl'|Hl'] & _) Heq;
        apply (f_equal (@List.length ascii)) in Heq;
        rewrite length_app in Heq; cbn [List.length] in Heq;
        rewrite Hl, Hl' in Heq; discriminate Heq.
Defined.

(** A rejection on the second item of two: the first stays created. *)
Lemma failure_aborts_without_rollback_witness :
  let h := host_failing_at 2 in
  exists db1 db2,
    "store-1" <> "" /\
    for_items (reconcile_item h "store-1") [dolo (JStr "B-1") 5 30]
      0%nat 0%nat empty_db = (Ok (1%nat, 0%nat), db1) /\
    reconcile_item h "store-1" (dolo (JStr "B-1") 7 30) db1
      = (Throw PrismaError, db2) /\
    confirmImport h
      (mkRequest (Some "store-1")
         (Some ([dolo (JStr "B-1") 5 30] ++
                dolo (JStr "B-1") 7 30 :: [dolo (JStr "B-2") 1 30])))
      empty_db = (SaveFailed, db2) /\
    rows db2 = rows db1.
Proof.
  cbv zeta. do 2 eexists.
  split; [discriminate|].
  split; [vm_compute; reflexivity|].
  split; [vm_compute; reflexivity|].
  match goal with
  | |- confirmImport ?h (mkRequest (Some ?sid) (Some (?done ++ ?it :: ?rest)))
         ?db = (SaveFailed, ?d2) /\ rows ?d2 = rows ?d1 =>
      destruct (failure_aborts_without_rollback h sid done it rest db
                  1%nat 0%nat d1 PrismaError d2)
        as (Hrun & Hrows & _)
  end.
  - discriminate.
  - reflexivity.
  - reflexivity.
  - split; [exact Hrun|exact Hrows].
Defined.

(** The two-page PDF: both items in page order, the second page's
    invoice. *)
Lemma importBill_first_page_wins_witness :
  exists data invoice,
    importBill two_pages (Some (mkFile "up/bill.pdf" "application/pdf"))
      0%nat = (Imported data invoice, 7%nat) /\
    exists imgs w0 pages,
      page_results two_pages imgs w0 = (Ok pages, 7%nat) /\
      map extracted data = List.concat (map items pages).
Proof.
  do 2 eexists. split; [vm_compute; reflexivity|].
  match goal with
  | |- exists imgs w0 pages, _ /\ map extracted ?d = _ =>
      match type of d with
      | _ =>
          destruct (importBill_first_page_wins two_pages
                      (mkFile "up/bill.pdf" "application/pdf") 0%nat d
                      _ 7%nat eq_refl)
            as (imgs & w0 & pages & _ & Hp & Hitems & _)
      end
  end.
  exists imgs, w0, pages. split; assumption.
Defined.


(** ** The scenarios of the specification, run *)

(** A response wrapped in a fenced block decodes to one item with
    numeric quantity and price and an empty batch number. *)
Example fenced_response_scenario :
  let pf :=
    scripted_platform []
      (fun _ =>
         Resolved [Some (json_text
           "```json {'items':[{'medicine_name':'X','quantity':'10','mrp':'50'}]} ```")]) in
  parseBillText pf "text" 0%nat
  = (Ok (mkParsed JUndefined JUndefined JUndefined (JNum zero)
           [Extracted.make "X" (of_Z 10) "" "" (of_Z 50) zero]),
     1%nat).
Proof. vm_compute. reflexivity. Qed.

(** A new batch number for a name the store holds as a tablet is created
    as a tablet; a name the store does not hold is created with the
    defaults. *)
Example blueprint_scenario :
  let held :=
    mkProduct 0 "store-1" "Paracetamol 500" "PAR-A1-1" (of_Z 4) (Some "A1")
      None (Some (of_Z 12)) (Some (of_Z 9)) (Some (of_Z 12)) None
      "TABLET" "strip" (of_Z 25) None in
  let item nm :=
    Item.make nm (JStr "A2") (JNum (of_Z 6)) (JNum (of_Z 12))
      (JNum (of_Z 9)) JUndefined JUndefined in
  let after nm :=
    rows (snd (confirmImport steady_host (request [item nm])
                 (mkDb [held] 1 0))) in
  map (fun r => (category r, unit r, reorderLevel r))
      (after "PARACETAMOL 500")
  = [("TABLET", "strip", of_Z 25); ("TABLET", "strip", of_Z 25)] /\
  map (fun r => (category r, unit r, reorderLevel r)) (after "Dolo 650")
  = [("TABLET", "strip", of_Z 25); ("MEDICINE", "pcs", of_Z 10)].
Proof. split; vm_compute; reflexivity. Qed.

(* ================================================================== *)
(** ** Further properties of the code                                   *)
(* ================================================================== *)

(** *** A created batch is found again *)

(** X1. A batch created from an item with a non-empty batch number is
    listed last with that batch number, and is from then on the exact
    match of every item of the same name (whatever its letter case)
    and batch number. *)
Theorem created_batch_is_matched_next h sid item b db db' :
  Item.batch_number item = JStr b ->
  b <> "" ->
  reconcile_item h sid item db = (Ok Created, db') ->
  exists row,
    rows db' = rows db ++ [row] /\
    batchNumber row = Some b /\
    forall item',
      toLowerCase (Item.medicine_name item')
        = toLowerCase (Item.medicine_name item) ->
      Item.batch_number item' = JStr b ->
      exact_match sid item' (rows db') = Some row.
Proof.
  intros Hb Hne H. apply reconcile_item_created in H.
  destruct H as (ev & sk & bn & mf & mv & cv & qv & _ & _ & _ & _ & Hm & Hbn & _ & Hrows & _).
  apply to_column_or_undefined in Hbn. rewrite Hb in Hbn. cbn in Hbn.
  destruct (String.eqb b "") eqn:Eb;
    [apply String.eqb_eq in Eb; contradiction|]. subst bn.
  eexists. split; [exact Hrows|]. split; [reflexivity|].
  intros item' Hn' Hb'.
  rewrite (exact_match_of_batch sid (Item.medicine_name item) b item' _
             (conj Hn' Hb')).
  rewrite Hrows. apply exact_match_last.
  - rewrite <- Hm. symmetry. apply exact_match_of_batch. split; auto.
  - reflexivity.
  - reflexivity.
  - reflexivity.
Qed.

(** *** The rest of the update *)

Lemma matched_batch_number_stays stored batch bn :
  batch_equals stored batch = true ->
  to_column (or (or (of_column stored) batch) JUndefined) = Ok bn ->
  set_opt bn stored = stored.
Proof.
  unfold or. destruct stored as [s|]; destruct batch; cbn; try discriminate.
  - intros He. apply String.eqb_eq in He. subst s0.
    destruct (String.eqb s "") eqn:Es; cbn; rewrite ?Es; cbn;
      intros H; inversion H; reflexivity.
  - intros _ H. inversion H. reflexivity.
Qed.

Lemma In_map_updated (g : Product -> Product) i p rs :
  In p rs -> id p = i ->
  In (g p) (map (fun r => if Nat.eqb (id r) i then g r else r) rs).
Proof.
  intros Hin Hid. apply in_map_iff. exists p. split; [|exact Hin].
  rewrite (proj2 (Nat.eqb_eq _ _) Hid). reflexivity.
Qed.

(** X2. On the update path the matched batch keeps its batch number;
    its expiry date is kept when it has one and is otherwise the item's
    parsed date; its manufacturer is kept when it is a non-empty string
    and is otherwise the item's supplier, when that is a non-empty
    string, and stays as it is when the item names none. *)
Theorem update_path_keeps_batch_and_fills_the_rest h sid item db db' :
  reconcile_item h sid item db = (Ok Updated, db') ->
  exists p q ev,
    exact_match sid item (rows db) = Some p /\
    expiry_of h item = Ok ev /\
    In q (rows db') /\ id q = id p /\
    batchNumber q = batchNumber p /\
    (forall d, expiryDate p = Some d -> expiryDate q = Some d) /\
    (expiryDate p = None -> expiryDate q = ev) /\
    (forall m, manufacturer p = Some m -> m <> "" ->
               manufacturer q = Some m) /\
    (manufacturer p = None \/ manufacturer p = Some "" ->
     forall s, text_of (Item.supplier item) = Some s ->
               manufacturer q = Some s) /\
    (manufacturer p = None \/ manufacturer p = Some "" ->
     text_of (Item.supplier item) = None ->
     manufacturer q = manufacturer p).
Proof.
  intros H. apply reconcile_item_updated in H.
  destruct H as (p & ev & bn & mf & mv & cv & qv & _ & _ & _ & Hev & Hm & Hrows & _ & _ & Hbn & Hmf).
  destruct (exact_match_family _ _ _ _ Hm) as (Hin & _ & _ & Hbe).
  exists p, (apply_update (update_fields mv cv qv p ev bn mf) p), ev.
  split; [exact Hm|]. split; [exact Hev|].
  split; [rewrite Hrows; apply In_map_updated; auto|].
  split; [reflexivity|]. cbn.
  split; [exact (matched_batch_number_stays _ _ _ Hbe Hbn)|].
  split; [intros d ->; reflexivity|].
  split; [intros ->; destruct ev; reflexivity|].
  assert (Hfill : manufacturer p = None \/ manufacturer p = Some "" ->
                  mf = text_of (Item.supplier item)).
  { intros [Hp|Hp]; rewrite Hp in Hmf; cbn in Hmf;
      apply to_column_or_undefined in Hmf; exact Hmf. }
  split; [|split].
  - intros m Hp Hne. rewrite Hp in Hmf |- *. unfold or in Hmf.
    cbn [of_column truthy] in Hmf.
    destruct (String.eqb m "") eqn:Em;
      [apply String.eqb_eq in Em; contradiction|].
    cbn in Hmf. rewrite Em in Hmf. cbn in Hmf. inversion Hmf. reflexivity.
  - intros Hp s Hs. rewrite (Hfill Hp), Hs. reflexivity.
  - intros Hp Hs. rewrite (Hfill Hp), Hs. reflexivity.
Qed.

(** *** What no import touches *)

Lemma identity_apply_update d r : identity (apply_update d r) = identity r.
Proof. reflexivity. Qed.

Lemma identity_map_updated d i rs :
  map identity (map (fun r => if Nat.eqb (id r) i then apply_update d r
                              else r) rs)
  = map identity rs.
Proof.
  rewrite map_map. apply map_ext. intros r.
  destruct (Nat.eqb (id r) i); reflexivity.
Qed.

Lemma reconcile_item_identity h sid item db r db' :
  reconcile_item h sid item db = (r, db') ->
  exists added, map identity (rows db') = map identity (rows db) ++ added.
Proof.
  destruct r as [[|]|e]; intros H.
  - apply reconcile_item_created in H.
    destruct H as (ev & sk & bn & mf & mv & cv & qv & _ & _ & _ & _ & _ & _ & _ & Hrows & _).
    rewrite Hrows, map_app. eauto.
  - apply reconcile_item_updated in H.
    destruct H as (p & ev & bn & mf & mv & cv & qv & _ & _ & _ & _ & _ & Hrows & _).
    exists []. rewrite Hrows, identity_map_updated, app_nil_r. reflexivity.
  - apply reconcile_item_throw in H. destruct H as [Hrows _].
    exists []. rewrite Hrows, app_nil_r. reflexivity.
Qed.

Lemma for_items_identity h sid items c u db r db' :
  for_items (reconcile_item h sid) items c u db = (r, db') ->
  exists added, map identity (rows db') = map identity (rows db) ++ added.
Proof.
  revert c u db. induction items as [|it items IH]; intros c u db; cbn.
  - unfold ret. intros H. inversion H. exists []. rewrite app_nil_r.
    reflexivity.
  - unfold bind.
    destruct (reconcile_item h sid it db) as [[b|e] db1] eqn:Hit.
    + intros H.
      destruct (reconcile_item_identity _ _ _ _ _ _ Hit) as [a1 H1].
      assert (exists a2, map identity (rows db')
                         = map identity (rows db1) ++ a2) as [a2 H2]
        by (destruct b; eapply IH; exact H).
      exists (a1 ++ a2). rewrite H2, H1, app_assoc. reflexivity.
    + intros H. inversion H; subst.
      exact (reconcile_item_identity _ _ _ _ _ _ Hit).
Qed.

(** X4. Whatever [confirmImport] answers, the batches the store held are
    still there, in their order, each with its id, store, name, SKU,
    category, unit, reorder level and description; what is new comes
    after them. *)
Theorem confirmImport_never_deletes_or_renames h req db reply db' :
  confirmImport h req db = (reply, db') ->
  exists added, map identity (rows db') = map identity (rows db) ++ added.
Proof.
  unfold confirmImport, handler. intros H.
  assert (Hsame : (reply, db') = (InvalidRequest, db) ->
                  exists added,
                    map identity (rows db') = map identity (rows db) ++ added).
  { intros E. inversion E. exists []. rewrite app_nil_r. reflexivity. }
  destruct (req_storeId req) as [sid|]; [|auto].
  destruct (body_items req) as [its|]; [|auto].
  destruct (String.eqb sid ""); [auto|].
  destruct (for_items _ its 0%nat 0%nat db) as [[[c u]|e] db1] eqn:Hrun;
    inversion H; subst; exact (for_items_identity _ _ _ _ _ _ _ _ Hrun).
Qed.

(** *** Values of the wrong type *)

Lemma parseExpiryDate_throws h v :
  truthy v = true -> is_string v = false ->
  parseExpiryDate h v = Throw TypeError.
Proof.
  intros Ht Hs. unfold parseExpiryDate. rewrite Ht.
  destruct v; try reflexivity; discriminate.
Qed.

Lemma batch_equals_string_or_null stored batch :
  batch_equals stored batch = true ->
  is_string batch = true \/ batch = JNull.
Proof. destruct stored, batch; cbn; try discriminate; auto. Qed.

(** X5. A first item whose [expiry_date] is truthy and not a string
    fails the import before anything is read or written; one whose
    [batch_number] is truthy and not a string fails it too, and leaves
    the batches as they were. *)
Theorem wrong_typed_item_fails_the_import h sid item rest db :
  sid <> "" ->
  (truthy (Item.expiry_date item) = true /\
   is_string (Item.expiry_date item) = false ->
   confirmImport h (mkRequest (Some sid) (Some (item :: rest))) db
   = (SaveFailed, db)) /\
  (truthy (Item.batch_number item) = true /\
   is_string (Item.batch_number item) = false ->
   exists db',
     confirmImport h (mkRequest (Some sid) (Some (item :: rest))) db
     = (SaveFailed, db') /\
     rows db' = rows db).
Proof.
  intros Hsid.
  assert (Es : String.eqb sid "" = false)
    by (apply String.eqb_neq; exact Hsid).
  unfold confirmImport, handler. cbn [req_storeId body_items for_items].
  rewrite Es. split.
  - intros [Ht Hs]. unfold bind at 1.
    unfold reconcile_item, bind, lift, expiry_of.
    rewrite Ht, (parseExpiryDate_throws h _ Ht Hs).
    destruct (or_TypeError (Number_or_0 (Item.mrp item))); [|reflexivity].
    destruct (or_TypeError (Number_or_0 (Item.rate item))); [|reflexivity].
    destruct (or_TypeError (Number_or_0 (Item.quantity item))); reflexivity.
  - intros [Ht Hs]. unfold bind at 1.
    destruct (reconcile_item h sid item db) as [[b|e] db1] eqn:Hit.
    + exfalso. destruct b.
      * apply reconcile_item_created in Hit.
        destruct Hit as (ev & sk & bn & mf & mv & cv & qv & _ & _ & _ & _ & _ & Hbn & _).
        unfold or in Hbn. rewrite Ht in Hbn.
        destruct (Item.batch_number item); cbn in Hs, Hbn; discriminate.
      * apply reconcile_item_updated in Hit.
        destruct Hit as (p & ev & bn & mf & mv & cv & qv & _ & _ & _ & _ & Hm & _).
        destruct (exact_match_family _ _ _ _ Hm) as (_ & _ & _ & Hbe).
        destruct (batch_equals_string_or_null _ _ Hbe) as [Hstr|Hnull].
        -- congruence.
        -- rewrite Hnull in Ht. discriminate.
    + exists db1. split; [reflexivity|].
      apply (reconcile_item_throw _ _ _ _ _ _ Hit).
Qed.

(** *** The tallies are the truth *)

Lemma for_items_counts h sid items c u db c' u' db' :
  for_items (reconcile_item h sid) items c u db = (Ok (c', u'), db') ->
  (List.length (rows db') + c = List.length (rows db) + c')%nat /\
  (nextId db' + c = nextId db + c')%nat /\
  (calls db' = calls db + 2 * List.length items)%nat.
Proof.
  revert c u db. induction items as [|it items IH]; intros c u db; cbn.
  - unfold ret. intros H. inversion H. lia.
  - unfold bind.
    destruct (reconcile_item h sid it db) as [[[|]|e] db1] eqn:Hit;
      try discriminate; intros H; apply IH in H.
    + apply reconcile_item_created in Hit.
      destruct Hit as (ev & sk & bn & mf & mv & cv & qv & _ & _ & _ & _ & _ & _ & _ & Hrows & Hnid & Hk).
      rewrite Hrows, length_app in H. cbn [List.length] in H. lia.
    + apply reconcile_item_updated in Hit.
      destruct Hit as (p & ev & bn & mf & mv & cv & qv & _ & _ & _ & _ & _ & Hrows & Hnid & Hk & _).
      rewrite Hrows, length_map in H. lia.
Qed.

(** X6. When [confirmImport] confirms, the store has exactly [created]
    batches more than before, and exactly two persistence calls were
    made for each item counted. *)
Theorem confirmed_counts_are_what_was_done h req db created updated db' :
  confirmImport h req db = (Confirmed created updated, db') ->
  (List.length (rows db') = List.length (rows db) + created)%nat /\
  (calls db' = calls db + 2 * (created + updated))%nat.
Proof.
  unfold confirmImport, handler.
  destruct (req_storeId req) as [sid|]; [|discriminate].
  destruct (body_items req) as [its|]; [|discriminate].
  destruct (String.eqb sid ""); [discriminate|].
  destruct (for_items _ its 0%nat 0%nat db) as [[[c u]|e] db1] eqn:Hrun;
    [|discriminate].
  intros H. inversion H; subst.
  pose proof (for_items_tally _ _ _ _ _ _ _ _ Hrun) as Ht.
  apply for_items_counts in Hrun. lia.
Qed.

(** *** The earlier handler *)

Lemma reconcile_item_legacy_updated h sid item db db' :
  reconcile_item_legacy h sid item db = (Ok Updated, db') ->
  exists p qv,
    exact_match sid item (rows db) = Some p /\
    Number (Item.quantity item) = Some qv /\
    rows db' =
      map (fun r => if Nat.eqb (id r) (id p)
                    then apply_update (legacy_update_fields qv p) r
                    else r) (rows db).
Proof.
  unfold reconcile_item_legacy, exact_match, bind, lift, findMany, update,
    create, call, ret, or_TypeError.
  intros H.
  destruct (fault h (calls db)) eqn:F1; [discriminate H|].
  cbn [rows nextId calls] in H.
  destruct (exactBatchMatch_of _ _) as [p|] eqn:Em.
  - destruct (Number (Item.quantity item)) as [qv|] eqn:Eq;
      [|discriminate H].
    cbn [rows nextId calls] in H.
    destruct (fault h (S (calls db))) eqn:F2; [discriminate H|].
    inversion H; subst. exists p, qv. cbn. auto.
  - destruct (generateSku _ _ _ _) as [[sk|] db1] eqn:Esk; [|discriminate H].
    apply generateSku_state in Esk; subst db1.
    repeat split_match H.
Qed.

Lemma reconcile_item_legacy_created h sid item db db' :
  reconcile_item_legacy h sid item db = (Ok Created, db') ->
  exists row bn,
    exact_match sid item (rows db) = None /\
    to_column (Item.batch_number item) = Ok bn /\
    rows db' = rows db ++ [row] /\
    storeId row = sid /\ name row = Item.medicine_name item /\
    batchNumber row = bn.
Proof.
  unfold reconcile_item_legacy, exact_match, bind, lift, findMany, update,
    create, call, ret.
  intros H.
  destruct (fault h (calls db)) eqn:F1; [discriminate H|].
  cbn [rows nextId calls] in H.
  destruct (exactBatchMatch_of _ _) as [p|] eqn:Em.
  - repeat split_match H.
  - destruct (generateSku _ _ _ _) as [[sk|] db1] eqn:Esk; [|discriminate H].
    apply generateSku_state in Esk; subst db1.
    destruct (Number (Item.quantity item)) as [qv|]; [|discriminate H].
    destruct (legacy_expiry_of h item) as [ex|]; [|discriminate H].
    destruct (Number (Item.mrp item)) as [mv|]; [|discriminate H].
    destruct (Number (Item.rate item)) as [cv|]; [|discriminate H].
    destruct (to_column (Item.batch_number item)) as [bn|] eqn:Ebn;
      [|discriminate H].
    destruct (match ex with Some (Some d) => _ | Some None => _ | None => _
              end) as [ex'|] eqn:Eex; [|discriminate H].
    cbn [rows nextId calls] in H.
    destruct (fault h (S (calls db))) eqn:F2; [discriminate H|].
    inversion H; subst. eexists. exists bn. cbn. auto 10.
Qed.

(** X8. On its update path the earlier [confirmImport] adds
    [Number(item.quantity)] to the stored quantity (with no fallback
    to 0) and writes no other column: prices, batch number, expiry and
    manufacturer stay as stored. *)
Theorem legacy_update_writes_the_quantity_only h sid item db db' :
  reconcile_item_legacy h sid item db = (Ok Updated, db') ->
  exists p q qv,
    exact_match sid item (rows db) = Some p /\
    In q (rows db') /\ identity q = identity p /\
    Number (Item.quantity item) = Some qv /\
    quantity q = num_add (quantity p) qv /\
    mrp q = mrp p /\ costPrice q = costPrice p /\
    sellingPrice q = sellingPrice p /\
    batchNumber q = batchNumber p /\ expiryDate q = expiryDate p /\
    manufacturer q = manufacturer p.
Proof.
  intros H. apply reconcile_item_legacy_updated in H.
  destruct H as (p & qv & Hm & Hqv & Hrows).
  destruct (exact_match_family _ _ _ _ Hm) as (Hin & _).
  exists p, (apply_update (legacy_update_fields qv p) p), qv.
  split; [exact Hm|].
  split; [rewrite Hrows; apply In_map_updated; auto|].
  split; [reflexivity|]. split; [exact Hqv|].
  repeat split.
Qed.

Lemma exact_match_last_any sid nm bn batch rs0 row :
  exactBatchMatch_of batch (family sid nm rs0) = None ->
  storeId row = sid ->
  toLowerCase (name row) = toLowerCase nm ->
  batchNumber row = bn ->
  batch_equals bn batch = true ->
  exactBatchMatch_of batch (family sid nm (rs0 ++ [row])) = Some row.
Proof.
  intros Hnone Hs Hn Hb Hbe. unfold exactBatchMatch_of, family in *.
  rewrite filter_app. cbn [filter].
  unfold equals_insensitive at 2. rewrite Hs, Hn, !String.eqb_refl. cbn.
  set (f := fun p : Product => batch_equals (batchNumber p) batch) in *.
  induction (filter _ rs0) as [|a l IH]; cbn in *.
  - subst f. cbn. rewrite Hb, Hbe. reflexivity.
  - destruct (f a); [discriminate|]. apply IH, Hnone.
Qed.

(** X9. In the earlier [confirmImport] a batch created from an item with
    a string batch number, the empty string included, stores that
    string and is the exact match of the same item afterwards. *)
Theorem legacy_created_batch_is_matched_next h sid item b db db' :
  Item.batch_number item = JStr b ->
  reconcile_item_legacy h sid item db = (Ok Created, db') ->
  exists row,
    rows db' = rows db ++ [row] /\
    batchNumber row = Some b /\
    exact_match sid item (rows db') = Some row.
Proof.
  intros Hb H. apply reconcile_item_legacy_created in H.
  destruct H as (row & bn & Hm & Hbn & Hrows & Hs & Hn & Hbatch).
  rewrite Hb in Hbn. cbn in Hbn. inversion Hbn as [Hbn'].
  rewrite <- Hbn' in Hbatch. clear Hbn Hbn'.
  exists row. split; [exact Hrows|]. split; [exact Hbatch|].
  unfold exact_match in *. rewrite Hrows, Hb in *.
  apply (exact_match_last_any sid _ (Some b) (JStr b) (rows db) row Hm Hs).
  - rewrite Hn. reflexivity.
  - exact Hbatch.
  - cbn. apply String.eqb_refl.
Qed.

(** *** [generateSku] *)

Lemma nearest_even_le n d T :
  0 < d -> 2 * n < (2 * T + 1) * d -> nearest_even n d <= T.
Proof.
  intros Hd Hn. unfold nearest_even.
  pose proof (Z.div_mod n d ltac:(lia)) as Hdm.
  pose proof (Z.mod_pos_bound n d Hd) as Hr.
  destruct (2 * (n mod d) <? d) eqn:E1.
  - apply Z.ltb_lt in E1. nia.
  - apply Z.ltb_ge in E1.
    assert (n / d < T) by nia.
    destruct (d <? 2 * (n mod d)); [lia|].
    destruct (Z.even (n / d)); lia.
Qed.

Lemma nearest_even_nonneg n d : 0 <= n -> 0 < d -> 0 <= nearest_even n d.
Proof.
  intros Hn Hd. unfold nearest_even.
  pose proof (Z.div_pos n d Hn Hd).
  destruct (_ <? _); [lia|]. destruct (_ <? _); [lia|].
  destruct (Z.even _); lia.
Qed.

Lemma binade_le a d k :
  0 < d -> 0 <= k -> a < d * 2 ^ k -> binade a d <= k - 1.
Proof.
  intros Hd Hk Ha. unfold binade.
  assert (He0 : Z.log2 a - Z.log2 d <= k).
  { assert (Z.log2 a <= Z.log2 (d * 2 ^ k)) by (apply Z.log2_le_mono; lia).
    rewrite Z.log2_mul_pow2 in H by lia. lia. }
  generalize dependent (Z.log2 a - Z.log2 d). intros e0 He0.
  destruct (scaled a d e0) as [n m] eqn:Es.
  destruct (Z.eq_dec e0 k) as [Heq|Hne].
  - subst e0. unfold scaled in Es.
    replace (0 <=? k) with true in Es by (symmetry; apply Z.leb_le; lia).
    inversion Es; subst n m.
    replace (a <? d * 2 ^ k) with true by (symmetry; apply Z.ltb_lt; lia).
    lia.
  - destruct (n <? m); lia.
Qed.

(** A product that stays a whole last place below 999 rounds to a
    double below 999. *)
Lemma round_double_below_999 q :
  (0 <= q)%Q -> (q <= 999 - (999 # 2 ^ 53))%Q ->
  exists x, round_double q = Fin x /\ (0 <= x)%Q /\ (x < 999)%Q.
Proof.
  intros H0 H1. unfold round_double.
  rewrite <- (Qred_correct q) in H0, H1.
  set (q' := Qred q) in *. clearbody q'. clear q.
  destruct q' as [a d]. cbn [Qnum Qden].
  assert (Ha : 0 <= a).
  { unfold Qle in H0. cbn in H0. lia. }
  assert (Hq : a * 2 ^ 53 <= 999 * (2 ^ 53 - 1) * Z.pos d).
  { unfold Qle, Qminus, Qplus, Qopp in H1. cbn [Qnum Qden] in H1.
    change (Z.pos (1 * 2 ^ 53)) with (2 ^ 53) in H1.
    change (999 * Z.pos (2 ^ 53) + - (999) * 1) with (999 * (2 ^ 53 - 1)) in H1.
    lia. }
  destruct ((Z.pos d =? 1) && (Z.abs a <=? 2 ^ 53)) eqn:Efast.
  - exists (a # d). split; [reflexivity|]. split; [exact H0|].
    eapply Qle_lt_trans; [exact H1|]. reflexivity.
  - rewrite (Z.abs_eq a Ha).
    assert (Hlt : a < Z.pos d * 2 ^ 10).
    { assert (999 * (2 ^ 53 - 1) < 2 ^ 10 * 2 ^ 53) by reflexivity. nia. }
    pose proof (binade_le a (Z.pos d) 10 ltac:(lia) ltac:(lia) Hlt) as He.
    set (p := Z.max (binade a (Z.pos d) - 52) (- 1074)).
    assert (Hp : p <= - 43) by lia.
    assert (Hp' : - 1074 <= p) by lia.
    clearbody p.
    unfold scaled.
    replace (0 <=? p) with false by (symmetry; apply Z.leb_gt; lia).
    cbn [andb].
    replace (a <? 0) with false by (symmetry; apply Z.ltb_ge; lia).
    set (P := 2 ^ (- p)).
    assert (HP : 2 ^ 43 <= P) by (apply Z.pow_le_mono_r; lia).
    set (m := nearest_even (a * P) (Z.pos d)).
    assert (Hm0 : 0 <= m) by (apply nearest_even_nonneg; nia).
    assert (Hm1 : m <= 999 * P - 1).
    { apply nearest_even_le; [lia|].
      assert (H53 : 0 < 2 ^ 53) by reflexivity.
      assert (H43 : 1998 * 2 ^ 43 > 2 ^ 53) by reflexivity.
      apply (Z.mul_lt_mono_pos_r (2 ^ 53)); [exact H53|].
      assert (2 * (a * P) * 2 ^ 53 <= 2 * P * (999 * (2 ^ 53 - 1) * Z.pos d))
        by nia.
      assert (2 * P * (999 * (2 ^ 53 - 1) * Z.pos d)
              < (2 * (999 * P - 1) + 1) * Z.pos d * 2 ^ 53); [|lia].
      assert (Hd : 0 < Z.pos d) by lia.
      assert (2 * P * (999 * (2 ^ 53 - 1))
              < (2 * (999 * P - 1) + 1) * 2 ^ 53) by nia.
      nia. }
    exists (Qred (m # Z.to_pos P)). split; [reflexivity|].
    rewrite Qred_correct. unfold Qle, Qlt. cbn [Qnum Qden].
    rewrite Z2Pos.id by lia. split; lia.
Qed.

(** [Math.floor(Math.random() * 999)] for a draw that is a double below
    1: a whole number from 0 to 998. *)
Lemma random_suffix_range r :
  (0 <= r)%Q -> (r <= 1 - (1 # 2 ^ 53))%Q ->
  exists n,
    0 <= n <= 998 /\
    num_floor (num_mul (Fin r) (of_Z 999)) = Fin (n # 1).
Proof.
  intros H0 H1.
  rewrite (of_Z_integer 999) by (vm_compute; discriminate).
  cbn [num_mul].
  destruct (round_double_below_999 (r * (999 # 1))) as (x & -> & Hx0 & Hx1).
  - apply Qmult_le_0_compat; [exact H0|discriminate].
  - setoid_replace (999 - (999 # 2 ^ 53))%Q
      with ((1 - (1 # 2 ^ 53)) * (999 # 1))%Q by reflexivity.
    apply Qmult_le_compat_r; [exact H1|discriminate].
  - exists (Qfloor x). split; [|reflexivity].
    split.
    + change 0 with (Qfloor 0). apply Qfloor_resp_le. exact Hx0.
    + assert (H : (inject_Z (Qfloor x) < inject_Z 999)%Q).
      { eapply Qle_lt_trans; [apply Qfloor_le|exact Hx1]. }
      rewrite <- Zlt_Qlt in H. lia.
Qed.

Lemma filter_string_kept f s :
  forallb f (chars (filter_string f s)) = true.
Proof.
  unfold filter_string. rewrite chars_of_list.
  apply forallb_forall. intros c Hc. apply filter_In in Hc. tauto.
Qed.

(** X10. For a non-empty batch number and a random draw that is a
    double from 0 up to, not including, 1 (so at most [1 - 2^-53]),
    [generateSku] gives the first three characters of the name in upper
    case, the batch number with everything but letters and digits
    removed, and a whole number from 0 to 998, joined by hyphens, and
    changes no state: the product [random * 999], rounded as it is to a
    double, stays below 999.  For a truthy batch number that is not a
    string it throws a [TypeError]. *)
Theorem generateSku_shape h nm batch db :
  (forall b,
     batch = JStr b -> b <> "" ->
     (0 <= Math_random h (calls db))%Q ->
     (Math_random h (calls db) <= 1 - (1 # 2 ^ 53))%Q ->
     exists n,
       0 <= n <= 998 /\
       generateSku h nm batch db
       = (Ok (String.append (toUpperCase h (substring 0 3 nm))
                (String.append "-"
                   (String.append (filter_string is_alnum b)
                      (String.append "-" (string_of_Z n))))), db) /\
       forallb is_alnum (chars (filter_string is_alnum b)) = true) /\
  (truthy batch = true -> is_string batch = false ->
   generateSku h nm batch db = (Throw TypeError, db)).
Proof.
  split.
  - intros b -> Hne H0 H1.
    destruct (random_suffix_range _ H0 H1) as (n & Hn & Hfloor).
    exists n. split; [exact Hn|].
    split; [|apply filter_string_kept].
    unfold generateSku. cbn [truthy].
    destruct (String.eqb b "") eqn:Eb;
      [apply String.eqb_eq in Eb; contradiction|].
    cbn [negb]. rewrite Hfloor. cbn [integer_toString].
    change (n # 1) with (inject_Z n). rewrite Qfloor_Z. reflexivity.
  - intros Ht Hs. unfold generateSku. rewrite Ht.
    destruct batch; try reflexivity; discriminate.
Qed.

Lemma drop_space_spaces ws r :
  forallb is_space ws = true -> drop_space (ws ++ r) = drop_space r.
Proof.
  induction ws as [|c ws IH]; cbn; [reflexivity|].
  intros H. apply andb_true_iff in H. destruct H as [Hc Hws].
  rewrite Hc. apply IH, Hws.
Qed.

Lemma drop_space_fence post : drop_space (backticks ++ post) = backticks ++ post.
Proof. reflexivity. Qed.

Lemma starts_with_app p r : starts_with p (p ++ r) = true.
Proof.
  induction p as [|a p IH]; cbn; [reflexivity|].
  rewrite Ascii.eqb_refl. exact IH.
Qed.

Lemma not_fence_first c r :
  Ascii.eqb c backtick = false -> starts_with backticks (c :: r) = false.
Proof.
  intros H. change backticks with [backtick; backtick; backtick].
  cbn [starts_with]. rewrite Ascii.eqb_sym, H. reflexivity.
Qed.

(** After dropping white space, a text that has no backtick and does not
    end in white space does not open with a fence. *)
Lemma no_fence_ahead b r :
  b <> [] -> no_backtick b = true ->
  (forall d, is_space (last b d) = false) ->
  starts_with backticks (drop_space (b ++ r)) = false.
Proof.
  induction b as [|c b IH]; intros Hne Hnb Hlast; [contradiction|].
  cbn in Hnb. apply andb_true_iff in Hnb. destruct Hnb as [Hc Hnb].
  apply negb_true_iff in Hc.
  cbn [app drop_space]. destruct (is_space c) eqn:Hs.
  - destruct b as [|c' b'].
    + specialize (Hlast c). cbn in Hlast. congruence.
    + apply IH; [discriminate|exact Hnb|].
      intros d. specialize (Hlast d). exact Hlast.
  - apply not_fence_first, Hc.
Qed.

Lemma lazy_until_fence_eq l :
  lazy_until_fence l =
  if starts_with backticks (drop_space l) then Some []
  else match l with
       | [] => None
       | c :: r => option_map (cons c) (lazy_until_fence r)
       end.
Proof. destruct l; reflexivity. Qed.

Lemma lazy_until_fence_body b ws post :
  no_backtick b = true ->
  (b <> [] -> forall d, is_space (last b d) = false) ->
  forallb is_space ws = true ->
  lazy_until_fence (b ++ ws ++ backticks ++ post) = Some b.
Proof.
  intros Hnb Hlast Hws. induction b as [|c b IH].
  - cbn [app]. rewrite lazy_until_fence_eq.
    rewrite drop_space_spaces by exact Hws.
    rewrite drop_space_fence, starts_with_app. reflexivity.
  - rewrite lazy_until_fence_eq.
    rewrite no_fence_ahead;
      [| discriminate | exact Hnb | apply Hlast; discriminate].
    cbn [app]. rewrite IH; [reflexivity| |].
    + cbn in Hnb. apply andb_true_iff in Hnb. tauto.
    + intros Hne d. destruct b as [|c' b']; [contradiction|].
      specialize (Hlast ltac:(discriminate) d). exact Hlast.
Qed.

Lemma match_fenced_eq opening l :
  match_fenced opening l =
  match
    (if starts_with opening l
     then lazy_until_fence (drop_space (skipn (List.length opening) l))
     else None)
  with
  | Some g => Some g
  | None => match l with
            | [] => None
            | _ :: r => match_fenced opening r
            end
  end.
Proof. destruct l; reflexivity. Qed.

(** A fence is not found before the first backtick. *)
Lemma match_fenced_skip op pre r :
  no_backtick pre = true ->
  match_fenced (backtick :: op) (pre ++ r) = match_fenced (backtick :: op) r.
Proof.
  induction pre as [|c pre IH]; intros H; [reflexivity|].
  cbn in H. apply andb_true_iff in H. destruct H as [Hc Hpre].
  apply negb_true_iff in Hc.
  cbn [app]. rewrite match_fenced_eq. cbn [starts_with].
  rewrite Ascii.eqb_sym, Hc. cbn [andb]. apply IH, Hpre.
Qed.

Lemma match_fenced_none op l :
  no_backtick l = true -> match_fenced (backtick :: op) l = None.
Proof.
  intros H. rewrite <- (app_nil_r l), (match_fenced_skip op l [] H).
  reflexivity.
Qed.

Lemma skipn_length_app {A} (l r : list A) : skipn (List.length l) (l ++ r) = r.
Proof. induction l; cbn; auto. Qed.

Lemma last_indep {A} (l : list A) d d' : l <> [] -> last l d = last l d'.
Proof.
  induction l as [|a l IH]; [contradiction|]. intros _.
  destruct l as [|b l]; [reflexivity|]. cbn [last] in *. apply IH. discriminate.
Qed.

Lemma trimmed_last b :
  trimmed b = true -> b <> [] -> forall d, is_space (last b d) = false.
Proof.
  destruct b as [|c b]; [contradiction|]. intros H _ d.
  unfold trimmed in H. apply andb_true_iff in H. destruct H as [_ H].
  apply negb_true_iff in H.
  rewrite (last_indep (c :: b) d c) by discriminate. exact H.
Qed.

Lemma drop_space_trimmed b r :
  trimmed b = true -> b <> [] -> drop_space (b ++ r) = b ++ r.
Proof.
  destruct b as [|c b]; [contradiction|]. intros H _.
  unfold trimmed in H. apply andb_true_iff in H. destruct H as [H _].
  apply negb_true_iff in H. cbn. rewrite H. reflexivity.
Qed.

Lemma fenced_group op ws1 body ws2 post :
  no_backtick body = true -> trimmed body = true ->
  forallb is_space ws1 = true -> forallb is_space ws2 = true ->
  match_fenced (backtick :: op)
    ((backtick :: op) ++ ws1 ++ body ++ ws2 ++ backticks ++ post)
  = Some body.
Proof.
  intros Hnb Ht H1 H2. rewrite match_fenced_eq.
  rewrite starts_with_app, skipn_length_app.
  rewrite drop_space_spaces by exact H1.
  destruct body as [|c b].
  - cbn [app]. rewrite drop_space_spaces by exact H2.
    rewrite drop_space_fence.
    exact (lazy_until_fence_body [] [] post eq_refl
             (fun H => False_ind _ (H eq_refl)) eq_refl).
  - rewrite drop_space_trimmed by (auto; discriminate).
    rewrite lazy_until_fence_body; auto.
    intros Hne. apply trimmed_last; auto.
Qed.

(** X11. From a response that holds a block fenced with three backticks
    and [json], and no backtick before it, the candidate handed to
    [JSON.parse] is the content of the block without the white space
    around it, whatever follows the closing fence. *)
Theorem fenced_json_is_taken_out pre ws1 body ws2 post :
  no_backtick pre = true ->
  no_backtick body = true -> trimmed body = true ->
  forallb is_space ws1 = true -> forallb is_space ws2 = true ->
  json_candidate
    (Some (string_of_list_ascii
             (pre ++ chars "```json" ++ ws1 ++ body ++ ws2
                  ++ backticks ++ post)))
  = string_of_list_ascii body.
Proof.
  intros Hpre Hnb Ht H1 H2. unfold json_candidate.
  set (l := pre ++ chars "```json" ++ ws1 ++ body ++ ws2 ++ backticks ++ post).
  assert (Hne : String.eqb (string_of_list_ascii l) "" = false).
  { apply String.eqb_neq. intros E.
    apply (f_equal chars) in E. rewrite chars_of_list in E.
    subst l. destruct pre; discriminate E. }
  rewrite Hne, chars_of_list. subst l.
  change (chars "```json") with (backtick :: chars "``json").
  rewrite match_fenced_skip by exact Hpre.
  rewrite fenced_group by assumption. reflexivity.
Qed.

(** *** The brace fallback *)

Lemma indexOf_first c pre r :
  without c pre = true -> indexOf c (pre ++ c :: r) = Some (List.length pre).
Proof.
  induction pre as [|a pre IH]; cbn.
  - rewrite Ascii.eqb_refl. reflexivity.
  - intros H. apply andb_true_iff in H. destruct H as [Ha Hpre].
    apply negb_true_iff in Ha. rewrite Ha, (IH Hpre). reflexivity.
Qed.

Lemma indexOf_none c l : without c l = true -> indexOf c l = None.
Proof.
  induction l as [|a l IH]; cbn; [reflexivity|].
  intros H. apply andb_true_iff in H. destruct H as [Ha Hl].
  apply negb_true_iff in Ha. rewrite Ha, (IH Hl). reflexivity.
Qed.

Lemma without_rev c l : without c l = true -> without c (rev l) = true.
Proof.
  unfold without. rewrite !forallb_forall. intros H a Ha.
  apply H. apply in_rev. exact Ha.
Qed.

Lemma lastIndexOf_last c l post :
  without c post = true ->
  lastIndexOf c (l ++ c :: post) = Some (List.length l).
Proof.
  intros H. unfold lastIndexOf.
  rewrite rev_app_distr. cbn [rev]. rewrite <- app_assoc. cbn [app].
  rewrite (indexOf_first c (rev post) (rev l) (without_rev _ _ H)).
  rewrite length_rev, length_app. cbn [List.length]. f_equal. lia.
Qed.

Lemma no_backtick_no_fence l :
  no_backtick l = true ->
  match_fenced (chars "```json") l = None /\ match_fenced backticks l = None.
Proof.
  intros H. split.
  - change (chars "```json") with (backtick :: chars "``json").
    apply match_fenced_none, H.
  - change backticks with (backtick :: [backtick; backtick]).
    apply match_fenced_none, H.
Qed.

(** X12. From a response without backticks the candidate is the text
    from the first opening brace to the last closing brace, both
    included. *)
Theorem braces_are_taken_out_of_prose pre mid post :
  no_backtick (pre ++ "{"%char :: mid ++ "}"%char :: post) = true ->
  without "{"%char pre = true ->
  without "}"%char post = true ->
  json_candidate
    (Some (string_of_list_ascii
             (pre ++ "{"%char :: mid ++ "}"%char :: post)))
  = string_of_list_ascii ("{"%char :: mid ++ ["}"%char]).
Proof.
  intros Hnb Hpre Hpost. unfold json_candidate.
  set (l := pre ++ "{"%char :: mid ++ "}"%char :: post) in *.
  assert (Hne : String.eqb (string_of_list_ascii l) "" = false).
  { apply String.eqb_neq. intros E.
    apply (f_equal chars) in E. rewrite chars_of_list in E.
    subst l. destruct pre; discriminate E. }
  rewrite Hne, chars_of_list.
  destruct (no_backtick_no_fence l Hnb) as [-> ->].
  subst l. rewrite (indexOf_first _ pre _ Hpre).
  replace (pre ++ "{"%char :: mid ++ "}"%char :: post)
    with ((pre ++ "{"%char :: mid) ++ "}"%char :: post)
    by (rewrite <- app_assoc; reflexivity).
  rewrite (lastIndexOf_last _ _ post Hpost).
  f_equal. unfold js_substring.
  rewrite length_app. cbn [List.length].
  rewrite Nat.min_l, Nat.max_r by lia.
  rewrite <- app_assoc. rewrite skipn_length_app.
  replace (List.length pre + S (List.length mid) + 1 - List.length pre)%nat
    with (List.length ("{"%char :: mid ++ ["}"%char]))
    by (cbn [List.length]; rewrite length_app; cbn; lia).
  change ("{"%char :: mid ++ "}"%char :: post)
    with (("{"%char :: mid) ++ "}"%char :: post).
  replace (("{"%char :: mid) ++ "}"%char :: post)
    with (("{"%char :: mid ++ ["}"%char]) ++ post)
    by (cbn; rewrite <- app_assoc; reflexivity).
  rewrite <- (Nat.add_0_r (List.length _)), firstn_app_2. cbn [firstn].
  apply app_nil_r.
Qed.

(** X13. A non-empty response without backticks that lacks an opening
    brace or a closing brace is handed to [JSON.parse] as it is. *)
Theorem prose_is_handed_over_whole s :
  s <> "" ->
  no_backtick (chars s) = true ->
  without "{"%char (chars s) = true \/ without "}"%char (chars s) = true ->
  json_candidate (Some s) = s.
Proof.
  intros Hne Hnb Hbr. unfold json_candidate.
  rewrite (proj2 (String.eqb_neq _ _) Hne).
  destruct (no_backtick_no_fence _ Hnb) as [-> ->].
  destruct Hbr as [H|H].
  - rewrite (indexOf_none _ _ H). reflexivity.
  - unfold lastIndexOf. rewrite (indexOf_none _ _ (without_rev _ _ H)).
    destruct (indexOf "{"%char (chars s)); reflexivity.
Qed.

(** *** All items or none *)

Lemma map_result_ok {A B} (f : A -> result B) l out :
  map_result f l = Ok out -> Forall2 (fun a b => f a = Ok b) l out.
Proof.
  revert out. induction l as [|a l IH]; cbn; intros out H.
  - inversion H. constructor.
  - destruct (f a) as [b|] eqn:Ha; [|discriminate].
    destruct (map_result f l) as [bs|]; [|discriminate].
    inversion H. constructor; auto.
Qed.

(** X14. When the decoded object's [items] is an array that holds a
    [null], or is truthy and not an array, [parseBillText] returns no
    item at all and no invoice field: the items that were well formed
    and the invoice fields of the same response are lost with it. *)
Theorem one_bad_item_empties_the_bill pf text w content more props :
  chat pf w text = Resolved (content :: more) ->
  JSON_parse pf (json_candidate content) = Some (JObj props) ->
  (exists before after,
     assoc "items" props = JArr (before ++ JNull :: after)) \/
  truthy_non_array (assoc "items" props) = true ->
  parseBillText pf text w = (Ok no_items, S w).
Proof.
  intros Hc Hp Hbad.
  unfold parseBillText, bind, outside, ret. rewrite Hc. cbn [decode].
  rewrite Hp. unfold normalize_bill. cbn [get].
  destruct Hbad as [(before & after & Hi)|Hi].
  - rewrite Hi. cbn [or truthy].
    destruct (map_result_throws (normalize_item pf) before JNull after
                TypeError eq_refl) as [e' ->].
    reflexivity.
  - unfold truthy_non_array in Hi. apply andb_true_iff in Hi.
    destruct Hi as [Ht Hna]. unfold or. rewrite Ht.
    destruct (assoc "items" props); try discriminate; reflexivity.
Qed.

(** X15. When the normalization of a decoded value succeeds, [items] was
    an array or falsy, every element of it has its normalized item at
    the same position (none dropped, none added, none reordered), and
    [totalAmount] is a number that is not [NaN]. *)
Theorem decoded_items_are_all_kept pf parsed bill :
  normalize_bill pf parsed = Ok bill ->
  exists its l n,
    get parsed "items" = Some its /\
    or its (JArr []) = JArr l /\
    Forall2 (fun v e => normalize_item pf v = Ok e) l (items bill) /\
    List.length (items bill) = List.length l /\
    totalAmount bill = JNum n /\ n <> NaN.
Proof.
  unfold normalize_bill. intros H.
  destruct (get parsed "items") as [its|]; [|discriminate].
  destruct (or its (JArr [])) as [| | | | |l|] eqn:Eo; try discriminate.
  destruct (map_result (normalize_item pf) l) as [out|] eqn:Em;
    [|discriminate].
  destruct (Number_or_0 _) as [total|] eqn:Et; [|discriminate].
  inversion H; subst. cbn [items totalAmount].
  exists its, l, total.
  pose proof (map_result_ok _ _ _ Em) as HF.
  repeat split; auto.
  - symmetry. eapply Forall2_length. exact HF.
  - exact (Number_or_0_not_NaN _ _ Et).
Qed.

Lemma extractTextFromImage_throw pf p w e w' :
  extractTextFromImage pf p w = (Throw e, w') ->
  (readFileSync pf w p = Throw e /\ w' = S w) \/
  (exists bytes, readFileSync pf w p = Ok bytes /\
                 e = extraction_failed /\ w' = S (S w)).
Proof.
  unfold extractTextFromImage, bind, outside, ret, raise.
  destruct (readFileSync pf w p) as [bytes|e0] eqn:Er.
  - destruct (vision pf (S w) _ bytes) as [choices|e1]; intros H.
    + discriminate H.
    + inversion H; subst. right. exists bytes. auto.
  - intros H. inversion H; subst. left. auto.
Qed.

(** X16. [extractMedicinesFromImage] returns what [parseBillText] makes
    of the extracted text; it throws exactly when the text extraction
    throws, and then what it throws is the file read's own error or the
    fixed error of a rejected vision call. *)
Theorem extractMedicinesFromImage_fails_only_on_extraction pf p w :
  (forall text w1,
     extractTextFromImage pf p w = (Ok text, w1) ->
     exists bill,
       extractMedicinesFromImage pf p w = (Ok bill, S w1) /\
       parseBillText pf text w1 = (Ok bill, S w1)) /\
  (forall e w1,
     extractTextFromImage pf p w = (Throw e, w1) ->
     extractMedicinesFromImage pf p w = (Throw e, w1)) /\
  (forall e w1,
     extractMedicinesFromImage pf p w = (Throw e, w1) ->
     readFileSync pf w p = Throw e \/
     (exists bytes, readFileSync pf w p = Ok bytes /\
                    e = extraction_failed)).
Proof.
  unfold extractMedicinesFromImage. split; [|split].
  - intros text w1 H. unfold bind at 1. rewrite H.
    destruct (parseBillText_returns pf text w1) as [bill Hb].
    exists bill. unfold bind, ret. rewrite Hb. auto.
  - intros e w1 H. unfold bind at 1. rewrite H. reflexivity.
  - intros e w1. unfold bind at 1.
    destruct (extractTextFromImage pf p w) as [[text|e0] w0] eqn:Hx.
    + destruct (parseBillText_returns pf text w0) as [bill Hb].
      unfold bind, ret. rewrite Hb. discriminate.
    + intros H. inversion H; subst.
      apply extractTextFromImage_throw in Hx.
      destruct Hx as [[Hr _]|(bytes & Hr & He & _)]; [left; exact Hr|].
      right. exists bytes. auto.
Qed.

(** *** [importBill]: all pages or nothing *)

Lemma page_results_app pf before after w :
  page_results pf (before ++ after) w =
  match page_results pf before w with
  | (Ok pages, w1) =>
      match page_results pf after w1 with
      | (Ok more, w2) => (Ok (pages ++ more), w2)
      | (Throw e, w2) => (Throw e, w2)
      end
  | (Throw e, w1) => (Throw e, w1)
  end.
Proof.
  revert w. induction before as [|img before IH]; intros w.
  - cbn. destruct (page_results pf after w) as [[more|e] w2]; reflexivity.
  - cbn [page_results app]. unfold bind.
    destruct (extractTextFromImage pf img w) as [[text|e] w1]; [|reflexivity].
    destruct (parseBillText pf text w1) as [[bill|e] w2]; [|reflexivity].
    rewrite IH.
    destruct (page_results pf before w2) as [[pages|e] w3]; [|reflexivity].
    unfold ret.
    destruct (page_results pf after w3) as [[more|e] w4]; reflexivity.
Qed.

Lemma importBill_by_pages pf f w :
  importBill pf (Some f) w =
  match images_of pf f w with
  | (Ok imgs, w0) =>
      match page_results pf imgs w0 with
      | (Ok pages, w') =>
          (Imported
             (map (fun item =>
                     mkNormalized item (Extracted.medicine_name item)
                       (normalizeMedicineName pf
                          (Extracted.medicine_name item)))
                  (List.concat (map items pages)))
             (snd (fold_left accumulate pages ([], empty_invoice))), w')
      | (Throw e, w') =>
          let (e', w'') := cleanup pf f e w' in (ImportFailed e', w'')
      end
  | (Throw e, w0) =>
      let (e', w'') := cleanup pf f e w0 in (ImportFailed e', w'')
  end.
Proof.
  unfold importBill, images_of, bind.
  assert (G : forall imgs w0,
            (let (r, w1) := for_images pf imgs ([], empty_invoice) w0 in
             match r with
             | Ok (allItems, invoiceData) =>
                 (Imported
                    (map (fun item =>
                            mkNormalized item (Extracted.medicine_name item)
                              (normalizeMedicineName pf
                                 (Extracted.medicine_name item))) allItems)
                    invoiceData, w1)
             | Throw e =>
                 let (e', w'') := cleanup pf f e w1 in (ImportFailed e', w'')
             end)
            = match page_results pf imgs w0 with
              | (Ok pages, w') =>
                  (Imported
                     (map (fun item =>
                             mkNormalized item (Extracted.medicine_name item)
                               (normalizeMedicineName pf
                                  (Extracted.medicine_name item)))
                          (List.concat (map items pages)))
                     (snd (fold_left accumulate pages ([], empty_invoice))),
                   w')
              | (Throw e, w') =>
                  let (e', w'') := cleanup pf f e w' in (ImportFailed e', w'')
              end).
  { intros imgs w0. rewrite for_images_fold.
    destruct (page_results pf imgs w0) as [[pages|e] w1]; [|reflexivity].
    pose proof (accumulate_items pages ([], empty_invoice)) as Hi.
    destruct (fold_left accumulate pages ([], empty_invoice)) as [a i].
    cbn in Hi. subst a. reflexivity. }
  destruct (String.eqb (mimetype f) "application/pdf").
  - destruct (convertPdfToImages pf w (path f)) as [imgs|e]; [|reflexivity].
    apply G.
  - destruct (String.prefix "image/" (mimetype f)); [|reflexivity].
    unfold ret. apply G.
Qed.

(** What the [finally] block makes of an error on its way. *)
Lemma cleanup_error pf f e w :
  (existsSync pf w (path f) = false -> fst (cleanup pf f e w) = e) /\
  (existsSync pf w (path f) = true ->
   fst (cleanup pf f e w)
   = match unlinkSync pf (S w) (path f) with
     | Ok _ => e
     | Throw e' => e'
     end).
Proof.
  unfold cleanup. split; intros ->; [reflexivity|].
  destruct (unlinkSync pf (S w) (path f)); reflexivity.
Qed.

(** X17. When the text extraction of a page throws, [importBill]
    answers with a failure and with none of the items of the pages read
    before it, and no page after it is read: the answer does not depend
    on the pages that follow.  The failure carries the error of the
    extraction, unless the deletion of the upload in the [finally]
    block throws: then it carries the error of the deletion. *)
Theorem importBill_is_all_or_nothing pf f w imgs w0 before img after pages w1 e w2 :
  images_of pf f w = (Ok imgs, w0) ->
  imgs = before ++ img :: after ->
  page_results pf before w0 = (Ok pages, w1) ->
  extractTextFromImage pf img w1 = (Throw e, w2) ->
  exists e' w',
    importBill pf (Some f) w = (ImportFailed e', w') /\
    (existsSync pf w2 (path f) = false -> e' = e) /\
    (existsSync pf w2 (path f) = true ->
     e' = match unlinkSync pf (S w2) (path f) with
          | Ok _ => e
          | Throw d => d
          end).
Proof.
  intros Hi -> Hb Hx. rewrite importBill_by_pages, Hi, page_results_app, Hb.
  cbn [page_results]. unfold bind at 1. rewrite Hx.
  destruct (cleanup_error pf f e w2) as [Hno Hyes].
  destruct (cleanup pf f e w2) as [e' w'].
  exists e', w'. split; [reflexivity|]. split; assumption.
Qed.

(** *** Requests the handler refuses *)

(** X7. [confirmImport] answers with the invalid-request reply exactly
    when the store id is missing or empty or [items] is not an array,
    and then it leaves the store as it was, without a persistence
    call. *)
Theorem confirmImport_refuses_exactly_the_invalid h req db reply db' :
  confirmImport h req db = (reply, db') ->
  (reply = InvalidRequest <-> invalid req) /\
  (reply = InvalidRequest -> db' = db).
Proof.
  unfold confirmImport, handler, invalid.
  destruct (req_storeId req) as [sid|];
    [|intros H; inversion H; tauto].
  destruct (body_items req) as [its|];
    [|intros H; inversion H; tauto].
  destruct (String.eqb sid "") eqn:Es.
  - apply String.eqb_eq in Es. subst sid. intros H. inversion H. tauto.
  - apply String.eqb_neq in Es.
    destruct (for_items _ its 0%nat 0%nat db) as [[[c u]|e] db1];
      intros H; inversion H; subst;
      (split; [split; [discriminate|]|discriminate]);
      intros [Hn|[Hn|Hn]]; try discriminate Hn;
      inversion Hn; contradiction.
Qed.

(* ================================================================== *)
(** ** More theorems at work                                            *)
(* ================================================================== *)

(** The batch B-1 the first import created is the exact match of the
    next item of batch B-1. *)
Lemma created_batch_is_matched_next_witness :
  reconcile_item steady_host "store-1" (dolo (JStr "B-1") 5 30) empty_db
    = (Ok Created, stocked_db) /\
  exists row,
    rows stocked_db = [row] /\
    exact_match "store-1" (dolo (JStr "B-1") 7 99) (rows stocked_db)
      = Some row.
Proof.
  assert (Hrun : reconcile_item steady_host "store-1"
                   (dolo (JStr "B-1") 5 30) empty_db
                 = (Ok Created, stocked_db)) by (vm_compute; reflexivity).
  split; [exact Hrun|].
  destruct (created_batch_is_matched_next steady_host "store-1"
              (dolo (JStr "B-1") 5 30) "B-1" empty_db stocked_db
              eq_refl ltac:(discriminate) Hrun)
    as (row & Hrows & _ & Hnext).
  exists row. split; [exact Hrows|]. apply Hnext; reflexivity.
Defined.

(** A second import of batch B-1 leaves its batch number and its
    manufacturer. *)
Lemma update_path_keeps_batch_and_fills_the_rest_witness :
  exists db' q,
    reconcile_item steady_host "store-1" (dolo (JStr "B-1") 7 99) stocked_db
      = (Ok Updated, db') /\
    In q (rows db') /\ batchNumber q = Some "B-1" /\
    manufacturer q = Some "ACME".
Proof.
  eexists.
  match goal with
  | |- exists q, reconcile_item _ _ _ _ = (_, ?d) /\ _ =>
      assert (Hrun : reconcile_item steady_host "store-1"
                       (dolo (JStr "B-1") 7 99) stocked_db
                     = (Ok Updated, d)) by (vm_compute; reflexivity);
      destruct (update_path_keeps_batch_and_fills_the_rest steady_host
                  "store-1" (dolo (JStr "B-1") 7 99) stocked_db d Hrun)
        as (p & q & ev & Hm & _ & Hin & _ & Hb & _ & _ & Hmf & _)
  end.
  vm_compute in Hm. inversion Hm; subst p. clear Hm.
  exists q. split; [exact Hrun|]. split; [exact Hin|].
  split; [exact Hb|]. apply Hmf; [reflexivity|discriminate].
Defined.

(** Batch B-1 imported three times, 5, 7 and 3 strips: one batch of
    15. *)
Lemma repeated_import_sums_witness :
  exists row db',
    for_items (reconcile_item steady_host "store-1")
      [dolo (JStr "B-1") 5 30; dolo (JStr "B-1") 7 30;
       dolo (JStr "B-1") 3 30] 0%nat 0%nat empty_db
      = (Ok (1%nat, 2%nat), db') /\
    rows db' = [row] /\
    quantity row = of_Z 15.
Proof.
  destruct (repeated_import_sums steady_host "store-1" "Dolo 650" "B-1"
              (dolo (JStr "B-1") 5 30)
              [dolo (JStr "B-1") 7 30; dolo (JStr "B-1") 3 30]
              5 [7; 3] empty_db)
    as (row & db' & Hrun & Hrows & Hq).
  - reflexivity.
  - discriminate.
  - constructor.
  - repeat constructor.
  - reflexivity.
  - reflexivity.
  - repeat constructor.
  - repeat constructor; discriminate.
  - vm_compute. discriminate.
  - exists row, db'. repeat split; assumption.
Defined.

(** An import into the stocked store: the batch it held is still the
    first, under its id, name and SKU. *)
Lemma confirmImport_never_deletes_or_renames_witness :
  let run :=
    confirmImport steady_host
      (request [dolo (JStr "B-1") 7 99; dolo (JStr "B-2") 1 10])
      stocked_db in
  exists added,
    map identity (rows (snd run))
    = map identity (rows stocked_db) ++ added.
Proof.
  cbv zeta.
  apply (confirmImport_never_deletes_or_renames steady_host
           (request [dolo (JStr "B-1") 7 99; dolo (JStr "B-2") 1 10])
           stocked_db
           (fst (confirmImport steady_host
                   (request [dolo (JStr "B-1") 7 99;
                             dolo (JStr "B-2") 1 10]) stocked_db))).
  apply surjective_pairing.
Defined.

(** An expiry date that came as a number fails the import at once. *)
Lemma wrong_typed_item_fails_the_import_witness :
  truthy (Item.expiry_date dolo_numeric_expiry) = true /\
  is_string (Item.expiry_date dolo_numeric_expiry) = false /\
  confirmImport steady_host
    (request [dolo_numeric_expiry; dolo (JStr "B-2") 1 10]) empty_db
  = (SaveFailed, empty_db).
Proof.
  split; [reflexivity|]. split; [reflexivity|].
  apply (proj1 (wrong_typed_item_fails_the_import steady_host "store-1"
                  dolo_numeric_expiry [dolo (JStr "B-2") 1 10] empty_db
                  ltac:(discriminate))).
  split; reflexivity.
Defined.

(** One batch created and restocked once: one row more, four calls. *)
Lemma confirmed_counts_are_what_was_done_witness :
  exists db',
    confirmImport steady_host
      (request [dolo (JStr "B-1") 5 30; dolo (JStr "B-1") 7 30]) empty_db
    = (Confirmed 1 1, db') /\
    List.length (rows db') = 1%nat /\ calls db' = 4%nat.
Proof.
  eexists.
  match goal with
  | |- confirmImport ?h ?req ?db = (_, ?d) /\ _ =>
      assert (Hrun : confirmImport h req db = (Confirmed 1 1, d))
        by (vm_compute; reflexivity);
      split; [exact Hrun|];
      exact (confirmed_counts_are_what_was_done h req db 1%nat 1%nat d Hrun)
  end.
Defined.

(** A request without a store id is refused and writes nothing. *)
Lemma confirmImport_refuses_exactly_the_invalid_witness :
  confirmImport steady_host
    (mkRequest None (Some [dolo (JStr "B-1") 5 30])) stocked_db
  = (InvalidRequest, stocked_db) /\
  invalid (mkRequest None (Some [dolo (JStr "B-1") 5 30])).
Proof.
  split; [reflexivity|].
  apply (proj1 (confirmImport_refuses_exactly_the_invalid steady_host
                  (mkRequest None (Some [dolo (JStr "B-1") 5 30]))
                  stocked_db InvalidRequest stocked_db eq_refl)).
  reflexivity.
Defined.

(** The earlier handler restocks batch B-1 and leaves its MRP. *)
Lemma legacy_update_writes_the_quantity_only_witness :
  exists db' q,
    reconcile_item_legacy steady_host "store-1" (dolo (JStr "B-1") 7 99)
      stocked_db = (Ok Updated, db') /\
    In q (rows db') /\ quantity q = of_Z 12 /\ mrp q = Some (of_Z 30).
Proof.
  eexists.
  match goal with
  | |- exists q, reconcile_item_legacy _ _ _ _ = (_, ?d) /\ _ =>
      assert (Hrun : reconcile_item_legacy steady_host "store-1"
                       (dolo (JStr "B-1") 7 99) stocked_db
                     = (Ok Updated, d)) by (vm_compute; reflexivity);
      destruct (legacy_update_writes_the_quantity_only steady_host
                  "store-1" (dolo (JStr "B-1") 7 99) stocked_db d Hrun)
        as (p & q & qv & Hm & Hin & _ & Hqv & Hq & Hmrp & _)
  end.
  vm_compute in Hm. inversion Hm; subst p. clear Hm.
  vm_compute in Hqv. inversion Hqv; subst qv. clear Hqv.
  exists q. split; [exact Hrun|]. split; [exact Hin|].
  split; [rewrite Hq; vm_compute; reflexivity|exact Hmrp].
Defined.

(** In the earlier handler the batch created from an empty batch number
    is found again. *)
Lemma legacy_created_batch_is_matched_next_witness :
  exists db' row,
    reconcile_item_legacy steady_host "store-1" (dolo (JStr "") 5 30)
      empty_db = (Ok Created, db') /\
    rows db' = [row] /\
    exact_match "store-1" (dolo (JStr "") 5 30) (rows db') = Some row.
Proof.
  eexists.
  match goal with
  | |- exists row, reconcile_item_legacy _ _ _ _ = (_, ?d) /\ _ =>
      assert (Hrun : reconcile_item_legacy steady_host "store-1"
                       (dolo (JStr "") 5 30) empty_db
                     = (Ok Created, d)) by (vm_compute; reflexivity);
      destruct (legacy_created_batch_is_matched_next steady_host
                  "store-1" (dolo (JStr "") 5 30) "" empty_db d
                  eq_refl Hrun)
        as (row & Hrows & _ & Hnext)
  end.
  exists row. split; [exact Hrun|]. split; [exact Hrows|exact Hnext].
Defined.

(** The SKU of Dolo 650, batch B-1, on the steady host's draw. *)
Lemma generateSku_shape_witness :
  exists n,
    0 <= n <= 998 /\
    generateSku steady_host "Dolo 650" (JStr "B-1") empty_db
    = (Ok (String.append "DOL-B1-" (string_of_Z n)), empty_db).
Proof.
  destruct (proj1 (generateSku_shape steady_host "Dolo 650" (JStr "B-1")
                     empty_db) "B-1" eq_refl ltac:(discriminate)
              ltac:(discriminate) ltac:(vm_compute; discriminate))
    as (n & Hn & Hsku & _).
  exists n. split; [exact Hn|exact Hsku].
Defined.

(** A fenced block inside a sentence. *)
Lemma fenced_json_is_taken_out_witness :
  json_candidate (Some "Here you go: ```json {} ``` bye") = "{}".
Proof.
  exact (fenced_json_is_taken_out (chars "Here you go: ") [" "%char]
           (chars "{}") [" "%char] (chars " bye")
           eq_refl eq_refl eq_refl eq_refl eq_refl).
Defined.

(** An object inside a sentence. *)
Lemma braces_are_taken_out_of_prose_witness :
  json_candidate (Some "Result: {x} done") = "{x}".
Proof.
  exact (braces_are_taken_out_of_prose (chars "Result: ") (chars "x")
           (chars " done") eq_refl eq_refl eq_refl).
Defined.

(** A sentence without braces. *)
Lemma prose_is_handed_over_whole_witness :
  json_candidate (Some "Sorry, I cannot read this bill.")
  = "Sorry, I cannot read this bill.".
Proof.
  apply prose_is_handed_over_whole.
  - discriminate.
  - reflexivity.
  - left. reflexivity.
Defined.

(** One [null] among the items: the item before it and the invoice
    number are gone as well. *)
Lemma one_bad_item_empties_the_bill_witness :
  let pf := scripted_platform []
              (fun _ => Resolved [Some null_item_response]) in
  parseBillText pf "text" 0%nat = (Ok no_items, 1%nat).
Proof.
  cbv zeta.
  apply (one_bad_item_empties_the_bill _ "text" 0%nat
           (Some null_item_response) []
           [("items", JArr [JObj [("medicine_name", JStr "A")]; JNull]);
            ("invoiceNumber", JStr "INV-7")]).
  - reflexivity.
  - vm_compute. reflexivity.
  - left. exists [JObj [("medicine_name", JStr "A")]], []. reflexivity.
Defined.

(** Two decoded items and a total that is no number. *)
Lemma decoded_items_are_all_kept_witness :
  let pf := scripted_platform [] (fun _ => Resolved []) in
  let parsed :=
    JObj [("items", JArr [JObj [("medicine_name", JStr "A")];
                          JObj [("productName", JStr "B")]]);
          ("totalAmount", JStr "abc")] in
  exists bill,
    normalize_bill pf parsed = Ok bill /\
    List.length (items bill) = 2%nat /\
    totalAmount bill = JNum zero.
Proof.
  cbv zeta. eexists.
  match goal with
  | |- normalize_bill ?pf ?parsed = Ok ?b /\ _ =>
      assert (Hrun : normalize_bill pf parsed = Ok b)
        by (vm_compute; reflexivity);
      destruct (decoded_items_are_all_kept pf parsed b Hrun)
        as (its & l & n & Hits & Hor & _ & Hlen & _)
  end.
  split; [exact Hrun|]. split; [|reflexivity].
  rewrite Hlen. inversion Hits; subst its. inversion Hor. reflexivity.
Defined.

(** A rejected vision call is the error of the whole pipeline. *)
Lemma extractMedicinesFromImage_fails_only_on_extraction_witness :
  extractMedicinesFromImage (second_page_unreadable (Ok tt)) "p2.png" 4%nat
  = (Throw extraction_failed, 6%nat).
Proof.
  apply (proj1 (proj2 (extractMedicinesFromImage_fails_only_on_extraction
                         (second_page_unreadable (Ok tt)) "p2.png" 4%nat))).
  reflexivity.
Defined.

(** The second page of two cannot be read: no item of the first page is
    answered; the answer carries the extraction's error when the upload
    is deleted, and the deletion's error when it cannot be. *)
Lemma importBill_is_all_or_nothing_witness :
  importBill (second_page_unreadable (Ok tt))
    (Some (mkFile "up/bill.pdf" "application/pdf")) 0%nat
  = (ImportFailed extraction_failed, 8%nat) /\
  importBill (second_page_unreadable (Throw (Error "EPERM")))
    (Some (mkFile "up/bill.pdf" "application/pdf")) 0%nat
  = (ImportFailed (Error "EPERM"), 8%nat).
Proof.
  assert (G : forall unlink,
            exists e' w',
              importBill (second_page_unreadable unlink)
                (Some (mkFile "up/bill.pdf" "application/pdf")) 0%nat
              = (ImportFailed e', w') /\
              e' = match unlink with
                   | Ok _ => extraction_failed
                   | Throw d => d
                   end).
  { intros unlink.
    assert (Hpages : exists pages,
              page_results (second_page_unreadable unlink) ["p1.png"] 1%nat
              = (Ok pages, 4%nat))
      by (eexists; vm_compute; reflexivity).
    destruct Hpages as [pages Hpages].
    destruct (importBill_is_all_or_nothing (second_page_unreadable unlink)
                (mkFile "up/bill.pdf" "application/pdf") 0%nat
                ["p1.png"; "p2.png"] 1%nat ["p1.png"] "p2.png" [] pages
                4%nat extraction_failed 6%nat
                eq_refl eq_refl Hpages eq_refl)
      as (e' & w' & Hrun & _ & Hyes).
    exists e', w'. split; [exact Hrun|]. exact (Hyes eq_refl). }
  split.
  - destruct (G (Ok tt)) as (e' & w' & Hrun & ->).
    rewrite Hrun. f_equal.
    assert (Hw : snd (importBill (second_page_unreadable (Ok tt))
                        (Some (mkFile "up/bill.pdf" "application/pdf"))
                        0%nat) = 8%nat) by (vm_compute; reflexivity).
    rewrite Hrun in Hw. exact Hw.
  - destruct (G (Throw (Error "EPERM"))) as (e' & w' & Hrun & ->).
    rewrite Hrun. f_equal.
    assert (Hw : snd (importBill
                        (second_page_unreadable (Throw (Error "EPERM")))
                        (Some (mkFile "up/bill.pdf" "application/pdf"))
                        0%nat) = 8%nat) by (vm_compute; reflexivity).
    rewrite Hrun in Hw. exact Hw.
Defined.
